(** * gh-client: a shallow embedding of [github.go] and its properties

    The development follows the Go source function by function.  Go values
    are modelled as the source has them: a pointer that may be nil is an
    [option], an [int] or a [time.Duration] is a [Z] (with the 64-bit
    wrap-around written out where the source computes), a slice is a [list],
    the [hashsearch] index is a finite set of strings.  The remote platform,
    the wall clock and the process-wide response observer are the fields of
    a [Platform] record over a world type that every operation threads. *)

From Stdlib Require Import ZArith Lia Bool Sorted.
From stdpp Require Import gmap strings list sorting.

Local Open Scope string_scope.
Local Open Scope list_scope.
Local Open Scope Z_scope.

(** ** Data model: the go-github structs the client reads *)

(** [github.User]: only [Login *string] is read. *)
Record User := { Login : option string }.

(** [github.CommitAuthor] and [github.Commit]: only the author date is read. *)
Record CommitAuthor := { Date : option Z }.
Record Commit := { CAuthor : option CommitAuthor }.

(** [github.RepositoryCommit]: [Commit *Commit], [Author *User],
    [Committer *User]. *)
Record RepositoryCommit := {
  RCommit : option Commit;
  Author : option User;
  Committer : option User
}.

(** [User.GetLogin]: the empty string on a nil receiver or a nil field. *)
Definition GetLogin (u : option User) : string :=
  match u with
  | Some {| Login := Some s |} => s
  | _ => ""
  end.

(** ** ContributionClassifier *)

Definition isDirectCommit (commit : RepositoryCommit) : bool :=
  String.eqb (GetLogin (Author commit)) (GetLogin (Committer commit)).

Definition isMergedByCommitterCommit (commit : RepositoryCommit) : bool :=
  String.eqb (GetLogin (Committer commit)) "web-flow".

Definition isModeratedPRCommit (commit : RepositoryCommit) : bool :=
  negb (String.eqb (GetLogin (Author commit)) (GetLogin (Committer commit))).

(** The [for ... range commits] loop with its early [return true]. *)
Fixpoint isShadowMember (commits : list RepositoryCommit) : bool :=
  match commits with
  | [] => false
  | commit :: rest =>
      let isDirect := isDirectCommit commit in
      if isDirect then true else isShadowMember rest
  end.

(** A login that reads as absent: a nil user, or a user with a nil login. *)
Definition login_absent (u : option User) : Prop :=
  u = None \/ u = Some {| Login := None |}.

(** A commit given by the two logins, as the examples of the
    specification write them. *)
Definition commit_of (author committer : string) : RepositoryCommit :=
  {| RCommit := None;
     Author := Some {| Login := Some author |};
     Committer := Some {| Login := Some committer |} |}.

(** ** Errors, responses and the other go-github structs *)

(** Go [error] values.  The constructors keep the dynamic type apart, which
    is what the type assertion of [isRateLimitError] and the comparison with
    the sentinel [ErrNotFound] look at.  A nil [error] is [None]. *)
#[warnings="-register-all"] Inductive error : Type :=
| RateLimitError                       (* a [github.RateLimitError] pointer *)
| ErrorResponse (code : Z)             (* a [github.ErrorResponse] pointer *)
| TransportError (msg : string)        (* any other failure of the call *)
| Errorf_w (msg : string) (e : error)  (* [fmt.Errorf(msg + ": %w", e)] *)
| StatusCodeError (code : Z) (status : string)
                                       (* [fmt.Errorf("status code is: %v (%s)", ..)] *)
| ErrNotFound                          (* [var ErrNotFound = errors.New("not found")] *)
| ErrorArray (errs : list error)       (* [errors.New(FormatErrorArray("", errs))] *)
| ValidationError (msg : string)       (* what [Validate] returns *)
| ErrorString (msg : string).          (* [errors.New(msg)] of a caller *)

(** [github.Rate] and [github.Response]: the fields the client reads. *)
Record Rate := { Reset : Z }.

Record Response := {
  StatusCode : Z;
  Status : string;
  NextPage : Z;
  RateOf : Rate
}.

Record ListOptions := { Page : Z; PerPage : Z }.

Record Repository := {
  FullName : option string;
  StargazersCount : option Z
}.

Definition GetFullName (r : Repository) : string :=
  match FullName r with Some s => s | None => "" end.

Definition GetStargazersCount (r : Repository) : Z :=
  match StargazersCount r with Some n => n | None => 0 end.

Record PullRequest := { Number : option Z }.

Record CommitsListOptions := {
  CLO_Path : string;
  CLO_Author : string;
  CLO_ListOptions : ListOptions
}.

(** One fragment of a search query.  The source keeps the fragments in a
    [[]string] and joins them with a space; a constructor stands for the
    text the source formats. *)
Inductive QueryFragment :=
| QLanguage (titled : string)   (* [Sf("language:%q", ToTitle(opts.Language))] *)
| QForkFalse                    (* ["fork:false"] *)
| QStarsLe (bound : Z).         (* [Sf("stars:<=%v", starLowerBound)] *)

Record SearchOptions := {
  Sort : string;
  SO_ListOptions : ListOptions
}.

Record RepositoriesSearchResult := { Repositories : list Repository }.

Record RepositoryContent := {
  Type_ : option string;
  Path : option string
}.

Definition GetType (v : RepositoryContent) : string :=
  match Type_ v with Some s => s | None => "" end.

Definition GetPath (v : RepositoryContent) : string :=
  match Path v with Some s => s | None => "" end.

Definition IsDir (v : RepositoryContent) : bool := String.eqb (GetType v) "dir".

(** ** Machine integers and time *)

Definition wrap64 (x : Z) : Z := (x + 2 ^ 63) mod 2 ^ 64 - 2 ^ 63.

Definition maxDuration : Z := 2 ^ 63 - 1.
Definition minDuration : Z := - 2 ^ 63.

(** [Time.Sub]: the difference in nanoseconds, saturated to the range of a
    [time.Duration]. *)
Definition time_Sub (t u : Z) : Z :=
  Z.max minDuration (Z.min maxDuration (t - u)).

Definition time_Second : Z := 1000000000.

(** The zero [time.Time] (January 1, year 1, UTC) in nanoseconds relative
    to the Unix epoch: what [GetDate] returns on a nil receiver or field. *)
Definition zero_Time : Z := -62135596800 * 1000000000.

Definition GetDate (a : option CommitAuthor) : Z :=
  match a with
  | Some {| Date := Some t |} => t
  | _ => zero_Time
  end.

Definition StatusOK : Z := 200.
Definition StatusNoContent : Z := 204.
Definition StatusNotFound : Z := 404.

(** ** Executions: state passing with panics *)

Inductive panic_value :=
| NilDereference
| PanicError (e : error).

(** The outcome of running a Go function: it returns, it panics, or the
    model ran out of the fuel that bounds its loops. *)
Inductive exec (A : Type) : Type :=
| Done (a : A)
| Panicked (p : panic_value)
| OutOfFuel.

Arguments Done {A} a.
Arguments Panicked {A} p.
Arguments OutOfFuel {A}.

Definition M (W A : Type) : Type := W -> exec A * W.

Definition ret {W A} (a : A) : M W A := fun w => (Done a, w).

Definition bind {W A B} (m : M W A) (k : A -> M W B) : M W B :=
  fun w =>
    match m w with
    | (Done a, w') => k a w'
    | (Panicked p, w') => (Panicked p, w')
    | (OutOfFuel, w') => (OutOfFuel, w')
    end.

Definition panic {W A} (p : panic_value) : M W A := fun w => (Panicked p, w).
Definition out_of_fuel {W A} : M W A := fun w => (OutOfFuel, w).

Declare Scope exec_scope.
Delimit Scope exec_scope with exec.
Notation "'let*' p := m 'in' k" := (bind m (fun p => k))
  (at level 10, p pattern, m at level 100, k at level 200) : exec_scope.
Notation "m ;;; k" := (bind m (fun _ => k))
  (at level 100, k at level 200, right associativity) : exec_scope.

Local Open Scope exec_scope.

(** What a Go function of type [(T, error)] returns. *)
Inductive result (T : Type) : Type :=
| Ok (v : T)
| Err (e : error).

Arguments Ok {T} v.
Arguments Err {T} e.

(** Reading a field through a pointer: a nil pointer panics. *)
Definition deref {W A} (p : option A) : M W A :=
  match p with
  | Some a => ret a
  | None => panic NilDereference
  end.

(** ** The platform: remote API, clock and response observer *)

Record Platform (W : Type) := {
  time_Now : W -> Z * W;
  time_Sleep : Z -> W -> W;
  ResponseCallback : option (option Response -> W -> W);
  Repositories_List :
    string -> ListOptions -> W ->
    (list Repository * option Response * option error) * W;
  PullRequests_Get :
    string -> string -> Z -> W ->
    (option PullRequest * option Response * option error) * W;
  Repositories_ListCommits :
    string -> string -> CommitsListOptions -> W ->
    (list RepositoryCommit * option Response * option error) * W;
  Search_Repositories :
    list QueryFragment -> SearchOptions -> W ->
    (option RepositoriesSearchResult * option Response * option error) * W;
  Repositories_GetContents :
    string -> string -> string -> W ->
    (option RepositoryContent * list RepositoryContent
     * option Response * option error) * W
}.

Arguments time_Now {W} _.
Arguments time_Sleep {W} _.
Arguments ResponseCallback {W} _.
Arguments Repositories_List {W} _.
Arguments PullRequests_Get {W} _.
Arguments Repositories_ListCommits {W} _.
Arguments Search_Repositories {W} _.
Arguments Repositories_GetContents {W} _.

(** ** RequestExecutor *)

Section Client.

Context {W : Type} (P : Platform W).

Definition now : M W Z := fun w => let (t, w') := time_Now P w in (Done t, w').

Definition sleep (d : Z) : M W unit := fun w => (Done tt, time_Sleep P d w).

Definition onResponse (resp : option Response) : M W unit :=
  match ResponseCallback P with
  | Some callback => fun w => (Done tt, callback resp w)
  | None => ret tt
  end.

(** The type assertion of [err] to a [github.RateLimitError] pointer: it looks at the
    dynamic type of [err] itself, so a nil or a wrapped error fails it. *)
Definition isRateLimitError (err : option error) : bool :=
  match err with
  | Some RateLimitError => true
  | _ => false
  end.

Definition handleRateLimitError (err : option error) (resp : option Response)
  : M W bool :=
  if isRateLimitError err then
    let* r := deref resp in
    let* t := now in
    sleep (time_Sub (Reset (RateOf r)) t) ;;;
    ret true
  else ret false.

(** Modelled from the spec: [RetryExponentialBackoff] belongs to the utilz
    dependency, whose source is not part of the repository.  Section 4.1:
    a bounded number of attempts, a backoff between attempts that starts at
    the base delay and doubles each time, nil as soon as an attempt returns
    nil, and the errors of all attempts otherwise.  [S] holds the variables
    the task closure captures and assigns. *)
Fixpoint RetryExponentialBackoff_from {S : Type} (retries : nat) (wait : Z)
    (task : S -> M W (option error * S)) (errs : list error) (s : S)
  : M W (list error * S) :=
  match retries with
  | O => ret (errs, s)
  | Datatypes.S retries' =>
      let* (err, s') := task s in
      match err with
      | None => ret ([], s')
      | Some e =>
          match retries' with
          | O => ret (errs ++ [e], s')
          | _ =>
              sleep wait ;;;
              RetryExponentialBackoff_from retries' (wrap64 (wait * 2)) task
                (errs ++ [e]) s'
          end
      end
  end.

Definition RetryExponentialBackoff {S : Type} (retries : nat) (wait : Z)
    (task : S -> M W (option error * S)) (s : S) : M W (list error * S) :=
  RetryExponentialBackoff_from retries wait task [] s.

Definition status_is_final (code : Z) : bool :=
  (code =? StatusOK) || (code =? StatusNotFound) || (code =? StatusNoContent).

(** The closure every getter and lister hands to [RetryExponentialBackoff].
    Its text is the same in all of them but for the call it makes; [call] is
    that call, and the pair the closure returns next to its error is what it
    assigned to the captured result and [resp]. *)
Definition attempt {A : Type}
    (call : W -> (A * option Response * option error) * W)
    (captured : A * option Response)
  : M W (option error * (A * option Response)) :=
  let* (v, resp, err) := (fun w => let (r, w') := call w in (Done r, w')) in
  match err with
  | Some e => ret (Some (Errorf_w "error while executing request" e), (v, resp))
  | None =>
      onResponse resp ;;;
      let* limited := handleRateLimitError err resp in
      if limited then ret (err, (v, resp))
      else
        let* r := deref resp in
        if negb (status_is_final (StatusCode r))
        then ret (Some (StatusCodeError (StatusCode r) (Status r)), (v, resp))
        else ret (None, (v, resp))
  end.

(** ** PageAggregator: [ListReposByUser] *)

Fixpoint ListReposByUser_loop (fuel : nat) (user : string) (opt : ListOptions)
    (allRepos : list Repository) : M W (result (list Repository)) :=
  match fuel with
  | O => out_of_fuel
  | Datatypes.S fuel' =>
      let* (errs, (repos, resp)) :=
        RetryExponentialBackoff 5%nat time_Second
          (attempt (Repositories_List P user opt)) ([], None) in
      if negb (length errs =? 0)%nat then ret (Err (ErrorArray errs))
      else
        let* r := deref resp in
        if StatusCode r =? StatusNotFound then ret (Err ErrNotFound)
        else
          let allRepos := allRepos ++ repos in
          if NextPage r =? 0 then ret (Ok allRepos)
          else
            ListReposByUser_loop fuel' user
              {| Page := NextPage r; PerPage := PerPage opt |} allRepos
  end.

Definition ListReposByUser (fuel : nat) (user : string)
  : M W (result (list Repository)) :=
  ListReposByUser_loop fuel user {| Page := 0; PerPage := 100 |} [].

(** ** A getter: [GetPull] *)

Definition GetPull (owner repo : string) (number : Z)
  : M W (result (option PullRequest)) :=
  let* (errs, (pull, resp)) :=
    RetryExponentialBackoff 5%nat time_Second
      (attempt (PullRequests_Get P owner repo number)) (None, None) in
  if negb (length errs =? 0)%nat then
    let* r := deref resp in
    if StatusCode r =? StatusNotFound then ret (Err ErrNotFound)
    else ret (Err (ErrorArray errs))
  else
    let* r := deref resp in
    if StatusCode r =? StatusNotFound then ret (Err ErrNotFound)
    else ret (Ok pull).

(** ** PageAggregator with early stop: [ListCommits] *)

(** The [for _, commit := range commits] loop of [ListCommits] under
    [maxAge > 0]; the boolean tells whether [break PageLister] was taken. *)
Fixpoint range_commits (maxAge : Z) (commits allCommits : list RepositoryCommit)
  : M W (list RepositoryCommit * bool) :=
  match commits with
  | [] => ret (allCommits, false)
  | commit :: rest =>
      let* t := now in
      let* c := deref (RCommit commit) in
      let isTooOld := time_Sub t (GetDate (CAuthor c)) >? maxAge in
      if negb isTooOld then range_commits maxAge rest (allCommits ++ [commit])
      else ret (allCommits, true)
  end.

Fixpoint ListCommits_loop (fuel : nat) (owner repo : string)
    (options : CommitsListOptions) (maxAge : Z) (opt : ListOptions)
    (allCommits : list RepositoryCommit)
  : M W (result (list RepositoryCommit)) :=
  match fuel with
  | O => out_of_fuel
  | Datatypes.S fuel' =>
      let options :=
        {| CLO_Path := CLO_Path options; CLO_Author := CLO_Author options;
           CLO_ListOptions := opt |} in
      let* (errs, (commits, resp)) :=
        RetryExponentialBackoff 5%nat time_Second
          (attempt (Repositories_ListCommits P owner repo options)) ([], None) in
      if negb (length errs =? 0)%nat then ret (Err (ErrorArray errs))
      else
        let* r := deref resp in
        if StatusCode r =? StatusNotFound then ret (Err ErrNotFound)
        else
          let* (allCommits, stop) :=
            (if maxAge >? 0 then range_commits maxAge commits allCommits
             else ret (allCommits ++ commits, false)) in
          if stop then ret (Ok allCommits)
          else if NextPage r =? 0 then ret (Ok allCommits)
          else
            ListCommits_loop fuel' owner repo options maxAge
              {| Page := NextPage r; PerPage := PerPage opt |} allCommits
  end.

Definition ListCommits (fuel : nat) (owner repo : string)
    (options : CommitsListOptions) (maxAge : Z)
  : M W (result (list RepositoryCommit)) :=
  ListCommits_loop fuel owner repo options maxAge
    {| Page := 0; PerPage := 100 |} [].

(** ** TreeWalker *)

Record Params := { params_owner : string; params_repo : string; params_path : string }.

(** [Params.Validate]: owner and repo are required.  The error is the one
    of the validation library, given here by its text: it names every
    blank field, in the order of their names. *)
Definition Params_Validate (a : Params) : option string :=
  match String.eqb (params_owner a) "", String.eqb (params_repo a) "" with
  | true, true => Some "owner: cannot be blank; repo: cannot be blank."
  | true, false => Some "owner: cannot be blank."
  | false, true => Some "repo: cannot be blank."
  | false, false => None
  end.

(** [RepoExplorationRequest.Validate] validates its field [params]: the
    error of [Params.Validate] comes back under the name of the field. *)
Definition Validate (a : Params) : option error :=
  match Params_Validate a with
  | Some msg =>
      Some (ValidationError (String.append "params: (" (String.append msg ").")))
  | None => None
  end.

(** [NewRepoExplorationRequest().WithOwner(o).WithRepo(r)]. *)
Definition NewRepoExplorationRequest : Params :=
  {| params_owner := ""; params_repo := ""; params_path := "" |}.

Definition WithOwner (owner : string) (r : Params) : Params :=
  {| params_owner := owner; params_repo := params_repo r; params_path := params_path r |}.

Definition WithRepo (repo : string) (r : Params) : Params :=
  {| params_owner := params_owner r; params_repo := repo; params_path := params_path r |}.

Definition ListContents (r : Params) (path : string)
  : M W (option RepositoryContent * list RepositoryContent
         * option Response * option error) :=
  match Validate r with
  | Some e => ret (None, [], None, Some e)
  | None =>
      fun w =>
        let (res, w') :=
          Repositories_GetContents P (params_owner r) (params_repo r) path w in
        (Done res, w')
  end.

(** [walkFiles]: the recursion of the source is bounded by [fuel], the
    depth the walk may reach; the inner [range] is the loop over the
    listing of one directory.  Where the source leaves the loop body with
    [return x] the expansion of a directory yields [Some x]. *)
Fixpoint walkFiles (fuel : nat) (r : Params)
    (walker : RepositoryContent -> M W (option error))
    (content : list RepositoryContent) {struct fuel} : M W (option error) :=
  match fuel with
  | O => out_of_fuel
  | Datatypes.S fuel' =>
      (fix range (content : list RepositoryContent) : M W (option error) :=
         match content with
         | [] => ret None
         | v :: rest =>
             let* returned :=
               (if IsDir v then
                  let* (_, directoryContent, resp, err) :=
                    ListContents
                      (WithRepo (params_repo r)
                         (WithOwner (params_owner r) NewRepoExplorationRequest))
                      (GetPath v) in
                  match err with
                  | Some e => ret (Some (Some e))
                  | None =>
                      onResponse resp ;;;
                      let* limited := handleRateLimitError err resp in
                      if limited then ret (Some err)
                      else
                        let* err := walkFiles fuel' r walker directoryContent in
                        match err with
                        | Some e => ret (Some (Some e))
                        | None => ret None
                        end
                  end
                else ret None) in
             match returned with
             | Some x => ret x
             | None =>
                 let* err := walker v in
                 match err with
                 | Some e => ret (Some e)
                 | None => range rest
                 end
             end
         end) content
  end.

Definition WalkFiles (fuel : nat) (r : Params)
    (walker : RepositoryContent -> M W (option error)) : M W (option error) :=
  match Validate r with
  | Some e => ret (Some e)
  | None =>
      let* (_, directoryContent, resp, err) :=
        ListContents
          (WithRepo (params_repo r)
             (WithOwner (params_owner r) NewRepoExplorationRequest))
          (params_path r) in
      match err with
      | Some e => panic (PanicError e)
      | None =>
          onResponse resp ;;;
          let* limited := handleRateLimitError err resp in
          if limited then ret err
          else walkFiles fuel r walker directoryContent
      end
  end.

(** ** ExhaustiveSearchEngine *)

Record ListAllReposByLanguageOpts := {
  Language : string;
  ExcludeForks : bool;
  MinStars : Z;
  Limit : Z
}.

Definition Validate_opts (opts : option ListAllReposByLanguageOpts) : option error :=
  match opts with
  | None => Some (ErrorString "opts is nil.")
  | Some o =>
      if String.eqb (Language o) "" then Some (ErrorString "opts.Language not provided.")
      else None
  end.

(** The variables of the getter loop.  [storeIndex] is the [hashsearch]
    index, a dependency of the repository, taken as the set of the
    identifiers added so far. *)
Record search_state := {
  opt_Page : Z;
  latestStarCount : Z;
  useStarBound : bool;
  starLowerBound : Z;
  allRepos : list Repository;
  storeIndex : gset string
}.

(** Modelled from the spec: [hashsearch] is a dependency whose source is
    not part of the repository.  Section 3: the index is a set of unique
    identifiers that only grows; [Has] tests membership, [Add] (and the
    [OrderedAppend] of the legacy file) puts an identifier in. *)
Definition Has (index : gset string) (id : string) : bool := bool_decide (id ∈ index).

Definition Add (index : gset string) (id : string) : gset string := {[ id ]} ∪ index.

(** The three [break GetterLoop] of the source. *)
Inductive loop_exit := BelowMinStars | LimitReached | BoundIsZero.

(** The [for repIndex := range repos.Repositories] loop.  It assigns
    [latestStarCount], [allRepos] and [storeIndex]; [Some] tells which
    [break GetterLoop] ended it. *)
Fixpoint range_repos (opts : ListAllReposByLanguageOpts) (repos : list Repository)
    (st : search_state) : search_state * option loop_exit :=
  match repos with
  | [] => (st, None)
  | repo :: rest =>
      if GetStargazersCount repo <? MinStars opts then (st, Some BelowMinStars)
      else
        let id := GetFullName repo in
        if negb (Has (storeIndex st) id) then
          let st' :=
            {| opt_Page := opt_Page st;
               latestStarCount := GetStargazersCount repo;
               useStarBound := useStarBound st;
               starLowerBound := starLowerBound st;
               allRepos := allRepos st ++ [repo];
               storeIndex := Add (storeIndex st) id |} in
          if (Limit opts >? 0) && (Z.of_nat (length (allRepos st')) >=? Limit opts)
          then (st', Some LimitReached)
          else range_repos opts rest st'
        else range_repos opts rest st
  end.

(** The bound of the next restart, from [starLowerBound] and
    [latestStarCount] at the end of a run of pages. *)
Definition next_bound (starLowerBound latestStarCount : Z) : Z :=
  if starLowerBound =? latestStarCount then wrap64 (latestStarCount - 1)
  else latestStarCount.

Definition restart (st : search_state) : search_state :=
  let latest := next_bound (starLowerBound st) (latestStarCount st) in
  {| opt_Page := 1;
     latestStarCount := latest;
     useStarBound := true;
     starLowerBound := latest;
     allRepos := allRepos st;
     storeIndex := storeIndex st |}.

Definition turn_page (st : search_state) (page : Z) : search_state :=
  {| opt_Page := page;
     latestStarCount := latestStarCount st;
     useStarBound := useStarBound st;
     starLowerBound := starLowerBound st;
     allRepos := allRepos st;
     storeIndex := storeIndex st |}.

Definition search_query (queryFragments : list QueryFragment) (st : search_state)
  : list QueryFragment :=
  if useStarBound st then queryFragments ++ [QStarsLe (starLowerBound st)]
  else queryFragments.

Definition search_options (st : search_state) : SearchOptions :=
  {| Sort := "stars";
     SO_ListOptions := {| Page := opt_Page st; PerPage := 100 |} |}.

Definition retries_9999 : nat := Z.to_nat 9999.

(** The getter loop of [ListAllReposByLanguage]; it yields the way it was
    left together with its variables. *)
Fixpoint ListAllReposByLanguage_loop (fuel : nat) (opts : ListAllReposByLanguageOpts)
    (queryFragments : list QueryFragment) (st : search_state)
  : M W (result (loop_exit * search_state)) :=
  match fuel with
  | O => out_of_fuel
  | Datatypes.S fuel' =>
      let* (errs, (repos, resp)) :=
        RetryExponentialBackoff retries_9999 time_Second
          (attempt (Search_Repositories P (search_query queryFragments st)
                      (search_options st)))
          (None, None) in
      if negb (length errs =? 0)%nat then ret (Err (ErrorArray errs))
      else
        let* r := deref resp in
        if StatusCode r =? StatusNotFound then ret (Err ErrNotFound)
        else
          let* rs := deref repos in
          match range_repos opts (Repositories rs) st with
          | (st', Some why) => ret (Ok (why, st'))
          | (st', None) =>
              if NextPage r =? 0 then
                if starLowerBound st' =? 0 then ret (Ok (BoundIsZero, st'))
                else ListAllReposByLanguage_loop fuel' opts queryFragments (restart st')
              else
                ListAllReposByLanguage_loop fuel' opts queryFragments
                  (turn_page st' (NextPage r))
          end
  end.

(** [ToTitle] belongs to the utilz dependency, whose source is not part of
    the repository; it upper-cases its argument, as [strings.ToTitle] does.
    Here it does so for the ASCII letters and keeps every other byte. *)
Definition upper (c : Ascii.ascii) : Ascii.ascii :=
  let n := Ascii.nat_of_ascii c in
  if ((97 <=? n) && (n <=? 122))%nat then Ascii.ascii_of_nat (n - 32) else c.

Fixpoint ToTitle (s : string) : string :=
  match s with
  | EmptyString => EmptyString
  | String c rest => String (upper c) (ToTitle rest)
  end.

Definition query_fragments (opts : ListAllReposByLanguageOpts) : list QueryFragment :=
  [QLanguage (ToTitle (Language opts))] ++ (if ExcludeForks opts then [QForkFalse] else []).

Definition initial_search_state (bound : Z) : search_state :=
  {| opt_Page := 0;
     latestStarCount := 0;
     useStarBound := false;
     starLowerBound := bound;
     allRepos := [];
     storeIndex := ∅ |}.

Definition ListAllReposByLanguage (fuel : nat) (opts : option ListAllReposByLanguageOpts)
  : M W (result (list Repository)) :=
  match Validate_opts opts, opts with
  | Some e, _ => ret (Err e)
  | None, None => panic NilDereference
  | None, Some o =>
      let* res :=
        ListAllReposByLanguage_loop fuel o (query_fragments o)
          (initial_search_state (-1)) in
      match res with
      | Ok (_, st) => ret (Ok (allRepos st))
      | Err e => ret (Err e)
      end
  end.

(** *** The legacy variant: [ListReposOnlyBylanguage] *)





End Client.

Arguments ListReposByUser {W} P fuel user.
Arguments ListCommits {W} P fuel owner repo options maxAge.
Arguments WalkFiles {W} P fuel r walker.

(** ** A fake platform

    The world of the fake keeps the clock and the logs a test would look
    at; what the remote answers is given by a [Server]. *)

Inductive Request :=
| ReqList (opt : ListOptions)
| ReqGet
| ReqSearch (query : list QueryFragment) (opt : SearchOptions)
| ReqContents (path : string).

Record FakeWorld := {
  fw_now : Z;                             (* the wall clock, in nanoseconds *)
  fw_requests : list Request;             (* the calls made, oldest first *)
  fw_slept : list Z;                      (* the durations given to [time.Sleep] *)
  fw_observed : list (option Response);   (* what [ResponseCallback] was given *)
  fw_visited : list RepositoryContent     (* what the visitor of a walk was given *)
}.

Definition world0 : FakeWorld :=
  {| fw_now := 0; fw_requests := []; fw_slept := []; fw_observed := [];
     fw_visited := [] |}.

(** The answers of the remote: a function of the number of calls made so
    far and of the request. *)
Record Server := {
  srv_tick : Z;   (* how far every reading of the clock moves it *)
  srv_List : nat -> ListOptions -> list Repository * option Response * option error;
  srv_Get : nat -> option PullRequest * option Response * option error;
  srv_ListCommits :
    nat -> CommitsListOptions -> list RepositoryCommit * option Response * option error;
  srv_Search :
    nat -> list QueryFragment -> SearchOptions ->
    option RepositoriesSearchResult * option Response * option error;
  srv_GetContents :
    nat -> string ->
    option RepositoryContent * list RepositoryContent * option Response * option error
}.

Definition log_request (q : Request) (w : FakeWorld) : FakeWorld :=
  {| fw_now := fw_now w; fw_requests := fw_requests w ++ [q];
     fw_slept := fw_slept w; fw_observed := fw_observed w;
     fw_visited := fw_visited w |}.

Definition fake_Now (tick : Z) (w : FakeWorld) : Z * FakeWorld :=
  (fw_now w,
   {| fw_now := fw_now w + tick; fw_requests := fw_requests w;
      fw_slept := fw_slept w; fw_observed := fw_observed w;
      fw_visited := fw_visited w |}).

(** [time.Sleep] returns at once on a duration that is not positive. *)
Definition fake_Sleep (d : Z) (w : FakeWorld) : FakeWorld :=
  {| fw_now := fw_now w + Z.max d 0; fw_requests := fw_requests w;
     fw_slept := fw_slept w ++ [d]; fw_observed := fw_observed w;
     fw_visited := fw_visited w |}.

Definition fake_observe (resp : option Response) (w : FakeWorld) : FakeWorld :=
  {| fw_now := fw_now w; fw_requests := fw_requests w;
     fw_slept := fw_slept w; fw_observed := fw_observed w ++ [resp];
     fw_visited := fw_visited w |}.

Definition calls (w : FakeWorld) : nat := length (fw_requests w).

Definition fake (s : Server) : Platform FakeWorld :=
  {| time_Now := fake_Now (srv_tick s);
     time_Sleep := fake_Sleep;
     ResponseCallback := Some fake_observe;
     Repositories_List := fun _ opt w =>
       (srv_List s (calls w) opt, log_request (ReqList opt) w);
     PullRequests_Get := fun _ _ _ w =>
       (srv_Get s (calls w), log_request ReqGet w);
     Repositories_ListCommits := fun _ _ options w =>
       (srv_ListCommits s (calls w) options,
        log_request (ReqList (CLO_ListOptions options)) w);
     Search_Repositories := fun query opt w =>
       (srv_Search s (calls w) query opt, log_request (ReqSearch query opt) w);
     Repositories_GetContents := fun _ _ path w =>
       (srv_GetContents s (calls w) path, log_request (ReqContents path) w) |}.

Definition unserved : error := TransportError "not served".

Definition response (code next : Z) : Response :=
  {| StatusCode := code; Status := ""; NextPage := next; RateOf := {| Reset := 0 |} |}.

Definition null_server : Server :=
  {| srv_tick := 0;
     srv_List := fun _ _ => ([], None, Some unserved);
     srv_Get := fun _ => (None, None, Some unserved);
     srv_ListCommits := fun _ _ => ([], None, Some unserved);
     srv_Search := fun _ _ _ => (None, None, Some unserved);
     srv_GetContents := fun _ _ => (None, [], None, Some unserved) |}.

(** *** A paginated endpoint that serves the given pages *)

(** The platform numbers pages from 1 and takes an absent page as 1. *)
Definition eff_page (p : Z) : Z := if p <=? 0 then 1 else p.

Definition serve_page {A : Type} (pages : list (list A)) (opt : ListOptions)
  : list A * option Response * option error :=
  let e := eff_page (Page opt) in
  (nth (Z.to_nat (e - 1)) pages [],
   Some (response StatusOK (if e <? Z.of_nat (length pages) then e + 1 else 0)),
   None).

Definition repos_server (pages : list (list Repository)) : Server :=
  {| srv_tick := srv_tick null_server;
     srv_List := fun _ opt => serve_page pages opt;
     srv_Get := srv_Get null_server;
     srv_ListCommits := srv_ListCommits null_server;
     srv_Search := srv_Search null_server;
     srv_GetContents := srv_GetContents null_server |}.

Definition commits_server (tick : Z) (pages : list (list RepositoryCommit)) : Server :=
  {| srv_tick := tick;
     srv_List := srv_List null_server;
     srv_Get := srv_Get null_server;
     srv_ListCommits := fun _ options => serve_page pages (CLO_ListOptions options);
     srv_Search := srv_Search null_server;
     srv_GetContents := srv_GetContents null_server |}.

(** *** An endpoint that answers every call the same way *)

Definition constant_server (resp : option Response) (err : option error) : Server :=
  {| srv_tick := 0;
     srv_List := fun _ _ => ([], resp, err);
     srv_Get := fun _ => (None, resp, err);
     srv_ListCommits := fun _ _ => ([], resp, err);
     srv_Search := fun _ _ _ => (None, resp, err);
     srv_GetContents := fun _ _ => (None, [], resp, err) |}.

Definition cursor_request (p : Z) : Request := ReqList {| Page := p; PerPage := 100 |}.

(** Every attempt is answered with a rate-limit error, the response that
    comes with it giving the reset time. *)
Definition rate_limited_server (reset : Z) : Server :=
  constant_server
    (Some {| StatusCode := 403; Status := "403 Forbidden"; NextPage := 0;
             RateOf := {| Reset := reset |} |})
    (Some RateLimitError).

(** Every attempt is answered with a 404 the way go-github reports it: the
    response together with an error for the status. *)
Definition not_found_server : Server :=
  constant_server (Some (response StatusNotFound 0))
    (Some (ErrorResponse StatusNotFound)).

(** The same 404 handed over without an error. *)
Definition quiet_not_found_server : Server :=
  constant_server (Some (response StatusNotFound 0)) None.

(** What the response observer makes of the world. *)
Definition observed {W : Type} (P : Platform W) (resp : option Response) (w : W) : W :=
  match ResponseCallback P with
  | Some callback => callback resp w
  | None => w
  end.


Definition request_failed (e : error) : error :=
  Errorf_w "error while executing request" e.

(** *** Commits by age *)

(** Whether a commit read at time [t] is older than [maxAge]. *)
Definition too_old (t maxAge : Z) (commit : RepositoryCommit) : bool :=
  match RCommit commit with
  | Some c => time_Sub t (GetDate (CAuthor c)) >? maxAge
  | None => false
  end.

(** The commits in front of the first one that is too old when the listing
    looks at it; the listing reads the clock once per commit, and every
    reading moves the clock of the fake by [tick]. *)
Fixpoint fresh_prefix (t tick maxAge : Z) (l : list RepositoryCommit)
  : list RepositoryCommit :=
  match l with
  | [] => []
  | c :: l' =>
      if too_old t maxAge c then [] else c :: fresh_prefix (t + tick) tick maxAge l'
  end.

(** The index of the page that holds position [k] of the concatenated
    pages, counted from 0; the number of pages when there is no such
    position. *)
Fixpoint page_of {A : Type} (k : nat) (pages : list (list A)) : nat :=
  match pages with
  | [] => 0
  | pg :: rest =>
      if (k <? length pg)%nat then 0%nat
      else Datatypes.S (page_of (k - length pg) rest)
  end.

Definition has_commit (commit : RepositoryCommit) : bool :=
  match RCommit commit with Some _ => true | None => false end.

Definition dated (author committer : string) (date : Z) : RepositoryCommit :=
  {| RCommit := Some {| CAuthor := Some {| Date := Some date |} |};
     Author := Some {| Login := Some author |};
     Committer := Some {| Login := Some committer |} |}.

Definition by_author (author : string) : CommitsListOptions :=
  {| CLO_Path := ""; CLO_Author := author;
     CLO_ListOptions := {| Page := 0; PerPage := 0 |} |}.


(** *** A content tree and the endpoint that lists it *)

(** A node carries its full path, as [RepositoryContent.Path] does. *)
#[warnings="-register-all"] Inductive Tree :=
| File (path : string)
| Dir (path : string) (children : list Tree).

Definition node_content (t : Tree) : RepositoryContent :=
  match t with
  | File p => {| Type_ := Some "file"; Path := Some p |}
  | Dir p _ => {| Type_ := Some "dir"; Path := Some p |}
  end.

(** The children of the first directory of the tree that has the given path. *)
Fixpoint find_dir (path : string) (t : Tree) : option (list Tree) :=
  match t with
  | File _ => None
  | Dir p children =>
      if String.eqb p path then Some children
      else
        (fix find_in (l : list Tree) : option (list Tree) :=
           match l with
           | [] => None
           | c :: l' =>
               match find_dir path c with
               | Some found => Some found
               | None => find_in l'
               end
           end) children
  end.

(** The listing endpoint over a tree; the paths in [broken] fail to list. *)
Definition serve_contents (root : Tree) (broken : list string) (path : string)
  : option RepositoryContent * list RepositoryContent * option Response * option error :=
  if existsb (String.eqb path) broken
  then (None, [], None, Some (TransportError "connection reset"))
  else
    match find_dir path root with
    | Some children => (None, map node_content children, Some (response StatusOK 0), None)
    | None =>
        (None, [], Some (response StatusNotFound 0), Some (ErrorResponse StatusNotFound))
    end.

Definition tree_server (root : Tree) (broken : list string) : Server :=
  {| srv_tick := srv_tick null_server;
     srv_List := srv_List null_server;
     srv_Get := srv_Get null_server;
     srv_ListCommits := srv_ListCommits null_server;
     srv_Search := srv_Search null_server;
     srv_GetContents := fun _ path => serve_contents root broken path |}.

(** The order the specification gives: the subtree of a directory, then the
    directory; a file at its place in the listing. *)
Fixpoint visit_order (t : Tree) : list RepositoryContent :=
  match t with
  | File _ => [node_content t]
  | Dir _ children => flat_map visit_order children ++ [node_content t]
  end.

Fixpoint depth (t : Tree) : nat :=
  match t with
  | File _ => 1%nat
  | Dir _ children => Datatypes.S (list_max (map depth children))
  end.

(** The paths of the directories of a tree, each as often as it occurs. *)
Fixpoint dir_paths (t : Tree) : list string :=
  match t with
  | File _ => []
  | Dir p children => p :: flat_map dir_paths children
  end.

Fixpoint subtrees (t : Tree) : list Tree :=
  t :: match t with
       | File _ => []
       | Dir _ children => flat_map subtrees children
       end.

(** A visitor that records the node and goes on. *)
Definition record_visit (v : RepositoryContent) : M FakeWorld (option error) :=
  fun w =>
    (Done None,
     {| fw_now := fw_now w; fw_requests := fw_requests w; fw_slept := fw_slept w;
        fw_observed := fw_observed w; fw_visited := fw_visited w ++ [v] |}).

Definition walk_of (owner repo path : string) : Params :=
  {| params_owner := owner; params_repo := repo; params_path := path |}.

(** The tree [root/{a.txt, sub/{b.txt}}], listed in that order, and the
    same tree listed with the directory first. *)
Definition example_tree : Tree :=
  Dir "root" [File "root/a.txt"; Dir "root/sub" [File "root/sub/b.txt"]].

Definition example_tree_dir_first : Tree :=
  Dir "root" [Dir "root/sub" [File "root/sub/b.txt"]; File "root/a.txt"].

Definition a_txt : RepositoryContent := node_content (File "root/a.txt").
Definition b_txt : RepositoryContent := node_content (File "root/sub/b.txt").
Definition sub : RepositoryContent := node_content (Dir "root/sub" []).


(** *** A search endpoint over a dataset *)

(** The bound of the last [stars:<=] fragment of a query. *)
Fixpoint query_bound (query : list QueryFragment) : option Z :=
  match query with
  | [] => None
  | QStarsLe b :: rest =>
      match query_bound rest with
      | Some b' => Some b'
      | None => Some b
      end
  | _ :: rest => query_bound rest
  end.

Definition within_bound (bound : option Z) (r : Repository) : bool :=
  match bound with
  | Some b => GetStargazersCount r <=? b
  | None => true
  end.

(** Sorting by stars, most stars first; repositories with the same star
    count keep the order of the dataset. *)
Fixpoint insert_by_stars (r : Repository) (l : list Repository) : list Repository :=
  match l with
  | [] => [r]
  | x :: l' =>
      if GetStargazersCount x <=? GetStargazersCount r then r :: x :: l'
      else x :: insert_by_stars r l'
  end.

Definition sort_by_stars (l : list Repository) : list Repository :=
  fold_right insert_by_stars [] l.

(** What one query can retrieve: the matches in the requested order, cut
    at the result window of the endpoint. *)
Definition retrievable (window : nat) (ds : list Repository)
    (query : list QueryFragment) (opt : SearchOptions) : list Repository :=
  let found := List.filter (within_bound (query_bound query)) ds in
  firstn window (if String.eqb (Sort opt) "stars" then sort_by_stars found else found).

Definition page_offset (opt : ListOptions) : nat :=
  (Z.to_nat (eff_page (Page opt) - 1) * Z.to_nat (PerPage opt))%nat.

Definition serve_search (window : nat) (ds : list Repository)
    (query : list QueryFragment) (opt : SearchOptions)
  : option RepositoriesSearchResult * option Response * option error :=
  let found := retrievable window ds query opt in
  let per := Z.to_nat (PerPage (SO_ListOptions opt)) in
  let off := page_offset (SO_ListOptions opt) in
  (Some {| Repositories := firstn per (skipn off found) |},
   Some (response StatusOK
           (if (off + per <? length found)%nat
            then eff_page (Page (SO_ListOptions opt)) + 1 else 0)),
   None).

Definition search_server (window : nat) (ds : list Repository) : Server :=
  {| srv_tick := srv_tick null_server;
     srv_List := srv_List null_server;
     srv_Get := srv_Get null_server;
     srv_ListCommits := srv_ListCommits null_server;
     srv_Search := fun _ query opt => serve_search window ds query opt;
     srv_GetContents := srv_GetContents null_server |}.


(** An endpoint that hands out the given pages one call after the other,
    whatever is asked, each as the last page of its query, and empty pages
    once they are used up. *)
Definition scripted_search_server (pages : list (list Repository)) : Server :=
  {| srv_tick := srv_tick null_server;
     srv_List := srv_List null_server;
     srv_Get := srv_Get null_server;
     srv_ListCommits := srv_ListCommits null_server;
     srv_Search := fun k _ _ =>
       (Some {| Repositories := nth k pages [] |}, Some (response StatusOK 0), None);
     srv_GetContents := srv_GetContents null_server |}.

Definition repo_of (name : string) (stars : Z) : Repository :=
  {| FullName := Some name; StargazersCount := Some stars |}.

Definition opts_of (language : string) (minStars limit : Z) : ListAllReposByLanguageOpts :=
  {| Language := language; ExcludeForks := false; MinStars := minStars; Limit := limit |}.

Definition stars_of (l : list Repository) : list Z := map GetStargazersCount l.
Definition names_of (l : list Repository) : list string := map GetFullName l.


(** Star counts that never go up along the list. *)
Definition descending (l : list Z) : Prop := StronglySorted Z.ge l.

(** The repositories accepted so far have distinct full names, and the
    index holds exactly these names. *)
Definition indexed (st : search_state) : Prop :=
  NoDup (names_of (allRepos st)) /\
  forall id : string, id ∈ storeIndex st <-> In id (names_of (allRepos st)).


(** The page the search endpoint serves in a state of the getter loop:
    its items and its next cursor. *)
Definition search_page (window : nat) (ds : list Repository)
    (q : list QueryFragment) (st : search_state) : list Repository * Z :=
  let opt := search_options st in
  let found := retrievable window ds (search_query q st) opt in
  let off := page_offset (SO_ListOptions opt) in
  (firstn 100 (skipn off found),
   if (off + 100 <? length found)%nat then eff_page (opt_Page st) + 1 else 0).

Definition max_stars (ds : list Repository) : Z :=
  fold_right Z.max 0 (stars_of ds).



(** The world after the request of one turn of the getter loop. *)
Definition after_request (window : nat) (ds : list Repository)
    (q : list QueryFragment) (st : search_state) (w : FakeWorld) : FakeWorld :=
  fake_observe (Some (response StatusOK (snd (search_page window ds q st))))
    (log_request (ReqSearch (search_query q st) (search_options st)) w).

(** What the getter loop keeps true over a dataset whose star counts lie
    between 0 and [top]. *)
Definition bounded_search (top : Z) (st : search_state) : Prop :=
  0 <= latestStarCount st <= top /\
  if useStarBound st then latestStarCount st <= starLowerBound st <= top
  else starLowerBound st = -1.

(** What goes down with every request of the getter loop. *)
Definition search_measure (window : nat) (top : Z) (st : search_state) : nat :=
  ((if useStarBound st then Z.to_nat (starLowerBound st) else Z.to_nat top + 1)
   * (window + 1)
   + (window - page_offset {| Page := opt_Page st; PerPage := 100 |}))%nat.




(** What is left of the current run of pages in a state of the getter
    loop: the retrievable results from the offset of the page on. *)
Definition remaining (window : nat) (ds : list Repository)
    (q : list QueryFragment) (st : search_state) : list Repository :=
  skipn (page_offset {| Page := opt_Page st; PerPage := 100 |})
    (retrievable window ds (search_query q st) (search_options st)).

(** The accepted repositories come with star counts that never go up,
    none below [latestStarCount], and nothing that is still to come has
    more stars than the last one accepted. *)
Definition ordered_search (st : search_state) (rest : list Repository) : Prop :=
  descending (stars_of (allRepos st)) /\
  Forall (fun r => latestStarCount st <= GetStargazersCount r) (allRepos st) /\
  descending (stars_of rest) /\
  (allRepos st = [] \/
   Forall (fun r => GetStargazersCount r <= latestStarCount st) rest).







(** ** The rest of the client

    The getters, the callback search, the code search, the shadow-member
    scan and the download of a content.  The remote calls these make beyond
    those of [Platform], and the process-wide [IsExitingFunc], are the
    fields of [Services]. *)

(** [github.Organization], [github.User] as [GetUser] returns it (its
    [Type] is read), [github.Contributor] and [github.CodeResult]. *)
Record Organization := { OrgLogin : option string }.

Record UserInfo := { UserLogin : option string; UserType : option string }.

Definition GetUserType (u : option UserInfo) : string :=
  match u with
  | Some {| UserType := Some s |} => s
  | _ => ""
  end.

Record Contributor := { ContributorLogin : option string }.

Definition GetContributorLogin (c : Contributor) : string :=
  match ContributorLogin c with Some s => s | None => "" end.

Record CodeResult := { CodeName : option string; CodePath : option string }.

Record CodeSearchResult := { CodeResults : list CodeResult }.

(** A [RepositoryContent] together with its [HTMLURL] field. *)
Record ContentRef := { Content : RepositoryContent; HTMLURL : option string }.

Definition GetHTMLURL (v : ContentRef) : string :=
  match HTMLURL v with Some s => s | None => "" end.

Record Services (W : Type) := {
  Organizations_Get :
    string -> W -> (option Organization * option Response * option error) * W;
  Users_Get :
    string -> W -> (option UserInfo * option Response * option error) * W;
  Repositories_ListContributors :
    string -> string -> ListOptions -> W ->
    (list Contributor * option Response * option error) * W;
  (* [Search.Repositories] with the query as the text the caller gave *)
  Search_Repositories_text :
    string -> SearchOptions -> W ->
    (option RepositoriesSearchResult * option Response * option error) * W;
  Search_Code :
    string -> SearchOptions -> W ->
    (option CodeSearchResult * option Response * option error) * W;
  (* [Repositories.DownloadContents]: the bytes of the file, or an error *)
  Repositories_DownloadContents :
    string -> string -> string -> W -> result string * W;
  (* [var IsExitingFunc func() bool]; [None] while it was never set *)
  IsExitingFunc : option (W -> bool * W)
}.

Arguments Organizations_Get {W} _.
Arguments Users_Get {W} _.
Arguments Repositories_ListContributors {W} _.
Arguments Search_Repositories_text {W} _.
Arguments Search_Code {W} _.
Arguments Repositories_DownloadContents {W} _.
Arguments IsExitingFunc {W} _.

(** [err == ErrNotFound]: the comparison with the sentinel value. *)
Definition is_ErrNotFound (e : error) : bool :=
  match e with
  | ErrNotFound => true
  | _ => false
  end.

(** [strings.Split(s, "/")]: the pieces between the slashes, one more than
    there are slashes. *)
Fixpoint Split_slash (s : string) : list string :=
  match s with
  | EmptyString => [EmptyString]
  | String c s' =>
      if String.eqb (String c EmptyString) "/" then EmptyString :: Split_slash s'
      else
        match Split_slash s' with
        | piece :: pieces => String c piece :: pieces
        | [] => [String c EmptyString]
        end
  end.

Definition index_out_of_range : panic_value :=
  PanicError (ErrorString "runtime error: index out of range").

Section MoreClient.

Context {W : Type} (P : Platform W) (E : Services W).

(** Indexing a slice: out of range panics. *)
Definition at_index {A : Type} (l : list A) (i : nat) : M W A :=
  match nth_error l i with
  | Some a => ret a
  | None => panic index_out_of_range
  end.

(** *** Getters *)

Definition GetOrg (org : string) : M W (result (option Organization)) :=
  let* (errs, (organization, resp)) :=
    RetryExponentialBackoff P 5%nat time_Second
      (attempt P (Organizations_Get E org)) (None, None) in
  if negb (length errs =? 0)%nat then ret (Err (ErrorArray errs))
  else
    let* r := deref resp in
    if StatusCode r =? StatusNotFound then ret (Err ErrNotFound)
    else ret (Ok organization).

Definition GetUser (u : string) : M W (result (option UserInfo)) :=
  let* (errs, (user, resp)) :=
    RetryExponentialBackoff P 5%nat time_Second
      (attempt P (Users_Get E u)) (None, None) in
  if negb (length errs =? 0)%nat then ret (Err (ErrorArray errs))
  else
    let* r := deref resp in
    if StatusCode r =? StatusNotFound then ret (Err ErrNotFound)
    else ret (Ok user).

(** [IsOwnerAnOrg] and [IsOwnerAUser] return a value, a boolean and an
    error; the error excludes the other two. *)
Definition IsOwnerAnOrg (owner : string) : M W (result (option Organization * bool)) :=
  let* res := GetOrg owner in
  match res with
  | Err err =>
      if is_ErrNotFound err then ret (Ok (None, false))
      else ret (Err err)
  | Ok org => ret (Ok (org, true))
  end.

Definition IsOwnerAUser (owner : string) : M W (result (option UserInfo * bool)) :=
  let* res := GetUser owner in
  match res with
  | Err err =>
      if is_ErrNotFound err then ret (Ok (None, false))
      else ret (Err err)
  | Ok user =>
      if String.eqb (GetUserType user) "Organization" then ret (Ok (user, false))
      else ret (Ok (user, true))
  end.

End MoreClient.

Arguments GetOrg {W} P E org.
Arguments GetUser {W} P E u.
Arguments IsOwnerAnOrg {W} P E owner.
Arguments IsOwnerAUser {W} P E owner.

Record SearchReposOpts := { SR_Query : string; SR_MinStars : Z; SR_Limit : Z }.

Record SearchCodeOpts := { SC_Query : string; SC_Limit : Z }.

Section Scans.

Context {W : Type} (P : Platform W) (E : Services W).

(** *** [ListContributors] and the listings of commits by author and by path *)

Fixpoint ListContributors_loop (fuel : nat) (owner repo : string) (opt : ListOptions)
    (allContributors : list Contributor) : M W (result (list Contributor)) :=
  match fuel with
  | O => out_of_fuel
  | Datatypes.S fuel' =>
      let* (errs, (contributors, resp)) :=
        RetryExponentialBackoff P 5%nat time_Second
          (attempt P (Repositories_ListContributors E owner repo opt)) ([], None) in
      if negb (length errs =? 0)%nat then ret (Err (ErrorArray errs))
      else
        let* r := deref resp in
        if StatusCode r =? StatusNotFound then ret (Err ErrNotFound)
        else
          let allContributors := allContributors ++ contributors in
          if NextPage r =? 0 then ret (Ok allContributors)
          else
            ListContributors_loop fuel' owner repo
              {| Page := NextPage r; PerPage := PerPage opt |} allContributors
  end.

Definition ListContributors (fuel : nat) (owner repo : string)
  : M W (result (list Contributor)) :=
  ListContributors_loop fuel owner repo {| Page := 0; PerPage := 100 |} [].

Definition ListCommitsByAuthor (fuel : nat) (owner repo author : string) (maxAge : Z)
  : M W (result (list RepositoryCommit)) :=
  ListCommits P fuel owner repo
    {| CLO_Path := ""; CLO_Author := author;
       CLO_ListOptions := {| Page := 0; PerPage := 0 |} |} maxAge.

Definition ListCommitsByPath (fuel : nat) (owner repo path : string) (maxAge : Z)
  : M W (result (list RepositoryCommit)) :=
  ListCommits P fuel owner repo
    {| CLO_Path := path; CLO_Author := "";
       CLO_ListOptions := {| Page := 0; PerPage := 0 |} |} maxAge.

(** *** [FindShadowMembersByContributions] *)

(** Calling [IsExitingFunc]: a nil function value panics. *)
Definition call_IsExitingFunc : M W bool :=
  match IsExitingFunc E with
  | Some f => fun w => let (b, w') := f w in (Done b, w')
  | None => panic NilDereference
  end.

(** The loop over the contributors.  The error of a failed listing of
    commits is formatted with [%s]: the text of the cause goes into the
    message, the cause is not wrapped. *)
Fixpoint range_contributors (fuel : nat) (owner repo : string) (maxAge : Z)
    (contributors shadowMembers : list Contributor)
  : M W (result (list Contributor)) :=
  match contributors with
  | [] => ret (Ok shadowMembers)
  | contributor :: rest =>
      let* exiting := call_IsExitingFunc in
      if exiting then ret (Ok shadowMembers)
      else
        let login := GetContributorLogin contributor in
        let* res := ListCommitsByAuthor fuel owner repo login maxAge in
        match res with
        | Err err => ret (Err (ErrorString "error while ListCommitsByAuthor"))
        | Ok commits =>
            let isShadow := isShadowMember commits in
            if isShadow
            then range_contributors fuel owner repo maxAge rest
                   (shadowMembers ++ [contributor])
            else range_contributors fuel owner repo maxAge rest shadowMembers
        end
  end.

Definition FindShadowMembersByContributions (fuel : nat) (owner repo : string)
    (maxAge : Z) : M W (result (list Contributor)) :=
  let* res := ListContributors fuel owner repo in
  match res with
  | Err err => ret (Err (Errorf_w "error while ListContributors" err))
  | Ok contributors => range_contributors fuel owner repo maxAge contributors []
  end.

(** *** [SearchReposWithCallback] and [SearchRepos] *)

(** The callback is a closure; [S] holds the variables it captures. *)
Fixpoint SearchReposWithCallback_loop {S : Type} (fuel : nat) (query : string)
    (callback : list Repository -> S -> M W (bool * S))
    (opt : ListOptions) (s : S) : M W (option error * S) :=
  match fuel with
  | O => out_of_fuel
  | Datatypes.S fuel' =>
      let* (errs, (repos, resp)) :=
        RetryExponentialBackoff P retries_9999 time_Second
          (attempt P (Search_Repositories_text E query
                        {| Sort := ""; SO_ListOptions := opt |}))
          (None, None) in
      if negb (length errs =? 0)%nat then ret (Some (ErrorArray errs), s)
      else
        let* r := deref resp in
        if StatusCode r =? StatusNotFound then ret (Some ErrNotFound, s)
        else
          let* rs := deref repos in
          let page := Repositories rs in
          let* (doContinue, s') := callback page s in
          if negb doContinue then ret (None, s')
          else if NextPage r =? 0 then ret (None, s')
          else
            SearchReposWithCallback_loop fuel' query callback
              {| Page := NextPage r; PerPage := PerPage opt |} s'
  end.

Definition SearchReposWithCallback {S : Type} (fuel : nat) (query : string)
    (callback : list Repository -> S -> M W (bool * S)) (s : S)
  : M W (option error * S) :=
  if String.eqb query "" then ret (Some (ErrorString "query not provided."), s)
  else
    SearchReposWithCallback_loop fuel query callback
      {| Page := 0; PerPage := 100 |} s.

Definition Validate_SearchReposOpts (opts : option SearchReposOpts) : option error :=
  match opts with
  | None => Some (ErrorString "opts is nil.")
  | Some o =>
      if String.eqb (SR_Query o) "" then Some (ErrorString "opts.Query not provided.")
      else None
  end.

(** The callback of [SearchRepos]: it appends to the captured [allRepos]
    and answers whether the search goes on. *)
Fixpoint collect_repos (opts : SearchReposOpts) (repos allRepos : list Repository)
  : bool * list Repository :=
  match repos with
  | [] => (true, allRepos)
  | repo :: rest =>
      if GetStargazersCount repo <? SR_MinStars opts then collect_repos opts rest allRepos
      else
        let allRepos := allRepos ++ [repo] in
        if (SR_Limit opts >? 0) && (Z.of_nat (length allRepos) >=? SR_Limit opts)
        then (false, allRepos)
        else collect_repos opts rest allRepos
  end.

Definition SearchRepos (fuel : nat) (opts : option SearchReposOpts)
  : M W (result (list Repository)) :=
  match Validate_SearchReposOpts opts, opts with
  | Some e, _ => ret (Err e)
  | None, None => panic NilDereference
  | None, Some o =>
      let* (err, allRepos) :=
        SearchReposWithCallback fuel (SR_Query o)
          (fun repos allRepos => ret (collect_repos o repos allRepos)) [] in
      match err with
      | Some e => ret (Err e)
      | None => ret (Ok allRepos)
      end
  end.

(** *** [SearchCode] *)

Definition Validate_SearchCodeOpts (opts : option SearchCodeOpts) : option error :=
  match opts with
  | None => Some (ErrorString "opts is nil.")
  | Some o =>
      if String.eqb (SC_Query o) "" then Some (ErrorString "opts.Query not provided.")
      else None
  end.

(** The loop over the results of one page; the boolean tells whether
    [break GetterLoop] was taken. *)
Fixpoint range_code (limit : Z) (results allCodeResults : list CodeResult)
  : list CodeResult * bool :=
  match results with
  | [] => (allCodeResults, false)
  | result :: rest =>
      let allCodeResults := allCodeResults ++ [result] in
      if (limit >? 0) && (Z.of_nat (length allCodeResults) >=? limit)
      then (allCodeResults, true)
      else range_code limit rest allCodeResults
  end.

Fixpoint SearchCode_loop (fuel : nat) (o : SearchCodeOpts) (opt : ListOptions)
    (allCodeResults : list CodeResult) : M W (result (list CodeResult)) :=
  match fuel with
  | O => out_of_fuel
  | Datatypes.S fuel' =>
      let* (errs, (repos, resp)) :=
        RetryExponentialBackoff P retries_9999 time_Second
          (attempt P (Search_Code E (SC_Query o)
                        {| Sort := ""; SO_ListOptions := opt |}))
          (None, None) in
      if negb (length errs =? 0)%nat then ret (Err (ErrorArray errs))
      else
        let* r := deref resp in
        if StatusCode r =? StatusNotFound then ret (Err ErrNotFound)
        else
          let* rs := deref repos in
          match range_code (SC_Limit o) (CodeResults rs) allCodeResults with
          | (allCodeResults, true) => ret (Ok allCodeResults)
          | (allCodeResults, false) =>
              if NextPage r =? 0 then ret (Ok allCodeResults)
              else
                SearchCode_loop fuel' o
                  {| Page := NextPage r; PerPage := PerPage opt |} allCodeResults
          end
  end.

Definition SearchCode (fuel : nat) (opts : option SearchCodeOpts)
  : M W (result (list CodeResult)) :=
  match Validate_SearchCodeOpts opts, opts with
  | Some e, _ => ret (Err e)
  | None, None => panic NilDereference
  | None, Some o => SearchCode_loop fuel o {| Page := 0; PerPage := 100 |} []
  end.

End Scans.

Arguments ListContributors {W} P E fuel owner repo.
Arguments ListCommitsByAuthor {W} P fuel owner repo author maxAge.
Arguments FindShadowMembersByContributions {W} P E fuel owner repo maxAge.
Arguments SearchReposWithCallback {W} P E {S} fuel query callback s.
Arguments SearchRepos {W} P E fuel opts.
Arguments SearchCode {W} P E fuel opts.

(** *** [extractOwnerRepoPath], [DownloadFile] and [DownloadContent] *)

Section Download.

Context {W : Type} (E : Services W).

(** [url.Parse] of the standard library followed by the [Path] of the URL
    it returns, or the error of the parse. *)
Variable url_Parse_Path : string -> result string.

Definition extractOwnerRepoPath (v : ContentRef) : M W (string * string * string) :=
  let rawurl := GetHTMLURL v in
  match url_Parse_Path rawurl with
  | Err err => panic (PanicError err)
  | Ok urlPath =>
      let pathElements := Split_slash urlPath in
      let* owner := at_index pathElements 1 in
      let* repo := at_index pathElements 2 in
      ret (owner, repo, GetPath (Content v))
  end.

(** The methods of a [RepoExplorationRequest] assign to the request they
    are called on; the request as they leave it is returned with the
    result. *)
Definition DownloadFile (r : Params) (filepath : string)
  : M W (result string * Params) :=
  match Validate r with
  | Some e => ret (Err e, r)
  | None =>
      let r' :=
        {| params_owner := params_owner r; params_repo := params_repo r;
           params_path := filepath |} in
      fun w =>
        let (res, w') :=
          Repositories_DownloadContents E (params_owner r') (params_repo r')
            (params_path r') w in
        (Done (res, r'), w')
  end.

Definition DownloadContent (r : Params) (v : ContentRef)
  : M W (result string * Params) :=
  let* (owner, repo, path) := extractOwnerRepoPath v in
  DownloadFile (WithRepo repo (WithOwner owner r)) path.

End Download.

Arguments extractOwnerRepoPath {W} url_Parse_Path v.
Arguments DownloadFile {W} E r filepath.
Arguments DownloadContent {W} E url_Parse_Path r v.

(** *** Fakes for the services *)

Record Backend := {
  bk_Org : nat -> string -> option Organization * option Response * option error;
  bk_User : nat -> string -> option UserInfo * option Response * option error;
  bk_Contributors :
    nat -> ListOptions -> list Contributor * option Response * option error;
  bk_SearchText :
    nat -> string -> SearchOptions ->
    option RepositoriesSearchResult * option Response * option error;
  bk_SearchCode :
    nat -> string -> SearchOptions ->
    option CodeSearchResult * option Response * option error;
  bk_Download : string -> string -> string -> result string;
  (* what [IsExitingFunc] answers after the given number of calls *)
  bk_exiting : option (nat -> bool)
}.

Definition fake_services (b : Backend) : Services FakeWorld :=
  {| Organizations_Get := fun org w => (bk_Org b (calls w) org, log_request ReqGet w);
     Users_Get := fun u w => (bk_User b (calls w) u, log_request ReqGet w);
     Repositories_ListContributors := fun _ _ opt w =>
       (bk_Contributors b (calls w) opt, log_request (ReqList opt) w);
     Search_Repositories_text := fun query opt w =>
       (bk_SearchText b (calls w) query opt,
        log_request (ReqList (SO_ListOptions opt)) w);
     Search_Code := fun query opt w =>
       (bk_SearchCode b (calls w) query opt,
        log_request (ReqList (SO_ListOptions opt)) w);
     Repositories_DownloadContents := fun owner repo path w =>
       (bk_Download b owner repo path, log_request (ReqContents path) w);
     IsExitingFunc :=
       match bk_exiting b with
       | Some f => Some (fun w => (f (calls w), w))
       | None => None
       end |}.

Definition null_backend : Backend :=
  {| bk_Org := fun _ _ => (None, None, Some unserved);
     bk_User := fun _ _ => (None, None, Some unserved);
     bk_Contributors := fun _ _ => ([], None, Some unserved);
     bk_SearchText := fun _ _ _ => (None, None, Some unserved);
     bk_SearchCode := fun _ _ _ => (None, None, Some unserved);
     bk_Download := fun _ _ _ => Err unserved;
     bk_exiting := None |}.

(** A search endpoint that serves the given pages of repositories, and one
    for pages of code results. *)
Definition serve_repo_pages (pages : list (list Repository)) (opt : SearchOptions)
  : option RepositoriesSearchResult * option Response * option error :=
  match serve_page pages (SO_ListOptions opt) with
  | (items, resp, err) => (Some {| Repositories := items |}, resp, err)
  end.

Definition serve_code_pages (pages : list (list CodeResult)) (opt : SearchOptions)
  : option CodeSearchResult * option Response * option error :=
  match serve_page pages (SO_ListOptions opt) with
  | (items, resp, err) => (Some {| CodeResults := items |}, resp, err)
  end.

Definition text_search_backend (pages : list (list Repository)) : Backend :=
  {| bk_Org := bk_Org null_backend;
     bk_User := bk_User null_backend;
     bk_Contributors := bk_Contributors null_backend;
     bk_SearchText := fun _ _ opt => serve_repo_pages pages opt;
     bk_SearchCode := bk_SearchCode null_backend;
     bk_Download := bk_Download null_backend;
     bk_exiting := None |}.

Definition code_search_backend (pages : list (list CodeResult)) : Backend :=
  {| bk_Org := bk_Org null_backend;
     bk_User := bk_User null_backend;
     bk_Contributors := bk_Contributors null_backend;
     bk_SearchText := bk_SearchText null_backend;
     bk_SearchCode := fun _ _ opt => serve_code_pages pages opt;
     bk_Download := bk_Download null_backend;
     bk_exiting := None |}.

(** The contributors in pages, the answers of [IsExitingFunc], and for
    every author the pages of the commits the listing by author serves. *)
Definition contributors_backend (pages : list (list Contributor))
    (exiting : option (nat -> bool)) : Backend :=
  {| bk_Org := bk_Org null_backend;
     bk_User := bk_User null_backend;
     bk_Contributors := fun _ opt => serve_page pages opt;
     bk_SearchText := bk_SearchText null_backend;
     bk_SearchCode := bk_SearchCode null_backend;
     bk_Download := bk_Download null_backend;
     bk_exiting := exiting |}.

Definition commits_by_author_server (tick : Z)
    (commits_of : string -> list (list RepositoryCommit)) : Server :=
  {| srv_tick := tick;
     srv_List := srv_List null_server;
     srv_Get := srv_Get null_server;
     srv_ListCommits := fun _ options =>
       serve_page (commits_of (CLO_Author options)) (CLO_ListOptions options);
     srv_Search := srv_Search null_server;
     srv_GetContents := srv_GetContents null_server |}.

Definition contributor_of (login : string) : Contributor :=
  {| ContributorLogin := Some login |}.


(** ** Predicates of the further properties *)

(** The accepted repositories stay below a positive [Limit], stay within
    it, and have at least [MinStars] stars. *)
Definition under_limit (opts : ListAllReposByLanguageOpts) (st : search_state) : Prop :=
  Limit opts > 0 -> Z.of_nat (length (allRepos st)) < Limit opts.

Definition within_limit (opts : ListAllReposByLanguageOpts) (st : search_state) : Prop :=
  Limit opts > 0 -> Z.of_nat (length (allRepos st)) <= Limit opts.

Definition above_floor (opts : ListAllReposByLanguageOpts) (st : search_state) : Prop :=
  Forall (fun r => MinStars opts <= GetStargazersCount r) (allRepos st).


(** A backend that answers every lookup of an organization and of a user
    the same way. *)
Definition account_backend
    (org : option Organization * option Response * option error)
    (user : option UserInfo * option Response * option error) : Backend :=
  {| bk_Org := fun _ _ => org;
     bk_User := fun _ _ => user;
     bk_Contributors := bk_Contributors null_backend;
     bk_SearchText := bk_SearchText null_backend;
     bk_SearchCode := bk_SearchCode null_backend;
     bk_Download := bk_Download null_backend;
     bk_exiting := None |}.


(** *** What the callback search and the code search compute *)

(** The state a callback is left in after it was given the pages one by
    one until it answered false, and the number of pages it was given. *)
Fixpoint feed {S : Type} (f : list Repository -> S -> bool * S)
    (pages : list (list Repository)) (s : S) : S :=
  match pages with
  | [] => s
  | pg :: rest =>
      let (go, s') := f pg s in
      if go then feed f rest s' else s'
  end.

Fixpoint pages_fed {S : Type} (f : list Repository -> S -> bool * S)
    (pages : list (list Repository)) (s : S) : nat :=
  match pages with
  | [] => 0%nat
  | pg :: rest =>
      let (go, s') := f pg s in
      if go then Datatypes.S (pages_fed f rest s') else 1%nat
  end.

(** The first [limit] elements of a list; all of it for a limit of zero
    or less. *)
Definition limit_prefix {A : Type} (limit : Z) (l : list A) : list A :=
  if limit >? 0 then firstn (Z.to_nat limit) l else l.

Definition has_min_stars (minStars : Z) (r : Repository) : bool :=
  negb (GetStargazersCount r <? minStars).


(** *** A visitor that halts the walk *)

(** The visitor records the node and reports [e] at a node that [stop]
    picks. *)
Definition visit_until (stop : RepositoryContent -> bool) (e : error)
    (v : RepositoryContent) : M FakeWorld (option error) :=
  fun w =>
    (Done (if stop v then Some e else None),
     {| fw_now := fw_now w; fw_requests := fw_requests w; fw_slept := fw_slept w;
        fw_observed := fw_observed w; fw_visited := fw_visited w ++ [v] |}).

(** The list up to and with its first element that [stop] picks. *)
Fixpoint through_first {A : Type} (stop : A -> bool) (l : list A) : list A :=
  match l with
  | [] => []
  | v :: l' => if stop v then [v] else v :: through_first stop l'
  end.


(** *** What the shadow-member scan computes *)

(** The commits the listing by author returns at time [t] from an endpoint
    that serves [commits_of author] in pages while the clock stands still. *)
Definition listed (commits_of : string -> list (list RepositoryCommit))
    (maxAge t : Z) (author : string) : list RepositoryCommit :=
  if maxAge >? 0 then fresh_prefix t 0 maxAge (concat (commits_of author))
  else concat (commits_of author).

(** [IsExitingFunc] set to a function that never asks to stop. *)
Definition never_exiting : option (nat -> bool) := Some (fun _ => false).


(** The commits of a small repository by author: alice pushed one commit
    herself, the commits of bob were merged by others. *)
Definition example_commits_of (author : string) : list (list RepositoryCommit) :=
  if String.eqb author "alice"
  then [[dated "alice" "bob" 90]; [dated "alice" "alice" 80]]
  else if String.eqb author "bob" then [[dated "bob" "web-flow" 95]]
  else [].


(** *** Paths and their pieces *)

Fixpoint no_slash (s : string) : bool :=
  match s with
  | EmptyString => true
  | String c s' => negb (String.eqb (String c EmptyString) "/") && no_slash s'
  end.

Fixpoint slashes (s : string) : nat :=
  match s with
  | EmptyString => 0%nat
  | String c s' =>
      if String.eqb (String c EmptyString) "/" then Datatypes.S (slashes s')
      else slashes s'
  end.

(** The path of the HTML URL of a content of [owner]/[repo]. *)
Definition html_path (owner repo tail : string) : string :=
  String.append "/" (String.append owner (String.append "/" (String.append repo tail))).

(** Nothing, or a slash and what follows it. *)
Definition is_tail (tail : string) : bool :=
  match tail with
  | EmptyString => true
  | String c _ => String.eqb (String c EmptyString) "/"
  end.


(** * Properties *)

(** ** ContributionClassifier *)

Lemma isDirectCommit_iff (c : RepositoryCommit) :
  isDirectCommit c = true <-> GetLogin (Author c) = GetLogin (Committer c).
Proof. unfold isDirectCommit. apply String.eqb_eq. Qed.

Lemma isModeratedPRCommit_negb (c : RepositoryCommit) :
  isModeratedPRCommit c = negb (isDirectCommit c).
Proof. reflexivity. Qed.

Lemma isShadowMember_existsb (commits : list RepositoryCommit) :
  isShadowMember commits = existsb isDirectCommit commits.
Proof.
  induction commits as [|c rest IH]; simpl; [reflexivity|].
  destruct (isDirectCommit c); simpl; [reflexivity|exact IH].
Qed.

Lemma isShadowMember_false_iff (commits : list RepositoryCommit) :
  isShadowMember commits = false <->
  Forall (fun c => isDirectCommit c = false) commits.
Proof.
  induction commits as [|c rest IH]; simpl.
  - split; [constructor|reflexivity].
  - destruct (isDirectCommit c) eqn:E.
    + split; [discriminate|]. intros H. inversion H; subst. congruence.
    + rewrite IH. split; [intros H; constructor; assumption|].
      intros H. inversion H; subst. assumption.
Qed.

(** C4: a contributor is a shadow member exactly when one commit of the
    list is direct, a commit being direct exactly when the login of its
    author equals the login of its committer.  A list of commits whose
    author differs from the committer is never shadow, whoever the
    committer is, the merge bot included; the verdict on a web-merged commit
    alone is its directness. *)
Theorem shadow_member_iff_direct_commit :
  (forall commits : list RepositoryCommit,
      isShadowMember commits = true <->
      exists c, In c commits /\ isDirectCommit c = true) /\
  (forall c : RepositoryCommit,
      isDirectCommit c = true <-> GetLogin (Author c) = GetLogin (Committer c)) /\
  (forall commits : list RepositoryCommit,
      Forall (fun c => GetLogin (Author c) <> GetLogin (Committer c)) commits ->
      isShadowMember commits = false) /\
  (forall commits : list RepositoryCommit,
      Forall (fun c => isMergedByCommitterCommit c = true /\
                       GetLogin (Author c) <> "web-flow") commits ->
      isShadowMember commits = false) /\
  (forall c : RepositoryCommit,
      isMergedByCommitterCommit c = true ->
      isShadowMember [c] = isDirectCommit c) /\
  isShadowMember [commit_of "X" "Y"; commit_of "X" "X"] = true /\
  isShadowMember [commit_of "X" "Y"] = false.
Proof.
  split; [|split; [|split; [|split; [|split; [|split]]]]].
  - intros commits. rewrite isShadowMember_existsb, existsb_exists. reflexivity.
  - exact isDirectCommit_iff.
  - intros commits H. apply isShadowMember_false_iff.
    eapply Forall_impl; [exact H|]. simpl. intros c Hc.
    destruct (isDirectCommit c) eqn:E; [|reflexivity].
    apply isDirectCommit_iff in E. contradiction.
  - intros commits H. apply isShadowMember_false_iff.
    eapply Forall_impl; [exact H|]. simpl. intros c [Hm Ha].
    destruct (isDirectCommit c) eqn:E; [|reflexivity].
    apply isDirectCommit_iff in E.
    apply String.eqb_eq in Hm. congruence.
  - intros c _. simpl. destruct (isDirectCommit c); reflexivity.
  - reflexivity.
  - reflexivity.
Qed.

Lemma GetLogin_absent (u : option User) : login_absent u -> GetLogin u = "".
Proof. intros [->| ->]; reflexivity. Qed.

(** C10: a commit whose author login and committer login are both absent
    reads as direct, and a contributor with one such commit is classified
    as shadow member. *)
Theorem absent_logins_are_direct (c : RepositoryCommit) :
  login_absent (Author c) -> login_absent (Committer c) ->
  isDirectCommit c = true /\
  (forall before after : list RepositoryCommit,
      isShadowMember (before ++ c :: after) = true).
Proof.
  intros Ha Hc.
  assert (Hd : isDirectCommit c = true).
  { apply isDirectCommit_iff. rewrite !GetLogin_absent by assumption. reflexivity. }
  split; [exact Hd|].
  intros before after. rewrite isShadowMember_existsb, existsb_app. simpl.
  rewrite Hd. apply orb_true_iff. right. reflexivity.
Qed.

Lemma absent_logins_are_direct_witness :
  let c := {| RCommit := None; Author := None;
              Committer := Some {| Login := None |} |} in
  isDirectCommit c = true /\
  isShadowMember ([commit_of "X" "Y"] ++ c :: [commit_of "Z" "Y"]) = true.
Proof.
  pose proof (absent_logins_are_direct
                {| RCommit := None; Author := None;
                   Committer := Some {| Login := None |} |}) as H.
  destruct H as [Hd Hs].
  - left. reflexivity.
  - right. reflexivity.
  - split; [exact Hd|apply Hs].
Defined.

(** ** RequestExecutor *)

Section Executor.

Context {W : Type} (P : Platform W).

Lemma onResponse_run (resp : option Response) (w : W) :
  onResponse P resp w = (Done tt, observed P resp w).
Proof. unfold onResponse, observed. destruct (ResponseCallback P); reflexivity. Qed.

Lemma handleRateLimitError_nil (resp : option Response) (w : W) :
  handleRateLimitError P None resp w = (Done false, w).
Proof. reflexivity. Qed.

Lemma attempt_call_error {A : Type}
    (call : W -> (A * option Response * option error) * W)
    (captured : A * option Response) (w w1 : W) v resp e :
  call w = ((v, resp, Some e), w1) ->
  attempt P call captured w =
  (Done (Some (Errorf_w "error while executing request" e), (v, resp)), w1).
Proof. intros H. unfold attempt, bind. rewrite H. reflexivity. Qed.

Lemma attempt_success {A : Type}
    (call : W -> (A * option Response * option error) * W)
    (captured : A * option Response) (w w1 : W) v r :
  call w = ((v, Some r, None), w1) ->
  status_is_final (StatusCode r) = true ->
  attempt P call captured w = (Done (None, (v, Some r)), observed P (Some r) w1).
Proof.
  intros H Hs. unfold attempt, bind. rewrite H, onResponse_run.
  simpl. unfold ret. rewrite Hs. reflexivity.
Qed.

Lemma retry_first_success {S : Type} (n : nat) (wait : Z)
    (task : S -> M W (option error * S)) (s s' : S) (w w' : W) :
  task s w = (Done (None, s'), w') ->
  RetryExponentialBackoff P (Datatypes.S n) wait task s w = (Done ([], s'), w').
Proof.
  intros H. unfold RetryExponentialBackoff. simpl. unfold bind. rewrite H.
  reflexivity.
Qed.

End Executor.

(** ** PageAggregator *)

Lemma serve_page_at {A} (pages : list (list A)) (opt : ListOptions) (i : nat) :
  eff_page (Page opt) = Z.of_nat i + 1 ->
  serve_page pages opt =
  (nth i pages [],
   Some (response StatusOK
           (if (i + 1 <? length pages)%nat then Z.of_nat i + 2 else 0)),
   None).
Proof.
  intros H. unfold serve_page. rewrite H.
  replace (Z.to_nat (Z.of_nat i + 1 - 1)) with i by lia.
  repeat f_equal.
  destruct (Nat.ltb_spec (i + 1) (length pages));
    destruct (Z.ltb_spec (Z.of_nat i + 1) (Z.of_nat (length pages))); lia.
Qed.


Lemma ListReposByUser_loop_step (pages : list (list Repository)) (user : string)
    (n i : nat) (opt : ListOptions) (acc : list Repository) (w : FakeWorld) :
  eff_page (Page opt) = Z.of_nat i + 1 ->
  let next := if (i + 1 <? length pages)%nat then Z.of_nat i + 2 else 0 in
  let w' := fake_observe (Some (response StatusOK next)) (log_request (ReqList opt) w) in
  ListReposByUser_loop (fake (repos_server pages)) (Datatypes.S n) user opt acc w =
  if next =? 0 then (Done (Ok (acc ++ nth i pages [])), w')
  else ListReposByUser_loop (fake (repos_server pages)) n user
         {| Page := next; PerPage := PerPage opt |} (acc ++ nth i pages []) w'.
Proof.
  intros Hpage next w'.
  cbn [ListReposByUser_loop]. unfold bind at 1.
  erewrite retry_first_success; cycle 1.
  { apply attempt_success.
    - cbn [Repositories_List fake repos_server srv_List].
      rewrite (serve_page_at pages opt i Hpage). reflexivity.
    - reflexivity. }
  cbn [length Nat.eqb negb]. unfold bind at 1. cbn [deref ret].
  cbn [StatusCode response]. 
  change (StatusOK =? StatusNotFound) with false. cbn iota.
  subst next w'. unfold response. cbn [NextPage].
  match goal with |- context [?x =? 0] => destruct (x =? 0) end; reflexivity.
Qed.

Lemma drop_nth {A : Type} (d : A) (l : list A) :
  forall i : nat, (i < length l)%nat -> drop i l = nth i l d :: drop (Datatypes.S i) l.
Proof.
  induction l as [|x l IH]; intros [|i] H; simpl in *; try lia; try reflexivity.
  rewrite IH by lia. reflexivity.
Qed.

Lemma ListReposByUser_loop_pages (pages : list (list Repository)) (user : string) :
  forall (n i : nat) (opt : ListOptions) (acc : list Repository) (w : FakeWorld),
    (i + Datatypes.S n = length pages)%nat ->
    eff_page (Page opt) = Z.of_nat i + 1 ->
    PerPage opt = 100 ->
    exists w',
      ListReposByUser_loop (fake (repos_server pages)) (Datatypes.S n) user opt acc w
      = (Done (Ok (acc ++ concat (drop i pages))), w') /\
      fw_requests w' =
      fw_requests w ++ ReqList opt
        :: map (fun k => cursor_request (Z.of_nat k)) (seq (i + 2) n).
Proof.
  induction n as [|n IH]; intros i opt acc w Hlen Hpage Hper.
  - rewrite (ListReposByUser_loop_step pages user 0 i opt acc w Hpage).
    destruct (Nat.ltb_spec (i + 1) (length pages)) as [Hlt|Hge]; [lia|].
    cbn [Z.eqb]. eexists. split.
    + rewrite (drop_nth [] pages i) by lia.
      rewrite drop_ge by lia. cbn [concat]. rewrite app_nil_r. reflexivity.
    + reflexivity.
  - rewrite (ListReposByUser_loop_step pages user (Datatypes.S n) i opt acc w Hpage).
    destruct (Nat.ltb_spec (i + 1) (length pages)) as [Hlt|Hge]; [|lia].
    destruct (Z.eqb_spec (Z.of_nat i + 2) 0) as [?|_]; [lia|].
    edestruct (IH (Datatypes.S i) {| Page := Z.of_nat i + 2; PerPage := PerPage opt |})
      as (w' & Hrun & Hreq); [lia| | |].
    + cbn [Page]. unfold eff_page. destruct (Z.leb_spec (Z.of_nat i + 2) 0); lia.
    + exact Hper.
    + exists w'. split.
      * rewrite Hrun. rewrite (drop_nth [] pages i) by lia.
        cbn [concat]. rewrite app_assoc. reflexivity.
      * rewrite Hreq. cbn [fw_requests fake_observe log_request].
        rewrite <- app_assoc. cbn [app seq map]. unfold cursor_request at 2.
        rewrite Hper. repeat f_equal. lia.
Qed.

(** C8: against an endpoint that serves the items in pages, one page per
    cursor, [ListReposByUser] returns the items of all pages in pagination
    order; it asks for the first page and then for every cursor the previous
    page named, and stops at the page whose next cursor is zero. *)
Theorem ListReposByUser_complete (pages : list (list Repository)) (user : string)
    (w : FakeWorld) :
  pages <> [] ->
  exists w',
    ListReposByUser (fake (repos_server pages)) (length pages) user w
    = (Done (Ok (concat pages)), w') /\
    fw_requests w' =
    fw_requests w ++
      map (fun p => cursor_request p)
          (0 :: map Z.of_nat (seq 2 (length pages - 1))).
Proof.
  intros Hne. destruct pages as [|pg pages]; [congruence|].
  unfold ListReposByUser.
  destruct (ListReposByUser_loop_pages (pg :: pages) user (length pages) 0
              {| Page := 0; PerPage := 100 |} [] w) as (w' & Hrun & Hreq);
    [reflexivity|reflexivity|reflexivity|].
  exists w'. split.
  - exact Hrun.
  - rewrite Hreq. cbn [length]. rewrite Nat.sub_succ, Nat.sub_0_r.
    cbn [map]. rewrite map_map. reflexivity.
Qed.

Lemma ListReposByUser_complete_witness :
  let a := {| FullName := Some "u/a"; StargazersCount := Some 1 |} in
  let b := {| FullName := Some "u/b"; StargazersCount := Some 2 |} in
  let c := {| FullName := Some "u/c"; StargazersCount := Some 3 |} in
  exists w',
    ListReposByUser (fake (repos_server [[a; b]; []; [c]])) 3 "u" world0
    = (Done (Ok [a; b; c]), w') /\
    fw_requests w' = [cursor_request 0; cursor_request 2; cursor_request 3].
Proof.
  intros a b c.
  destruct (ListReposByUser_complete [[a; b]; []; [c]] "u" world0)
    as (w' & Hrun & Hreq); [discriminate|].
  exists w'. split; [exact Hrun|exact Hreq].
Defined.

(** ** Rate limits and not-found answers *)

(** C1, the code at a rate-limited endpoint whose reset lies 100 seconds
    ahead: the closure returns on the error of the call before it reaches
    [handleRateLimitError], which therefore only ever sees a nil error and
    never sleeps.  The five attempts are spent like any other failure, the
    only pauses are the backoff of the retry policy, and the lister gives up
    at second 15, long before the reset. *)
Theorem rate_limit_is_spent_like_any_failure :
  (forall (W : Type) (P : Platform W) (resp : option Response) (w : W),
      handleRateLimitError P None resp w = (Done false, w)) /\
  (forall (W : Type) (P : Platform W)
          (call : W -> (list Repository * option Response * option error) * W)
          captured w w1 v resp,
      call w = ((v, resp, Some RateLimitError), w1) ->
      attempt P call captured w
      = (Done (Some (request_failed RateLimitError), (v, resp)), w1)) /\
  let reset := 100 * time_Second in
  let run := ListReposByUser (fake (rate_limited_server reset)) 1 "u" world0 in
  fst run = Done (Err (ErrorArray (replicate 5 (request_failed RateLimitError)))) /\
  calls (snd run) = 5%nat /\
  fw_slept (snd run) =
    [time_Second; 2 * time_Second; 4 * time_Second; 8 * time_Second] /\
  fw_now (snd run) = 15 * time_Second /\
  fw_now (snd run) < reset.
Proof.
  split; [|split].
  - intros. reflexivity.
  - intros W P call captured w w1 v resp H.
    apply attempt_call_error. exact H.
  - vm_compute. repeat split; reflexivity.
Qed.

(** C9, the code at an endpoint that answers 404: when the 404 comes with
    the error go-github attaches to it, every attempt fails, and the lister
    returns the aggregated failure, not [ErrNotFound]; [GetPull], the one
    getter that looks at the status of the last response in that branch,
    returns [ErrNotFound].  A lister returns [ErrNotFound] only for a 404
    that reaches it without an error. *)
Theorem lister_reports_404_as_generic_failure :
  let failed := request_failed (ErrorResponse StatusNotFound) in
  fst (ListReposByUser (fake not_found_server) 1 "u" world0)
  = Done (Err (ErrorArray (replicate 5 failed))) /\
  fst (ListCommits (fake not_found_server) 1 "o" "r"
         {| CLO_Path := ""; CLO_Author := "u";
            CLO_ListOptions := {| Page := 0; PerPage := 0 |} |} 0 world0)
  = Done (Err (ErrorArray (replicate 5 failed))) /\
  fst (GetPull (fake not_found_server) "o" "r" 1 world0) = Done (Err ErrNotFound) /\
  fst (ListReposByUser (fake quiet_not_found_server) 1 "u" world0)
  = Done (Err ErrNotFound).
Proof. vm_compute. repeat split; reflexivity. Qed.

(** ** Early stop *)

Section Commits.

Variables (tick maxAge : Z) (pages : list (list RepositoryCommit)).

Let P := fake (commits_server tick pages).

Lemma range_commits_fresh_prefix :
  forall (commits acc : list RepositoryCommit) (w : FakeWorld),
    forallb has_commit commits = true ->
    let kept := fresh_prefix (fw_now w) tick maxAge commits in
    let stop := (length kept <? length commits)%nat in
    exists w',
      range_commits P maxAge commits acc w = (Done (acc ++ kept, stop), w') /\
      fw_now w' = fw_now w + tick * (Z.of_nat (length kept) + if stop then 1 else 0) /\
      fw_requests w' = fw_requests w.
Proof.
  induction commits as [|c commits IH]; intros acc w Hc.
  - simpl. exists w. rewrite app_nil_r. repeat split. lia.
  - cbn [forallb] in Hc. apply andb_true_iff in Hc as [Hc1 Hc2].
    cbn [range_commits fresh_prefix].
    unfold has_commit in Hc1. unfold too_old.
    destruct (RCommit c) as [cm|] eqn:Ecm; [|discriminate].
    unfold bind at 1. unfold now at 1.
    cbn [time_Now P fake fake_Now srv_tick commits_server].
    unfold bind at 1. cbn [deref ret].
    destruct (time_Sub (fw_now w) (GetDate (CAuthor cm)) >? maxAge) eqn:Eold.
    + cbn [negb length Nat.ltb Nat.leb]. rewrite app_nil_r.
      eexists. split; [reflexivity|].
      cbn [fw_now fw_requests srv_tick commits_server]. split; [lia|reflexivity].
    + cbn [negb].
      match goal with |- context [range_commits _ _ _ _ ?w1] =>
        destruct (IH (acc ++ [c]) w1 Hc2) as (w' & Hrun & Hnow & Hreq) end.
      cbn [fw_now fw_requests srv_tick commits_server] in Hrun, Hnow, Hreq.
      exists w'. rewrite Hrun, <- app_assoc. cbn [length].
      change (Datatypes.S ?a <? Datatypes.S ?b)%nat with (a <? b)%nat.
      repeat split; [|exact Hreq]. rewrite Hnow. lia.
Qed.


Lemma fresh_prefix_length (t : Z) (l : list RepositoryCommit) :
  (length (fresh_prefix t tick maxAge l) <= length l)%nat.
Proof.
  revert t. induction l as [|c l IH]; intros t; simpl; [lia|].
  destruct (too_old t maxAge c); simpl; [lia|]. specialize (IH (t + tick)). lia.
Qed.

Lemma fresh_prefix_full (l : list RepositoryCommit) :
  forall t : Z,
    length (fresh_prefix t tick maxAge l) = length l ->
    fresh_prefix t tick maxAge l = l.
Proof.
  induction l as [|c l IH]; intros t H; [reflexivity|].
  cbn [fresh_prefix] in *. destruct (too_old t maxAge c); [discriminate|].
  cbn [length] in H. f_equal. apply IH. lia.
Qed.

Lemma fresh_prefix_app (l rest : list RepositoryCommit) :
  forall t : Z,
    fresh_prefix t tick maxAge (l ++ rest) =
    if (length (fresh_prefix t tick maxAge l) <? length l)%nat
    then fresh_prefix t tick maxAge l
    else l ++ fresh_prefix (t + tick * Z.of_nat (length l)) tick maxAge rest.
Proof.
  induction l as [|c l IH]; intros t.
  - simpl. f_equal. lia.
  - cbn [app fresh_prefix]. destruct (too_old t maxAge c); [reflexivity|].
    rewrite IH. cbn [length].
    change (Datatypes.S ?a <? Datatypes.S ?b)%nat with (a <? b)%nat.
    destruct (length (fresh_prefix (t + tick) tick maxAge l) <? length l)%nat;
      [reflexivity|].
    cbn [app]. do 3 f_equal. lia.
Qed.

Lemma ListCommits_loop_step (owner repo : string) (options : CommitsListOptions)
    (n i : nat) (opt : ListOptions) (acc : list RepositoryCommit) (w : FakeWorld) :
  eff_page (Page opt) = Z.of_nat i + 1 ->
  let next := if (i + 1 <? length pages)%nat then Z.of_nat i + 2 else 0 in
  let w1 := fake_observe (Some (response StatusOK next)) (log_request (ReqList opt) w) in
  ListCommits_loop P (Datatypes.S n) owner repo options maxAge opt acc w =
  match (if maxAge >? 0 then range_commits P maxAge (nth i pages []) acc
         else ret (acc ++ nth i pages [], false)) w1 with
  | (Done (all, stop), w2) =>
      if stop then (Done (Ok all), w2)
      else if next =? 0 then (Done (Ok all), w2)
      else ListCommits_loop P n owner repo
             {| CLO_Path := CLO_Path options; CLO_Author := CLO_Author options;
                CLO_ListOptions := opt |} maxAge
             {| Page := next; PerPage := PerPage opt |} all w2
  | (Panicked p, w2) => (Panicked p, w2)
  | (OutOfFuel, w2) => (OutOfFuel, w2)
  end.
Proof.
  intros Hpage next w1.
  cbn [ListCommits_loop]. unfold bind at 1.
  erewrite retry_first_success; cycle 1.
  { apply attempt_success.
    - cbn [Repositories_ListCommits P fake commits_server srv_ListCommits CLO_ListOptions].
      rewrite (serve_page_at pages opt i Hpage). reflexivity.
    - reflexivity. }
  cbn [length Nat.eqb negb]. unfold bind at 1. cbn [deref ret].
  cbn [StatusCode response].
  change (StatusOK =? StatusNotFound) with false. cbn iota.
  unfold bind at 1.
  change (observed P ?r ?w0) with (fake_observe r w0). fold next w1.
  destruct ((if maxAge >? 0 then range_commits P maxAge (nth i pages []) acc
             else ret (acc ++ nth i pages [], false)) w1) as [[[all stop]|p|] w2];
    try reflexivity.
  destruct stop; [reflexivity|].
  unfold response. cbn [NextPage].
  destruct (next =? 0); reflexivity.
Qed.


Lemma calls_observe_log (r : option Response) (q : Request) (w : FakeWorld) :
  calls (fake_observe r (log_request q w)) = Datatypes.S (calls w).
Proof.
  unfold calls. cbn [fw_requests fake_observe log_request].
  rewrite length_app. simpl. lia.
Qed.

Lemma forallb_concat_drop {A : Type} (f : A -> bool) (l : list (list A)) (i : nat) :
  (i < length l)%nat ->
  forallb f (concat (drop i l)) = true ->
  forallb f (nth i l []) = true /\
  forallb f (concat (drop (Datatypes.S i) l)) = true.
Proof.
  intros Hi H. rewrite (drop_nth [] l i Hi) in H. cbn [concat] in H.
  rewrite forallb_app in H. apply andb_true_iff in H. exact H.
Qed.

Lemma ListCommits_loop_stops (owner repo : string) :
  maxAge > 0 ->
  forall (n i : nat) (options : CommitsListOptions) (opt : ListOptions)
         (acc : list RepositoryCommit) (w : FakeWorld),
    (i + Datatypes.S n = length pages)%nat ->
    eff_page (Page opt) = Z.of_nat i + 1 ->
    forallb has_commit (concat (drop i pages)) = true ->
    let kept := fresh_prefix (fw_now w) tick maxAge (concat (drop i pages)) in
    exists w',
      ListCommits_loop P (Datatypes.S n) owner repo options maxAge opt acc w
      = (Done (Ok (acc ++ kept)), w') /\
      calls w' =
      (calls w + Nat.min (Datatypes.S (page_of (length kept) (drop i pages)))
                         (Datatypes.S n))%nat.
Proof.
  intros Hage. apply Z.gtb_gt in Hage.
  induction n as [|n IH]; intros i options opt acc w Hlen Hpage Hc kept.
  - rewrite (ListCommits_loop_step owner repo options 0 i opt acc w Hpage).
    rewrite Hage.
    destruct (forallb_concat_drop has_commit pages i ltac:(lia) Hc) as [Hc1 _].
    match goal with |- context [range_commits _ _ _ _ ?w1] =>
      destruct (range_commits_fresh_prefix (nth i pages []) acc w1 Hc1)
        as (w' & Hrun & Hnow & Hreq) end.
    cbn [fw_now fake_observe log_request] in Hrun, Hnow.
    rewrite Hrun.
    assert (Hk : kept = fresh_prefix (fw_now w) tick maxAge (nth i pages [])).
    { subst kept. rewrite (drop_nth [] pages i) by lia. rewrite drop_ge by lia.
      cbn [concat]. rewrite app_nil_r. reflexivity. }
    rewrite <- Hk.
    exists w'. split.
    + destruct (length kept <? length (nth i pages []))%nat; [reflexivity|].
      destruct (Nat.ltb_spec (i + 1) (length pages)); [lia|]. reflexivity.
    + unfold calls in *. rewrite Hreq.
      cbn [fw_requests fake_observe log_request]. rewrite length_app.
      cbn [length]. lia.
  - rewrite (ListCommits_loop_step owner repo options (Datatypes.S n) i opt acc w Hpage).
    rewrite Hage.
    destruct (forallb_concat_drop has_commit pages i ltac:(lia) Hc) as [Hc1 Hc2].
    match goal with |- context [range_commits _ _ _ _ ?w1] =>
      destruct (range_commits_fresh_prefix (nth i pages []) acc w1 Hc1)
        as (w1' & Hrun & Hnow & Hreq) end.
    cbn [fw_now fake_observe log_request] in Hrun, Hnow.
    rewrite Hrun.
    assert (Hk : kept =
                 if (length (fresh_prefix (fw_now w) tick maxAge (nth i pages []))
                     <? length (nth i pages []))%nat
                 then fresh_prefix (fw_now w) tick maxAge (nth i pages [])
                 else nth i pages [] ++
                      fresh_prefix (fw_now w + tick * Z.of_nat (length (nth i pages [])))
                        tick maxAge (concat (drop (Datatypes.S i) pages))).
    { subst kept. rewrite (drop_nth [] pages i) by lia. cbn [concat].
      apply fresh_prefix_app. }
    assert (Hcalls1 : calls w1' = Datatypes.S (calls w)).
    { unfold calls. rewrite Hreq. cbn [fw_requests fake_observe log_request].
      rewrite length_app. simpl. lia. }
    rewrite (drop_nth [] pages i) by lia. cbn [page_of].
    pose proof (fresh_prefix_length (fw_now w) (nth i pages [])) as Hle.
    destruct (Nat.ltb_spec (length (fresh_prefix (fw_now w) tick maxAge (nth i pages [])))
                (length (nth i pages []))) as [Hlt|Hge].
    + exists w1'. rewrite Hk. split; [reflexivity|].
      destruct (Nat.ltb_spec (length (fresh_prefix (fw_now w) tick maxAge (nth i pages [])))
                  (length (nth i pages []))); lia.
    + destruct (Nat.ltb_spec (i + 1) (length pages)); [|lia].
      destruct (Z.eqb_spec (Z.of_nat i + 2) 0); [lia|].
      assert (Hfull : length (fresh_prefix (fw_now w) tick maxAge (nth i pages []))
                      = length (nth i pages [])) by lia.
      edestruct (IH (Datatypes.S i)
                   {| CLO_Path := CLO_Path options; CLO_Author := CLO_Author options;
                      CLO_ListOptions := opt |}
                   {| Page := Z.of_nat i + 2; PerPage := PerPage opt |}
                   (acc ++ fresh_prefix (fw_now w) tick maxAge (nth i pages [])) w1')
        as (w' & Hrun' & Hcalls'); [lia| |exact Hc2|].
      { cbn [Page]. unfold eff_page. destruct (Z.leb_spec (Z.of_nat i + 2) 0); lia. }
      exists w'. rewrite Hrun'. rewrite Hnow, Hfull, Z.add_0_r in *.
      rewrite Hk. split.
      * rewrite <- app_assoc. rewrite (fresh_prefix_full _ _ Hfull). reflexivity.
      * rewrite Hcalls', Hcalls1. rewrite length_app.
        destruct (Nat.ltb_spec
                    (length (nth i pages []) +
                     length (fresh_prefix
                               (fw_now w + tick * Z.of_nat (length (nth i pages [])))
                               tick maxAge (concat (drop (Datatypes.S i) pages))))
                    (length (nth i pages []))); [lia|].
        match goal with |- context [page_of (?a + ?b - ?a)%nat] =>
          replace (a + b - a)%nat with b by lia end.
        lia.
Qed.


Lemma ListCommits_loop_all (owner repo : string) :
  maxAge <= 0 ->
  forall (n i : nat) (options : CommitsListOptions) (opt : ListOptions)
         (acc : list RepositoryCommit) (w : FakeWorld),
    (i + Datatypes.S n = length pages)%nat ->
    eff_page (Page opt) = Z.of_nat i + 1 ->
    exists w',
      ListCommits_loop P (Datatypes.S n) owner repo options maxAge opt acc w
      = (Done (Ok (acc ++ concat (drop i pages))), w') /\
      calls w' = (calls w + Datatypes.S n)%nat.
Proof.
  intros Hage.
  assert (Hgt : (maxAge >? 0) = false).
  { destruct (Z.gtb_spec maxAge 0); [lia|reflexivity]. }
  induction n as [|n IH]; intros i options opt acc w Hlen Hpage.
  - rewrite (ListCommits_loop_step owner repo options 0 i opt acc w Hpage).
    rewrite Hgt. cbn [ret].
    destruct (Nat.ltb_spec (i + 1) (length pages)); [lia|]. cbn [Z.eqb].
    eexists. split.
    + rewrite (drop_nth [] pages i) by lia. rewrite drop_ge by lia.
      cbn [concat]. rewrite app_nil_r. reflexivity.
    + rewrite calls_observe_log. lia.
  - rewrite (ListCommits_loop_step owner repo options (Datatypes.S n) i opt acc w Hpage).
    rewrite Hgt. cbn [ret].
    destruct (Nat.ltb_spec (i + 1) (length pages)); [|lia].
    destruct (Z.eqb_spec (Z.of_nat i + 2) 0); [lia|].
    match goal with |- context [ListCommits_loop _ _ _ _ ?o _ ?op ?a ?w1] =>
      destruct (IH (Datatypes.S i) o op a w1) as (w' & Hrun & Hcalls) end;
      [lia| |].
    { cbn [Page]. unfold eff_page. destruct (Z.leb_spec (Z.of_nat i + 2) 0); lia. }
    exists w'. rewrite Hrun. split.
    + rewrite (drop_nth [] pages i) by lia. cbn [concat].
      rewrite app_assoc. reflexivity.
    + rewrite Hcalls, calls_observe_log. lia.
Qed.

Lemma fresh_prefix_cut (l : list RepositoryCommit) :
  forall t : Z,
    let kept := fresh_prefix t tick maxAge l in
    exists rest,
      l = kept ++ rest /\
      match rest with
      | [] => True
      | c :: _ => too_old (t + tick * Z.of_nat (length kept)) maxAge c = true
      end.
Proof.
  induction l as [|c l IH]; intros t.
  - exists []. split; [reflexivity|exact I].
  - cbn [fresh_prefix]. destruct (too_old t maxAge c) eqn:E.
    + exists (c :: l). cbn [length app]. split; [reflexivity|].
      replace (t + tick * Z.of_nat 0) with t by lia. exact E.
    + destruct (IH (t + tick)) as (rest & Hl & Hrest).
      exists rest. cbn zeta. cbn [app length]. split; [congruence|].
      destruct rest as [|c' rest]; [exact I|].
      rewrite <- Hrest. f_equal. lia.
Qed.

End Commits.

(** C5: with a positive maximum age, [ListCommits] returns the commits in
    front of the first one that is too old when the listing looks at it,
    also when that commit lies in the middle of a page; the commit and all
    that follow are dropped, and no page after the one that holds it is
    asked for.  With a maximum age of zero or less it returns the commits
    of all pages. *)
Theorem ListCommits_stops_at_first_old_commit
    (tick maxAge : Z) (pages : list (list RepositoryCommit))
    (owner repo : string) (options : CommitsListOptions) (w : FakeWorld) :
  pages <> [] ->
  let P := fake (commits_server tick pages) in
  let run := ListCommits P (length pages) owner repo options maxAge w in
  (maxAge > 0 ->
   forallb has_commit (concat pages) = true ->
   let kept := fresh_prefix (fw_now w) tick maxAge (concat pages) in
   fst run = Done (Ok kept) /\
   calls (snd run) =
     (calls w + Nat.min (Datatypes.S (page_of (length kept) pages)) (length pages))%nat /\
   exists rest,
     concat pages = kept ++ rest /\
     match rest with
     | [] => True
     | c :: _ =>
         too_old (fw_now w + tick * Z.of_nat (length kept)) maxAge c = true
     end) /\
  (maxAge <= 0 ->
   fst run = Done (Ok (concat pages)) /\
   calls (snd run) = (calls w + length pages)%nat).
Proof.
  intros Hne P run. destruct pages as [|pg rest]; [congruence|].
  split.
  - intros Hage Hc kept.
    destruct (ListCommits_loop_stops tick maxAge (pg :: rest) owner repo Hage
                (length rest) 0 options {| Page := 0; PerPage := 100 |} [] w)
      as (w' & Hrun & Hcalls); [reflexivity|reflexivity|exact Hc|].
    subst run. unfold ListCommits. subst P. cbn [length]. rewrite Hrun. cbn [fst snd].
    split; [reflexivity|]. split; [exact Hcalls|].
    apply fresh_prefix_cut.
  - intros Hage.
    destruct (ListCommits_loop_all tick maxAge (pg :: rest) owner repo Hage
                (length rest) 0 options {| Page := 0; PerPage := 100 |} [] w)
      as (w' & Hrun & Hcalls); [reflexivity|reflexivity|].
    subst run. unfold ListCommits. subst P. cbn [length]. rewrite Hrun. cbn [fst snd].
    split; [reflexivity|exact Hcalls].
Qed.

Lemma ListCommits_stops_at_first_old_commit_witness :
  let pages :=
    [[dated "a" "a" 100; dated "a" "b" 90]; [dated "a" "a" 50; dated "a" "a" 10];
     [dated "a" "a" 5]] in
  let w := {| fw_now := 100; fw_requests := []; fw_slept := []; fw_observed := [];
              fw_visited := [] |} in
  let run maxAge :=
    ListCommits (fake (commits_server 1 pages)) 3 "o" "r" (by_author "a") maxAge w in
  (fst (run 51) = Done (Ok [dated "a" "a" 100; dated "a" "b" 90]) /\
   calls (snd (run 51)) = 2%nat) /\
  (fst (run 0) = Done (Ok (concat pages)) /\ calls (snd (run 0)) = 3%nat).
Proof.
  intros pages w run. split.
  - destruct (ListCommits_stops_at_first_old_commit 1 51 pages "o" "r"
                (by_author "a") w) as [H _]; [discriminate|].
    destruct H as (Hres & Hcalls & _); [lia|reflexivity|].
    split; [exact Hres|exact Hcalls].
  - destruct (ListCommits_stops_at_first_old_commit 1 0 pages "o" "r"
                (by_author "a") w) as [_ H]; [discriminate|].
    apply H. lia.
Defined.

(** ** TreeWalker *)

Lemma Tree_forall_ind (Q : Tree -> Prop) :
  (forall p, Q (File p)) ->
  (forall p children, Forall Q children -> Q (Dir p children)) ->
  forall t, Q t.
Proof.
  intros HF HD. fix IH 1. intros [p|p children].
  - apply HF.
  - apply HD. induction children as [|c children IHc]; constructor.
    + apply IH.
    + exact IHc.
Qed.

Lemma find_dir_absent (path : string) :
  forall t, ~ In path (dir_paths t) -> find_dir path t = None.
Proof.
  induction t as [p|p children IH] using Tree_forall_ind; intros Hnot.
  - reflexivity.
  - cbn [find_dir dir_paths] in *.
    destruct (String.eqb_spec p path) as [->|Hne].
    + exfalso. apply Hnot. left. reflexivity.
    + assert (Hin : ~ In path (flat_map dir_paths children)).
      { intros H. apply Hnot. right. exact H. }
      clear Hnot. induction children as [|c children IHc]; [reflexivity|].
      inversion IH as [|? ? Hc Hrest]; subst.
      cbn [flat_map] in Hin. rewrite in_app_iff in Hin.
      rewrite Hc by tauto. apply IHc; [exact Hrest|tauto].
Qed.

Lemma subtree_dir_path (p : string) (cs : list Tree) :
  forall t, In (Dir p cs) (subtrees t) -> In p (dir_paths t).
Proof.
  induction t as [q|q children IH] using Tree_forall_ind; intros Hin.
  - cbn in Hin. destruct Hin as [H|[]]. discriminate.
  - cbn [subtrees dir_paths] in *. destruct Hin as [H|Hin].
    + left. congruence.
    + right. apply in_flat_map in Hin as (c & Hc & Hsub).
      apply in_flat_map. exists c. split; [exact Hc|].
      rewrite Forall_forall in IH. apply IH; [|exact Hsub].
      apply list_elem_of_In. exact Hc.
Qed.

Lemma find_dir_subtree (p : string) (cs : list Tree) :
  forall t,
    NoDup (dir_paths t) -> In (Dir p cs) (subtrees t) -> find_dir p t = Some cs.
Proof.
  induction t as [q|q children IH] using Tree_forall_ind; intros Hnd Hin.
  - cbn in Hin. destruct Hin as [H|[]]. discriminate.
  - cbn [subtrees dir_paths find_dir] in *.
    apply NoDup_cons in Hnd as [Hq Hnd].
    destruct Hin as [H|Hin].
    + injection H as -> ->. rewrite String.eqb_refl. reflexivity.
    + destruct (String.eqb_spec q p) as [->|Hne].
      * exfalso. apply Hq. apply list_elem_of_In.
        apply in_flat_map in Hin as (c & Hc & Hsub).
        apply in_flat_map. exists c. split; [exact Hc|].
        apply (subtree_dir_path p cs). exact Hsub.
      * clear Hq Hne. induction children as [|c children IHc]; [destruct Hin|].
        inversion IH as [|? ? Hc Hrest]; subst.
        cbn [flat_map] in Hnd, Hin.
        apply NoDup_app in Hnd as (Hnd1 & Hdisj & Hnd2).
        apply in_app_iff in Hin as [Hin|Hin].
        -- rewrite (Hc Hnd1 Hin). reflexivity.
        -- rewrite find_dir_absent.
           ++ apply IHc; assumption.
           ++ intros Hp. apply list_elem_of_In in Hp. apply (Hdisj p Hp).
              apply list_elem_of_In.
              apply in_flat_map in Hin as (c' & Hc' & Hsub).
              apply in_flat_map. exists c'. split; [exact Hc'|].
              apply (subtree_dir_path p cs). exact Hsub.
Qed.

Section Walk.

Variables (root : Tree) (r : Params).

Hypothesis root_paths : NoDup (dir_paths root).
Hypothesis r_valid : Validate r = None.

Let P := fake (tree_server root []).

Lemma ListContents_subtree (p : string) (cs : list Tree) (w : FakeWorld) :
  In (Dir p cs) (subtrees root) ->
  ListContents P
    (WithRepo (params_repo r) (WithOwner (params_owner r) NewRepoExplorationRequest))
    p w
  = (Done (None, map node_content cs, Some (response StatusOK 0), None),
     log_request (ReqContents p) w).
Proof.
  intros Hin. unfold ListContents.
  replace (Validate _) with (Validate r) by reflexivity.
  rewrite r_valid.
  cbn [Repositories_GetContents P fake tree_server srv_GetContents].
  unfold serve_contents. cbn [existsb].
  rewrite (find_dir_subtree p cs root root_paths Hin). reflexivity.
Qed.

Lemma subtrees_trans (t c : Tree) (p : string) (cs : list Tree) :
  In (Dir p cs) (subtrees t) -> In c cs -> In c (subtrees t).
Proof.
  revert t. induction t as [q|q children IH] using Tree_forall_ind; intros Hin Hc.
  - cbn in Hin. destruct Hin as [H|[]]. discriminate.
  - cbn [subtrees] in *. destruct Hin as [H|Hin].
    + injection H as -> ->. right. apply in_flat_map. exists c. split; [exact Hc|].
      destruct c; left; reflexivity.
    + right. apply in_flat_map in Hin as (c' & Hc' & Hsub).
      apply in_flat_map. exists c'. split; [exact Hc'|].
      rewrite Forall_forall in IH. apply IH; [|exact Hsub|exact Hc].
      apply list_elem_of_In. exact Hc'.
Qed.

Lemma walkFiles_file (fuel : nat) (walker : RepositoryContent -> M FakeWorld (option error))
    (v : RepositoryContent) (rest : list RepositoryContent) :
  IsDir v = false ->
  walkFiles P (Datatypes.S fuel) r walker (v :: rest) =
  (let* err := walker v in
   match err with
   | Some e => ret (Some e)
   | None => walkFiles P (Datatypes.S fuel) r walker rest
   end)%exec.
Proof. intros H. cbn [walkFiles]. rewrite H. reflexivity. Qed.

Lemma walkFiles_dir (fuel : nat) (walker : RepositoryContent -> M FakeWorld (option error))
    (p : string) (cs : list Tree) (rest : list RepositoryContent) (w : FakeWorld) :
  In (Dir p cs) (subtrees root) ->
  walkFiles P (Datatypes.S fuel) r walker (node_content (Dir p cs) :: rest) w =
  (let* err := walkFiles P fuel r walker (map node_content cs) in
   match err with
   | Some e => ret (Some e)
   | None =>
       let* err := walker (node_content (Dir p cs)) in
       match err with
       | Some e => ret (Some e)
       | None => walkFiles P (Datatypes.S fuel) r walker rest
       end
   end)%exec
    (fake_observe (Some (response StatusOK 0)) (log_request (ReqContents p) w)).
Proof.
  intros Hin. cbn [walkFiles].
  change (IsDir (node_content (Dir p cs))) with true. cbv iota.
  change (GetPath (node_content (Dir p cs))) with p.
  unfold bind.
  rewrite (ListContents_subtree p cs w Hin), onResponse_run.
  change (observed P ?x ?y) with (fake_observe x y).
  cbn [handleRateLimitError isRateLimitError ret].
  match goal with |- context [match ?run with _ => _ end] =>
    match run with
    | _ _ (fake_observe _ _) => destruct run as [[[e|]|pv|] w2]
    end
  end; reflexivity.
Qed.

Lemma walkFiles_visit_order :
  forall (fuel : nat) (l : list Tree) (w : FakeWorld),
    Forall (fun t => In t (subtrees root)) l ->
    (list_max (map depth l) <= fuel)%nat ->
    exists w',
      walkFiles P (Datatypes.S fuel) r record_visit (map node_content l) w
      = (Done None, w') /\
      fw_visited w' = fw_visited w ++ flat_map visit_order l.
Proof.
  induction fuel as [fuel IHfuel] using lt_wf_ind.
  induction l as [|t l IHl]; intros w Hsub Hdepth.
  - exists w. split; [reflexivity|]. cbn. rewrite app_nil_r. reflexivity.
  - inversion Hsub as [|? ? Ht Hl]; subst.
    change (list_max (map depth (t :: l)))
      with (Nat.max (depth t) (list_max (map depth l))) in Hdepth.
    destruct t as [p|p cs].
    + destruct (IHl (snd (record_visit (node_content (File p)) w)) Hl ltac:(lia))
        as (w' & Hrun & Hvis).
      exists w'. split.
      * cbn [map walkFiles] in *. unfold bind at 1. cbn [node_content IsDir GetType Type_].
        cbn [String.eqb Ascii.eqb Bool.eqb ret]. unfold bind at 1.
        cbn [record_visit]. exact Hrun.
      * rewrite Hvis. cbn [record_visit snd fw_visited flat_map visit_order node_content].
        rewrite <- app_assoc. reflexivity.
    + cbn [depth] in Hdepth.
      destruct fuel as [|fuel']; [lia|].
      assert (Hcs : Forall (fun t => In t (subtrees root)) cs).
      { apply Forall_forall. intros c Hc. apply list_elem_of_In in Hc.
        exact (subtrees_trans root c p cs Ht Hc). }
      set (w1 := fake_observe (Some (response StatusOK 0)) (log_request (ReqContents p) w)).
      destruct (IHfuel fuel' ltac:(lia) cs w1 Hcs ltac:(lia)) as (w2 & Hrun2 & Hvis2).
      destruct (IHl (snd (record_visit (node_content (Dir p cs)) w2)) Hl ltac:(lia))
        as (w' & Hrun & Hvis).
      exists w'. split.
      * cbn [map]. rewrite (walkFiles_dir _ _ p cs _ w Ht). fold w1.
        unfold bind at 1. rewrite Hrun2.
        unfold bind at 1. cbn [record_visit]. exact Hrun.
      * rewrite Hvis. cbn [record_visit snd fw_visited flat_map visit_order node_content].
        rewrite Hvis2. subst w1. cbn [fw_visited fake_observe log_request].
        rewrite <- !app_assoc. reflexivity.
Qed.

End Walk.

(** C6 as the code has it: the walk hands the visitor the subtree of a
    directory before the directory itself and a file at its place in the
    listing, so the visits of a well-formed tree come in the order
    [visit_order] of the listed children.  For [root/{a.txt, sub/{b.txt}}]
    listed in that order this is [a.txt, b.txt, sub]; the order
    [b.txt, sub, a.txt] is that of the listing with [sub] in front. *)
Theorem WalkFiles_visits_children_before_directory :
  (forall (path : string) (children : list Tree) (r : Params) (w : FakeWorld),
      let root := Dir path children in
      NoDup (dir_paths root) ->
      Validate r = None ->
      params_path r = path ->
      exists w',
        WalkFiles (fake (tree_server root [])) (depth root) r record_visit w
        = (Done None, w') /\
        fw_visited w' = fw_visited w ++ flat_map visit_order children) /\
  (forall (p : string) (children : list Tree),
      visit_order (Dir p children)
      = flat_map visit_order children ++ [node_content (Dir p children)]) /\
  fw_visited (snd (WalkFiles (fake (tree_server example_tree [])) 3
                     (walk_of "o" "r" "root") record_visit world0))
  = [a_txt; b_txt; sub] /\
  fw_visited (snd (WalkFiles (fake (tree_server example_tree_dir_first [])) 3
                     (walk_of "o" "r" "root") record_visit world0))
  = [b_txt; sub; a_txt].
Proof.
  split; [|split; [|split]].
  - intros path children r w root Hnd Hvalid Hpath.
    assert (Hroot : In (Dir path children) (subtrees root)) by (left; reflexivity).
    assert (Hsub : Forall (fun t => In t (subtrees root)) children).
    { apply Forall_forall. intros c Hc. apply list_elem_of_In in Hc.
      exact (subtrees_trans root c path children Hroot Hc). }
    set (w1 := fake_observe (Some (response StatusOK 0))
                 (log_request (ReqContents path) w)).
    destruct (walkFiles_visit_order root r Hnd Hvalid
                (list_max (map depth children)) children w1 Hsub (le_n _))
      as (w' & Hrun & Hvis).
    exists w'. split; [|exact Hvis].
    unfold WalkFiles. rewrite Hvalid. unfold bind at 1.
    rewrite Hpath, (ListContents_subtree root r Hnd Hvalid path children w Hroot).
    unfold bind at 1. rewrite onResponse_run.
    unfold bind at 1. rewrite handleRateLimitError_nil.
    exact Hrun.
  - reflexivity.
  - vm_compute. reflexivity.
  - vm_compute. reflexivity.
Qed.

Lemma WalkFiles_visits_children_before_directory_witness :
  exists w',
    WalkFiles (fake (tree_server example_tree [])) 3 (walk_of "o" "r" "root")
      record_visit world0 = (Done None, w') /\
    fw_visited w' = [a_txt; b_txt; sub].
Proof.
  destruct WalkFiles_visits_children_before_directory as [H _].
  apply (H "root" [File "root/a.txt"; Dir "root/sub" [File "root/sub/b.txt"]]
           (walk_of "o" "r" "root") world0).
  - apply (bool_decide_unpack _). vm_compute. exact I.
  - reflexivity.
  - reflexivity.
Defined.

(** C6 as stated fails at [root/{a.txt, sub/{b.txt}}]: with the root listed
    in that order the visitor sees [a.txt] first. *)
Lemma WalkFiles_example_order_counterexample :
  let run :=
    WalkFiles (fake (tree_server example_tree [])) 3 (walk_of "o" "r" "root")
      record_visit world0 in
  fst run = Done None /\
  fw_visited (snd run) = [a_txt; b_txt; sub] /\
  fw_visited (snd run) <> [b_txt; sub; a_txt].
Proof. vm_compute. repeat split. discriminate. Qed.

(** C7, the code at a root whose listing fails: [WalkFiles] panics with the
    failure instead of returning it, whereas the same failure at a directory
    below the root is returned by [walkFiles] and ends the walk. *)
Theorem WalkFiles_panics_when_root_listing_fails :
  (forall (W : Type) (P : Platform W) (fuel : nat) (r : Params)
          (walker : RepositoryContent -> M W (option error))
          (w w1 : W) file listing resp (e : error),
      Validate r = None ->
      Repositories_GetContents P (params_owner r) (params_repo r) (params_path r) w
      = ((file, listing, resp, Some e), w1) ->
      WalkFiles P fuel r walker w = (Panicked (PanicError e), w1)) /\
  fst (WalkFiles (fake (tree_server example_tree ["root"])) 3
         (walk_of "o" "r" "root") record_visit world0)
  = Panicked (PanicError (TransportError "connection reset")) /\
  (let run :=
     WalkFiles (fake (tree_server example_tree ["root/sub"])) 3
       (walk_of "o" "r" "root") record_visit world0 in
   fst run = Done (Some (TransportError "connection reset")) /\
   fw_visited (snd run) = [a_txt]).
Proof.
  split; [|split].
  - intros W P fuel r walker w w1 file listing resp e Hvalid Hcall.
    unfold WalkFiles. rewrite Hvalid. unfold bind at 1. unfold ListContents.
    replace (Validate (WithRepo _ _)) with (Validate r) by reflexivity.
    rewrite Hvalid. cbn [params_owner params_repo WithRepo WithOwner].
    rewrite Hcall. reflexivity.
  - vm_compute. reflexivity.
  - vm_compute. split; reflexivity.
Qed.

(** ** ExhaustiveSearchEngine *)

(** *** What holds for any pages *)

Lemma range_repos_grows (opts : ListAllReposByLanguageOpts) :
  forall (repos : list Repository) (st : search_state),
    let st' := fst (range_repos opts repos st) in
    storeIndex st ⊆ storeIndex st' /\
    (exists added, allRepos st' = allRepos st ++ added) /\
    opt_Page st' = opt_Page st /\
    useStarBound st' = useStarBound st /\
    starLowerBound st' = starLowerBound st.
Proof.
  induction repos as [|repo rest IH]; intros st.
  - cbn [range_repos fst]. split; [reflexivity|]. split; [exists []; rewrite app_nil_r; reflexivity|].
    repeat split.
  - cbn [range_repos].
    destruct (GetStargazersCount repo <? MinStars opts).
    { cbn [fst]. split; [reflexivity|]. split; [exists []; rewrite app_nil_r; reflexivity|].
      repeat split. }
    destruct (Has (storeIndex st) (GetFullName repo)); cbn [negb].
    { apply IH. }
    match goal with |- context [if ?c then _ else _] => destruct c end.
    + cbn [fst storeIndex allRepos opt_Page useStarBound starLowerBound].
      split; [unfold Add; apply union_subseteq_r|]. split; [eexists; reflexivity|].
      repeat split.
    + match goal with |- context [range_repos opts rest ?s] =>
        destruct (IH s) as (Hsub & (added & Hadd) & Hp & Hu & Hb) end.
      cbn [storeIndex allRepos opt_Page useStarBound starLowerBound] in *.
      split; [etransitivity; [|exact Hsub]; unfold Add; apply union_subseteq_r|].
      split; [exists (repo :: added); rewrite Hadd, <- app_assoc; reflexivity|].
      repeat split; assumption.
Qed.

Lemma range_repos_indexed (opts : ListAllReposByLanguageOpts) :
  forall (repos : list Repository) (st : search_state),
    indexed st -> indexed (fst (range_repos opts repos st)).
Proof.
  induction repos as [|repo rest IH]; intros st Hst; [exact Hst|].
  cbn [range_repos].
  destruct (GetStargazersCount repo <? MinStars opts); [exact Hst|].
  unfold Has. destruct (bool_decide_reflect (GetFullName repo ∈ storeIndex st)) as [Hin|Hnot];
    cbn [negb]; [apply IH; exact Hst|].
  assert (Hst' : indexed
            {| opt_Page := opt_Page st;
               latestStarCount := GetStargazersCount repo;
               useStarBound := useStarBound st;
               starLowerBound := starLowerBound st;
               allRepos := allRepos st ++ [repo];
               storeIndex := Add (storeIndex st) (GetFullName repo) |}).
  { destruct Hst as [Hnd Hidx]. split; cbn [allRepos storeIndex].
    - unfold names_of in *. rewrite map_app. cbn [map].
      apply NoDup_app. split; [exact Hnd|]. split; [|apply NoDup_singleton].
      intros x Hx Hx'. apply list_elem_of_singleton in Hx'. subst x.
      apply Hnot. apply Hidx. apply list_elem_of_In. exact Hx.
    - intros id. unfold names_of in *. rewrite map_app, in_app_iff. cbn [map In].
      unfold Add. rewrite elem_of_union, elem_of_singleton, Hidx.
      intuition congruence. }
  match goal with |- context [if ?c then _ else _] => destruct c end.
  - exact Hst'.
  - apply IH. exact Hst'.
Qed.

Section AnyPlatform.

Context {W : Type} (P : Platform W).

Lemma ListAllReposByLanguage_loop_invariant (Inv : search_state -> Prop)
    (opts : ListAllReposByLanguageOpts) (q : list QueryFragment) :
  (forall repos st, Inv st -> Inv (fst (range_repos opts repos st))) ->
  (forall st, Inv st -> Inv (restart st)) ->
  (forall st p, Inv st -> Inv (turn_page st p)) ->
  forall (fuel : nat) (st : search_state) (w : W) why st' w',
    Inv st ->
    ListAllReposByLanguage_loop P fuel opts q st w = (Done (Ok (why, st')), w') ->
    Inv st'.
Proof.
  intros Hrange Hrestart Hturn.
  induction fuel as [|fuel IH]; intros st w why st' w' Hst Hrun; [discriminate|].
  cbn [ListAllReposByLanguage_loop] in Hrun. unfold bind at 1 in Hrun.
  destruct (RetryExponentialBackoff P retries_9999 time_Second _ _ w)
    as [[[errs [repos resp]]|pv|] w1]; try discriminate.
  destruct (negb (length errs =? 0)%nat); [discriminate|].
  unfold bind at 1 in Hrun. destruct resp as [r|]; [|discriminate].
  cbn [deref ret] in Hrun.
  destruct (StatusCode r =? StatusNotFound); [discriminate|].
  unfold bind at 1 in Hrun. destruct repos as [rs|]; [|discriminate].
  cbn [deref ret] in Hrun.
  pose proof (Hrange (Repositories rs) st Hst) as Hst1.
  destruct (range_repos opts (Repositories rs) st) as [st1 [why1|]]; cbn [fst] in Hst1.
  - injection Hrun as <- <- <-. exact Hst1.
  - destruct (NextPage r =? 0).
    + destruct (starLowerBound st1 =? 0).
      * injection Hrun as <- <- <-. exact Hst1.
      * eapply IH; [|exact Hrun]. apply Hrestart. exact Hst1.
    + eapply IH; [|exact Hrun]. apply Hturn. exact Hst1.
Qed.

End AnyPlatform.

(** *** The search endpoint over a dataset *)

Lemma query_bound_app_last (q : list QueryFragment) (b : Z) :
  query_bound (q ++ [QStarsLe b]) = Some b.
Proof.
  induction q as [|f q IH]; [reflexivity|].
  cbn [app query_bound]. rewrite IH. destruct f; reflexivity.
Qed.

Lemma In_insert_by_stars (r x : Repository) (l : list Repository) :
  In x (insert_by_stars r l) <-> x = r \/ In x l.
Proof.
  induction l as [|y l IH]; cbn [insert_by_stars].
  - cbn. intuition congruence.
  - destruct (GetStargazersCount y <=? GetStargazersCount r); cbn [In] in *.
    + intuition congruence.
    + rewrite IH. intuition congruence.
Qed.

Lemma In_sort_by_stars (x : Repository) (l : list Repository) :
  In x (sort_by_stars l) <-> In x l.
Proof.
  induction l as [|y l IH]; [reflexivity|].
  cbn [sort_by_stars fold_right]. fold (sort_by_stars l).
  rewrite In_insert_by_stars, IH. cbn [In]. intuition congruence.
Qed.

Lemma insert_by_stars_descending (r : Repository) (l : list Repository) :
  descending (stars_of l) -> descending (stars_of (insert_by_stars r l)).
Proof.
  unfold descending, stars_of.
  induction l as [|y l IH]; intros Hs; cbn [insert_by_stars map].
  - constructor; constructor.
  - inversion Hs as [|? ? Hl Hy]; subst.
    destruct (Z.leb_spec (GetStargazersCount y) (GetStargazersCount r)) as [Hle|Hgt].
    + cbn [map]. constructor; [exact Hs|].
      constructor; [lia|]. eapply Forall_impl; [exact Hy|]. cbn. intros z Hz. lia.
    + cbn [map]. constructor; [apply IH; exact Hl|].
      apply Forall_forall. intros z Hz. apply list_elem_of_In in Hz.
      apply in_map_iff in Hz as (x & <- & Hx).
      apply In_insert_by_stars in Hx as [->|Hx]; [lia|].
      rewrite Forall_forall in Hy. apply Hy. apply list_elem_of_In.
      apply in_map. exact Hx.
Qed.

Lemma sort_by_stars_descending (l : list Repository) :
  descending (stars_of (sort_by_stars l)).
Proof.
  induction l as [|y l IH]; [constructor|].
  cbn [sort_by_stars fold_right]. apply insert_by_stars_descending. exact IH.
Qed.

Lemma In_take {A : Type} (x : A) (n : nat) (l : list A) : In x (take n l) -> In x l.
Proof.
  intros H. apply list_elem_of_In. apply (subseteq_take n l).
  apply list_elem_of_In. exact H.
Qed.

Lemma In_drop {A : Type} (x : A) (n : nat) (l : list A) : In x (drop n l) -> In x l.
Proof.
  intros H. apply list_elem_of_In. apply (subseteq_drop n l).
  apply list_elem_of_In. exact H.
Qed.

Lemma retrievable_In (window : nat) (ds : list Repository)
    (query : list QueryFragment) (opt : SearchOptions) (x : Repository) :
  In x (retrievable window ds query opt) ->
  In x ds /\ within_bound (query_bound query) x = true.
Proof.
  unfold retrievable. intros H. apply In_take in H.
  destruct (Sort opt =? "stars")%string.
  - apply (proj1 (In_sort_by_stars _ _)) in H.
    apply (proj1 (filter_In _ _ _)) in H. exact H.
  - apply (proj1 (filter_In _ _ _)) in H. exact H.
Qed.

Lemma In_page {A : Type} (x : A) (per off : nat) (l : list A) :
  In x (firstn per (skipn off l)) -> In x l.
Proof. intros H. apply In_take in H. apply In_drop in H. exact H. Qed.

Lemma retries_9999_positive : exists k : nat, retries_9999 = Datatypes.S k.
Proof. exists (Z.to_nat 9998). unfold retries_9999. lia. Qed.

Lemma max_stars_ge (ds : list Repository) (r : Repository) :
  In r ds -> GetStargazersCount r <= max_stars ds.
Proof.
  unfold max_stars, stars_of. induction ds as [|x l IH]; intros H; [destruct H|].
  cbn [map fold_right]. destruct H as [->|H]; [lia|]. specialize (IH H). lia.
Qed.

Lemma max_stars_nonneg (ds : list Repository) : 0 <= max_stars ds.
Proof.
  unfold max_stars, stars_of. induction ds as [|x l IH]; cbn [map fold_right]; lia.
Qed.

Lemma max_stars_small (ds : list Repository) :
  Forall (fun r => 0 <= GetStargazersCount r < 2 ^ 63) ds -> max_stars ds < 2 ^ 63.
Proof.
  unfold max_stars, stars_of. induction 1 as [|x l Hx Hl IH]; cbn [map fold_right].
  - reflexivity.
  - apply Z.max_lub_lt; [apply Hx|exact IH].
Qed.

Lemma wrap64_small (x : Z) : - 2 ^ 63 <= x < 2 ^ 63 -> wrap64 x = x.
Proof. intros H. unfold wrap64. rewrite Z.mod_small; lia. Qed.

Lemma range_repos_exit (opts : ListAllReposByLanguageOpts) :
  forall (items : list Repository) (st : search_state),
    snd (range_repos opts items st) <> Some BoundIsZero.
Proof.
  induction items as [|r items IH]; intros st; cbn [range_repos]; [discriminate|].
  destruct (GetStargazersCount r <? MinStars opts); [discriminate|].
  destruct (negb (Has (storeIndex st) (GetFullName r))); [|apply IH].
  match goal with |- context [if ?c then _ else _] => destruct c end;
    [discriminate|apply IH].
Qed.

Lemma page_offset_next (p : Z) :
  page_offset {| Page := eff_page p + 1; PerPage := 100 |}
  = (page_offset {| Page := p; PerPage := 100 |} + 100)%nat.
Proof.
  unfold page_offset, eff_page. cbn [Page PerPage].
  change (Z.to_nat 100) with 100%nat.
  destruct (Z.leb_spec p 0); destruct (Z.leb_spec (1 + 1) 0);
    destruct (Z.leb_spec (p + 1) 0); lia.
Qed.

Section Dataset.

Variables (window : nat) (ds : list Repository).
Variables (opts : ListAllReposByLanguageOpts) (q : list QueryFragment).

Let P := fake (search_server window ds).

Lemma search_request (st : search_state) (w : FakeWorld) :
  RetryExponentialBackoff P retries_9999 time_Second
    (attempt P (Search_Repositories P (search_query q st) (search_options st)))
    (None, None) w
  = (Done ([], (Some {| Repositories := fst (search_page window ds q st) |},
                Some (response StatusOK (snd (search_page window ds q st))))),
     after_request window ds q st w).
Proof.
  destruct retries_9999_positive as [k ->].
  apply retry_first_success. apply attempt_success; reflexivity.
Qed.


Lemma ListAllReposByLanguage_loop_step (n : nat) (st : search_state) (w : FakeWorld) :
  ListAllReposByLanguage_loop P (Datatypes.S n) opts q st w =
  match range_repos opts (fst (search_page window ds q st)) st with
  | (st', Some why) => (Done (Ok (why, st')), after_request window ds q st w)
  | (st', None) =>
      if snd (search_page window ds q st) =? 0 then
        if starLowerBound st' =? 0 then (Done (Ok (BoundIsZero, st')), after_request window ds q st w)
        else ListAllReposByLanguage_loop P n opts q (restart st') (after_request window ds q st w)
      else
        ListAllReposByLanguage_loop P n opts q
          (turn_page st' (snd (search_page window ds q st))) (after_request window ds q st w)
  end.
Proof.
  cbn [ListAllReposByLanguage_loop]. unfold bind at 1. rewrite search_request.
  cbn [length Nat.eqb negb]. unfold bind at 1. cbn [deref ret].
  change (StatusCode (response StatusOK ?x) =? StatusNotFound) with false. cbv iota.
  unfold bind at 1. cbn [deref ret Repositories].
  destruct (range_repos opts (fst (search_page window ds q st)) st) as [st' [why|]];
    [reflexivity|].
  change (NextPage (response StatusOK ?x)) with x.
  destruct (snd (search_page window ds q st) =? 0); [|reflexivity].
  destruct (starLowerBound st' =? 0); reflexivity.
Qed.



Lemma search_page_In (st : search_state) (r : Repository) :
  In r (fst (search_page window ds q st)) ->
  In r ds /\
  (useStarBound st = true -> GetStargazersCount r <= starLowerBound st).
Proof.
  unfold search_page. cbn [fst]. intros H. apply In_page in H.
  apply retrievable_In in H as [Hds Hb]. split; [exact Hds|].
  intros Hu. unfold search_query in Hb. rewrite Hu, query_bound_app_last in Hb.
  cbn [within_bound] in Hb. lia.
Qed.

Lemma range_repos_bounded (top : Z) :
  forall (items : list Repository) (st : search_state),
    Forall (fun r => 0 <= GetStargazersCount r <= top /\
                     (useStarBound st = true ->
                      GetStargazersCount r <= starLowerBound st)) items ->
    bounded_search top st ->
    bounded_search top (fst (range_repos opts items st)).
Proof.
  induction items as [|r items IH]; intros st Hitems Hst; [exact Hst|].
  inversion Hitems as [|? ? [Hr Hb] Hrest]; subst.
  cbn [range_repos].
  destruct (GetStargazersCount r <? MinStars opts); [exact Hst|].
  destruct (Has (storeIndex st) (GetFullName r)); cbn [negb];
    [apply IH; assumption|].
  assert (Hst' : bounded_search top
            {| opt_Page := opt_Page st;
               latestStarCount := GetStargazersCount r;
               useStarBound := useStarBound st;
               starLowerBound := starLowerBound st;
               allRepos := allRepos st ++ [r];
               storeIndex := Add (storeIndex st) (GetFullName r) |}).
  { destruct Hst as [Hl Hu]. split; cbn [latestStarCount useStarBound starLowerBound].
    - exact Hr.
    - destruct (useStarBound st); [|exact Hu]. split; [apply Hb; reflexivity|lia]. }
  match goal with |- context [if ?c then _ else _] => destruct c end.
  - exact Hst'.
  - apply IH; [exact Hrest|exact Hst'].
Qed.


Hypothesis ds_stars : Forall (fun r => 0 <= GetStargazersCount r < 2 ^ 63) ds.

Lemma search_page_bounded (st : search_state) :
  Forall (fun r => 0 <= GetStargazersCount r <= max_stars ds /\
                   (useStarBound st = true ->
                    GetStargazersCount r <= starLowerBound st))
         (fst (search_page window ds q st)).
Proof.
  apply Forall_forall. intros r Hr. apply list_elem_of_In in Hr.
  apply search_page_In in Hr as [Hds Hb].
  split; [|exact Hb]. split; [|apply max_stars_ge; exact Hds].
  rewrite Forall_forall in ds_stars. apply ds_stars. apply list_elem_of_In. exact Hds.
Qed.

Lemma search_page_next (st : search_state) :
  snd (search_page window ds q st) <> 0 ->
  snd (search_page window ds q st) = eff_page (opt_Page st) + 1 /\
  (page_offset {| Page := opt_Page st; PerPage := 100 |} + 100 < window)%nat.
Proof.
  unfold search_page. cbn [snd search_options SO_ListOptions].
  set (found := retrievable window ds (search_query q st) _).
  assert (Hlen : (length found <= window)%nat).
  { subst found. unfold retrievable. rewrite length_take. lia. }
  change (Z.to_nat 100) with 100%nat.
  destruct (Nat.ltb_spec (page_offset {| Page := opt_Page st; PerPage := 100 |} + 100)
              (length found)); intros Hnz; [|congruence].
  split; [reflexivity|lia].
Qed.

Lemma restart_bounded (st : search_state) :
  bounded_search (max_stars ds) st ->
  starLowerBound st <> 0 ->
  bounded_search (max_stars ds) (restart st) /\
  (search_measure window (max_stars ds) (restart st)
   < search_measure window (max_stars ds) st)%nat.
Proof.
  intros [Hl Hu] Hb.
  pose proof (max_stars_small ds ds_stars) as Hsmall.
  unfold bounded_search, search_measure, restart, next_bound.
  cbn [latestStarCount useStarBound starLowerBound opt_Page].
  change (page_offset {| Page := 1; PerPage := 100 |}) with 0%nat.
  destruct (useStarBound st).
  - destruct (Z.eqb_spec (starLowerBound st) (latestStarCount st)) as [He|Hne].
    + rewrite wrap64_small by lia. split; [lia|]. nia.
    + split; [lia|]. nia.
  - destruct (Z.eqb_spec (starLowerBound st) (latestStarCount st)) as [He|Hne]; [lia|].
    split; [lia|]. nia.
Qed.

End Dataset.



Lemma range_repos_limit (opts : ListAllReposByLanguageOpts) :
  forall (repos : list Repository) (st : search_state),
    under_limit opts st ->
    match range_repos opts repos st with
    | (st', Some LimitReached) =>
        Limit opts > 0 /\ Z.of_nat (length (allRepos st')) = Limit opts
    | (st', _) => under_limit opts st'
    end.
Proof.
  induction repos as [|repo rest IH]; intros st Hst; [exact Hst|].
  cbn [range_repos].
  destruct (GetStargazersCount repo <? MinStars opts); [exact Hst|].
  destruct (Has (storeIndex st) (GetFullName repo)); cbn [negb]; [apply IH; exact Hst|].
  cbn [allRepos]. rewrite length_app. cbn [length].
  destruct (Z.gtb_spec (Limit opts) 0) as [Hpos|Hnon]; cbn [andb].
  - destruct (Z.geb_spec (Z.of_nat (length (allRepos st) + 1)) (Limit opts)) as [Hge|Hlt].
    + cbn [allRepos]. rewrite length_app. cbn [length].
      specialize (Hst ltac:(lia)). lia.
    + apply IH. intros _. cbn [allRepos]. rewrite length_app. cbn [length]. lia.
  - apply IH. intros H. lia.
Qed.













(** *** The order of the result *)

Lemma descending_cons_inv (x : Z) (l : list Z) :
  descending (x :: l) -> descending l /\ Forall (fun y => y <= x) l.
Proof.
  intros H. inversion H as [|? ? Hl Hx]; subst. split; [exact Hl|].
  eapply Forall_impl; [exact Hx|]. cbn. intros y Hy. lia.
Qed.

Lemma descending_snoc (l : list Z) (x : Z) :
  descending l -> Forall (fun y => x <= y) l -> descending (l ++ [x]).
Proof.
  intros Hl Hx. apply StronglySorted_app_2.
  - intros a b Ha Hb. apply list_elem_of_singleton in Hb. subst b.
    rewrite Forall_forall in Hx. specialize (Hx a Ha). lia.
  - exact Hl.
  - constructor; constructor.
Qed.

Lemma Forall_stars (Q : Z -> Prop) (l : list Repository) :
  Forall Q (stars_of l) <-> Forall (fun r => Q (GetStargazersCount r)) l.
Proof.
  unfold stars_of. induction l as [|x l IH]; cbn [map].
  - split; constructor.
  - split; intros H; inversion H; subst; constructor; try assumption; apply IH;
      assumption.
Qed.

Lemma range_repos_ordered (opts : ListAllReposByLanguageOpts) :
  forall (items rest : list Repository) (st : search_state),
    ordered_search st (items ++ rest) ->
    ordered_search (fst (range_repos opts items st)) rest.
Proof.
  induction items as [|r items IH]; intros rest st Hst; [exact Hst|].
  assert (Hweak : ordered_search st (items ++ rest)).
  { destruct Hst as (Ha & Hge & Hrest & Hle). cbn [app] in Hrest, Hle.
    unfold stars_of in Hrest. cbn [map] in Hrest.
    apply descending_cons_inv in Hrest as [Hrest _].
    repeat split; try assumption.
    destruct Hle as [Hle|Hle]; [left; exact Hle|right].
    inversion Hle; assumption. }
  cbn [range_repos].
  destruct (GetStargazersCount r <? MinStars opts).
  { cbn [fst]. destruct Hweak as (Ha & Hge & Hrest & Hle).
    unfold stars_of in Hrest. rewrite map_app in Hrest.
    apply StronglySorted_app_1_r in Hrest.
    repeat split; try assumption.
    destruct Hle as [Hle|Hle]; [left; exact Hle|right].
    apply Forall_app in Hle as [_ Hle]. exact Hle. }
  destruct (Has (storeIndex st) (GetFullName r)); cbn [negb]; [apply IH; exact Hweak|].
  assert (Hst' : ordered_search
            {| opt_Page := opt_Page st;
               latestStarCount := GetStargazersCount r;
               useStarBound := useStarBound st;
               starLowerBound := starLowerBound st;
               allRepos := allRepos st ++ [r];
               storeIndex := Add (storeIndex st) (GetFullName r) |} (items ++ rest)).
  { destruct Hst as (Ha & Hge & Hrest & Hle). cbn [app] in Hrest, Hle.
    unfold stars_of in Hrest. cbn [map] in Hrest.
    apply descending_cons_inv in Hrest as [Hrest Hbelow].
    assert (Hprev : Forall (fun x => GetStargazersCount r <= GetStargazersCount x)
                      (allRepos st)).
    { destruct Hle as [Hnil|Hle]; [rewrite Hnil; constructor|].
      inversion Hle as [|? ? Hr _]; subst.
      eapply Forall_impl; [exact Hge|]. cbn. intros x Hx. lia. }
    unfold ordered_search. cbn [allRepos latestStarCount].
    split; [|split; [|split]].
    - unfold stars_of. rewrite map_app. cbn [map]. apply descending_snoc; [exact Ha|].
      apply (Forall_stars (fun y => GetStargazersCount r <= y)). exact Hprev.
    - apply Forall_app. split; [exact Hprev|]. constructor; [lia|constructor].
    - exact Hrest.
    - right. apply (Forall_stars (fun y => y <= GetStargazersCount r)). exact Hbelow. }
  match goal with |- context [if ?c then _ else _] => destruct c end.
  - cbn [fst]. destruct Hst' as (Ha & Hge & Hrest & Hle).
    unfold stars_of in Hrest. rewrite map_app in Hrest.
    apply StronglySorted_app_1_r in Hrest.
    repeat split; try assumption.
    destruct Hle as [Hle|Hle]; [left; exact Hle|right].
    apply Forall_app in Hle as [_ Hle]. exact Hle.
  - apply IH. exact Hst'.
Qed.

Lemma descending_take (n : nat) (l : list Repository) :
  descending (stars_of l) -> descending (stars_of (take n l)).
Proof.
  intros H. rewrite <- (take_drop n l) in H. unfold stars_of in *.
  rewrite map_app in H. apply StronglySorted_app_1_l in H. exact H.
Qed.

Lemma descending_drop (n : nat) (l : list Repository) :
  descending (stars_of l) -> descending (stars_of (drop n l)).
Proof.
  intros H. rewrite <- (take_drop n l) in H. unfold stars_of in *.
  rewrite map_app in H. apply StronglySorted_app_1_r in H. exact H.
Qed.

Section Order.

Variables (window : nat) (ds : list Repository).
Variables (opts : ListAllReposByLanguageOpts) (q : list QueryFragment).

Hypothesis ds_stars : Forall (fun r => 0 <= GetStargazersCount r < 2 ^ 63) ds.

Let P := fake (search_server window ds).

Lemma remaining_same (st st1 : search_state) (p : Z) :
  useStarBound st1 = useStarBound st ->
  starLowerBound st1 = starLowerBound st ->
  remaining window ds q (turn_page st1 p)
  = drop (page_offset {| Page := p; PerPage := 100 |})
      (retrievable window ds (search_query q st) (search_options st)).
Proof.
  intros Hu Hb. unfold remaining, retrievable, search_query, search_options.
  cbn [turn_page opt_Page useStarBound starLowerBound Sort]. rewrite Hu, Hb.
  reflexivity.
Qed.

Lemma remaining_descending (st : search_state) :
  descending (stars_of (remaining window ds q st)).
Proof.
  unfold remaining, retrievable. apply descending_drop, descending_take.
  cbn [search_options Sort]. change ("stars" =? "stars")%string with true. cbv iota.
  apply sort_by_stars_descending.
Qed.

Lemma search_page_remaining (st : search_state) :
  fst (search_page window ds q st) = take 100 (remaining window ds q st).
Proof. reflexivity. Qed.

Lemma restart_ordered (st : search_state) :
  bounded_search (max_stars ds) st ->
  ordered_search st [] ->
  ordered_search (restart st) (remaining window ds q (restart st)).
Proof.
  intros [Hl Hu] (Ha & Hge & _ & _).
  pose proof (max_stars_small ds ds_stars) as Hsmall.
  assert (Hlow : latestStarCount (restart st) <= latestStarCount st).
  { unfold restart, next_bound. cbn [latestStarCount].
    destruct (Z.eqb_spec (starLowerBound st) (latestStarCount st)); [|lia].
    rewrite wrap64_small by lia. lia. }
  split; [exact Ha|]. split; [|split].
  - cbn [restart allRepos]. eapply Forall_impl; [exact Hge|]. cbn. intros r Hr.
    cbn [restart latestStarCount] in Hlow. cbn [latestStarCount]. lia.
  - apply remaining_descending.
  - right. apply Forall_forall. intros r Hr. apply list_elem_of_In in Hr.
    unfold remaining in Hr. apply In_drop in Hr.
    apply retrievable_In in Hr as [_ Hb].
    unfold search_query in Hb. cbn [restart useStarBound starLowerBound] in Hb.
    rewrite query_bound_app_last in Hb. cbn [within_bound] in Hb.
    cbn [restart latestStarCount]. lia.
Qed.

Lemma ListAllReposByLanguage_loop_ordered :
  forall (n : nat) (st : search_state) (w : FakeWorld) why st' w',
    bounded_search (max_stars ds) st ->
    ordered_search st (remaining window ds q st) ->
    ListAllReposByLanguage_loop P n opts q st w = (Done (Ok (why, st')), w') ->
    descending (stars_of (allRepos st')).
Proof.
  unfold P. induction n as [|n IH]; intros st w why st' w' Hb Ho Hrun; [discriminate|].
  rewrite ListAllReposByLanguage_loop_step in Hrun.
  pose proof (range_repos_bounded opts (max_stars ds) _ st
                (search_page_bounded window ds q ds_stars st) Hb) as Hb1.
  rewrite <- (take_drop 100 (remaining window ds q st)) in Ho.
  apply (range_repos_ordered opts) in Ho. rewrite <- search_page_remaining in Ho.
  destruct (range_repos_grows opts (fst (search_page window ds q st)) st)
    as (_ & _ & Hp & Hu & Hlb).
  destruct (range_repos opts (fst (search_page window ds q st)) st) as [st1 [why1|]];
    cbn [fst] in *.
  - injection Hrun as <- <- <-. apply Ho.
  - destruct (Z.eqb_spec (snd (search_page window ds q st)) 0) as [Hz|Hnz].
    + destruct (Z.eqb_spec (starLowerBound st1) 0) as [Hb0|Hb0].
      * injection Hrun as <- <- <-. apply Ho.
      * eapply IH; [| |exact Hrun].
        -- apply (restart_bounded window ds ds_stars st1 Hb1 Hb0).
        -- apply restart_ordered; [exact Hb1|].
           destruct Ho as (H1 & H2 & _ & _). repeat split; try assumption.
           ++ constructor.
           ++ right. constructor.
    + destruct (search_page_next window ds q st Hnz) as [Hnext _].
      eapply IH; [| |exact Hrun].
      * destruct Hb1 as [H1 H2]. split; cbn [turn_page latestStarCount useStarBound
                                                starLowerBound]; assumption.
      * rewrite (remaining_same st st1 _ Hu Hlb), Hnext, page_offset_next.
        rewrite <- drop_drop. unfold remaining in Ho.
        destruct Ho as (H1 & H2 & H3 & H4). repeat split; assumption.
Qed.

End Order.

Lemma initial_indexed (bound : Z) : indexed (initial_search_state bound).
Proof.
  split; cbn [initial_search_state allRepos storeIndex names_of map].
  - constructor.
  - intros id. split; [intros H; apply not_elem_of_empty in H; destruct H|intros []].
Qed.

(** C3 as the code has it: within one invocation the index only grows and
    the result only gets longer, a repository whose full name is in the
    index is passed over, and whatever pages the endpoint hands out the
    result holds every full name at most once.  The star counts of the
    result never go up when the pages are those of a search endpoint over a
    dataset of non-negative star counts, which serves every query sorted by
    stars and cut at the requested bound. *)
Theorem exhaustive_search_dedup_and_order :
  (forall (opts : ListAllReposByLanguageOpts) (repos : list Repository)
          (st : search_state),
      storeIndex st ⊆ storeIndex (fst (range_repos opts repos st)) /\
      exists added, allRepos (fst (range_repos opts repos st)) = allRepos st ++ added) /\
  (forall (st : search_state) (p : Z),
      storeIndex (restart st) = storeIndex st /\
      storeIndex (turn_page st p) = storeIndex st) /\
  (forall (opts : ListAllReposByLanguageOpts) (repo : Repository)
          (rest : list Repository) (st : search_state),
      MinStars opts <= GetStargazersCount repo ->
      Has (storeIndex st) (GetFullName repo) = true ->
      range_repos opts (repo :: rest) st = range_repos opts rest st) /\
  (forall (W : Type) (P : Platform W) (fuel : nat)
          (opts : ListAllReposByLanguageOpts) (q : list QueryFragment)
          (bound : Z) (w : W) why st' w',
      ListAllReposByLanguage_loop P fuel opts q (initial_search_state bound) w
      = (Done (Ok (why, st')), w') ->
      NoDup (names_of (allRepos st'))) /\
  (forall (window : nat) (ds : list Repository) (fuel : nat)
          (opts : ListAllReposByLanguageOpts) (w : FakeWorld) why st' w',
      Forall (fun r => 0 <= GetStargazersCount r < 2 ^ 63) ds ->
      ListAllReposByLanguage_loop (fake (search_server window ds)) fuel opts
        (query_fragments opts) (initial_search_state (-1)) w
      = (Done (Ok (why, st')), w') ->
      descending (stars_of (allRepos st'))).
Proof.
  split; [|split; [|split; [|split]]].
  - intros opts repos st.
    destruct (range_repos_grows opts repos st) as (Hsub & Hadd & _).
    split; [exact Hsub|exact Hadd].
  - intros st p. split; reflexivity.
  - intros opts repo rest st Hmin Hhas. cbn [range_repos].
    destruct (Z.ltb_spec (GetStargazersCount repo) (MinStars opts)); [lia|].
    rewrite Hhas. reflexivity.
  - intros W P fuel opts q bound w why st' w' Hrun.
    apply (ListAllReposByLanguage_loop_invariant P indexed opts q) in Hrun.
    + apply Hrun.
    + intros repos st. apply range_repos_indexed.
    + intros st H. exact H.
    + intros st p H. exact H.
    + apply initial_indexed.
  - intros window ds fuel opts w why st' w' Hds Hrun.
    apply (ListAllReposByLanguage_loop_ordered window ds opts (query_fragments opts)
             Hds fuel _ w why st' w') in Hrun; [exact Hrun| |].
    + pose proof (max_stars_nonneg ds).
      split; cbn [initial_search_state latestStarCount useStarBound starLowerBound];
        [lia|reflexivity].
    + split; [constructor|]. split; [constructor|].
      split; [apply remaining_descending|left; reflexivity].
Qed.

Lemma exhaustive_search_dedup_and_order_witness :
  let ds := [repo_of "o/a" 3; repo_of "o/b" 5; repo_of "o/c" 3; repo_of "o/d" 3;
             repo_of "o/e" 1; repo_of "o/f" 0] in
  let opts := opts_of "go" 0 0 in
  exists why st' w',
    ListAllReposByLanguage_loop (fake (search_server 2 ds)) 20 opts
      (query_fragments opts) (initial_search_state (-1)) world0
    = (Done (Ok (why, st')), w') /\
    stars_of (allRepos st') = [5; 3; 3; 1; 0] /\
    NoDup (names_of (allRepos st')) /\
    descending (stars_of (allRepos st')).
Proof.
  intros ds opts.
  destruct exhaustive_search_dedup_and_order as (_ & _ & _ & Hdedup & Horder).
  eexists _, _, _. split; [vm_compute; reflexivity|].
  split; [vm_compute; reflexivity|]. split.
  - eapply (Hdedup FakeWorld (fake (search_server 2 ds)) 20%nat opts
              (query_fragments opts) (-1) world0).
    vm_compute. reflexivity.
  - eapply (Horder 2%nat ds 20%nat opts world0).
    + repeat constructor; cbn; lia.
    + vm_compute. reflexivity.
Defined.

(** C3 as stated fails on a page that is not sorted by stars: both
    repositories are accepted in the order of the page. *)
Lemma unsorted_page_counterexample :
  let a := repo_of "o/a" 1 in
  let b := repo_of "o/b" 5 in
  let run :=
    ListAllReposByLanguage (fake (scripted_search_server [[a; b]])) 7
      (Some (opts_of "go" 0 0)) world0 in
  fst run = Done (Ok [a; b]) /\
  stars_of [a; b] = [1; 5] /\
  ~ descending (stars_of [a; b]).
Proof.
  intros a b run. split; [vm_compute; reflexivity|]. split; [reflexivity|].
  intros H. inversion H as [|? ? _ Hall]; subst.
  inversion Hall as [|? ? Hge _]; subst. cbn in Hge. lia.
Qed.

(** * Further properties *)

(** ** The floor and the limit of the exhaustive search *)

Lemma range_repos_floor (opts : ListAllReposByLanguageOpts) :
  forall (repos : list Repository) (st : search_state),
    above_floor opts st -> above_floor opts (fst (range_repos opts repos st)).
Proof.
  induction repos as [|repo rest IH]; intros st Hst; [exact Hst|].
  cbn [range_repos].
  destruct (Z.ltb_spec (GetStargazersCount repo) (MinStars opts)); [exact Hst|].
  destruct (Has (storeIndex st) (GetFullName repo)); cbn [negb]; [apply IH; exact Hst|].
  assert (Hst' : Forall (fun r => MinStars opts <= GetStargazersCount r)
                   (allRepos st ++ [repo])).
  { apply Forall_app. split; [exact Hst|]. constructor; [lia|constructor]. }
  match goal with |- context [if ?c then _ else _] => destruct c end.
  - exact Hst'.
  - apply IH. exact Hst'.
Qed.

Section AnySearch.

Context {W : Type} (P : Platform W).

Lemma ListAllReposByLanguage_loop_limit
    (opts : ListAllReposByLanguageOpts) (q : list QueryFragment) :
  forall (fuel : nat) (st : search_state) (w : W) why st' w',
    under_limit opts st ->
    ListAllReposByLanguage_loop P fuel opts q st w = (Done (Ok (why, st')), w') ->
    within_limit opts st' /\
    (why = LimitReached ->
     Limit opts > 0 /\ Z.of_nat (length (allRepos st')) = Limit opts).
Proof.
  induction fuel as [|fuel IH]; intros st w why st' w' Hst Hrun; [discriminate|].
  cbn [ListAllReposByLanguage_loop] in Hrun. unfold bind at 1 in Hrun.
  destruct (RetryExponentialBackoff P retries_9999 time_Second _ _ w)
    as [[[errs [repos resp]]|pv|] w1]; try discriminate.
  destruct (negb (length errs =? 0)%nat); [discriminate|].
  unfold bind at 1 in Hrun. destruct resp as [r|]; [|discriminate].
  cbn [deref ret] in Hrun.
  destruct (StatusCode r =? StatusNotFound); [discriminate|].
  unfold bind at 1 in Hrun. destruct repos as [rs|]; [|discriminate].
  cbn [deref ret] in Hrun.
  pose proof (range_repos_limit opts (Repositories rs) st Hst) as Hst1.
  pose proof (range_repos_exit opts (Repositories rs) st) as Hexit.
  destruct (range_repos opts (Repositories rs) st) as [st1 [why1|]]; cbn [snd] in Hexit.
  - injection Hrun as <- <- <-. destruct why1.
    + split; [intros H; specialize (Hst1 H); lia|discriminate].
    + destruct Hst1 as [Hpos Heq]. split; [intros _; lia|intros _; split; assumption].
    + congruence.
  - destruct (NextPage r =? 0).
    + destruct (starLowerBound st1 =? 0).
      * injection Hrun as <- <- <-.
        split; [intros H; specialize (Hst1 H); lia|discriminate].
      * eapply IH; [|exact Hrun]. exact Hst1.
    + eapply IH; [|exact Hrun]. exact Hst1.
Qed.

End AnySearch.

(** X1: whatever pages the endpoint hands out, [ListAllReposByLanguage]
    with a positive [Limit] never returns more repositories than the limit,
    and when it is the limit that ends the getter loop it returns exactly
    that many. *)
Theorem ListAllReposByLanguage_respects_limit
    (W : Type) (P : Platform W) (fuel : nat) (opts : ListAllReposByLanguageOpts)
    (w w' : W) (res : list Repository) :
  Limit opts > 0 ->
  ListAllReposByLanguage P fuel (Some opts) w = (Done (Ok res), w') ->
  Z.of_nat (length res) <= Limit opts /\
  exists why st',
    ListAllReposByLanguage_loop P fuel opts (query_fragments opts)
      (initial_search_state (-1)) w = (Done (Ok (why, st')), w') /\
    res = allRepos st' /\
    (why = LimitReached -> Z.of_nat (length res) = Limit opts).
Proof.
  intros Hpos Hrun. unfold ListAllReposByLanguage in Hrun.
  destruct (Validate_opts (Some opts)); [discriminate|].
  unfold bind at 1 in Hrun.
  destruct (ListAllReposByLanguage_loop P fuel opts (query_fragments opts)
              (initial_search_state (-1)) w) as [[[[why st']|e]|pv|] w1] eqn:Hloop;
    try discriminate.
  injection Hrun as <- <-.
  destruct (ListAllReposByLanguage_loop_limit P opts (query_fragments opts) fuel
              (initial_search_state (-1)) w why st' w1) as [Hle Hexact].
  - intros _. cbn. lia.
  - exact Hloop.
  - split; [apply Hle; exact Hpos|].
    exists why, st'. split; [reflexivity|]. split; [reflexivity|].
    intros Hwhy. apply Hexact. exact Hwhy.
Qed.

Lemma ListAllReposByLanguage_respects_limit_witness :
  let ds := [repo_of "o/a" 3; repo_of "o/b" 5; repo_of "o/c" 3; repo_of "o/d" 3;
             repo_of "o/e" 1; repo_of "o/f" 0] in
  exists res w',
    ListAllReposByLanguage (fake (search_server 2 ds)) 20 (Some (opts_of "go" 0 3)) world0
    = (Done (Ok res), w') /\
    names_of res = ["o/b"; "o/a"; "o/c"] /\
    Z.of_nat (length res) <= 3.
Proof.
  intros ds. eexists _, _. split; [vm_compute; reflexivity|].
  split; [vm_compute; reflexivity|].
  eapply (ListAllReposByLanguage_respects_limit FakeWorld (fake (search_server 2 ds))
            20%nat (opts_of "go" 0 3) world0).
  - cbn. lia.
  - vm_compute. reflexivity.
Defined.

(** X2: whatever pages the endpoint hands out, no repository that
    [ListAllReposByLanguage] returns has fewer stars than [MinStars]. *)
Theorem ListAllReposByLanguage_respects_floor
    (W : Type) (P : Platform W) (fuel : nat) (opts : ListAllReposByLanguageOpts)
    (w w' : W) (res : list Repository) :
  ListAllReposByLanguage P fuel (Some opts) w = (Done (Ok res), w') ->
  Forall (fun r => MinStars opts <= GetStargazersCount r) res.
Proof.
  intros Hrun. unfold ListAllReposByLanguage in Hrun.
  destruct (Validate_opts (Some opts)); [discriminate|].
  unfold bind at 1 in Hrun.
  destruct (ListAllReposByLanguage_loop P fuel opts (query_fragments opts)
              (initial_search_state (-1)) w) as [[[[why st']|e]|pv|] w1] eqn:Hloop;
    try discriminate.
  injection Hrun as <- <-.
  apply (ListAllReposByLanguage_loop_invariant P (above_floor opts) opts
           (query_fragments opts)) in Hloop.
  - exact Hloop.
  - intros repos st. apply range_repos_floor.
  - intros st H. exact H.
  - intros st p H. exact H.
  - constructor.
Qed.

Lemma ListAllReposByLanguage_respects_floor_witness :
  let ds := [repo_of "o/a" 3; repo_of "o/b" 5; repo_of "o/c" 3; repo_of "o/d" 3;
             repo_of "o/e" 1; repo_of "o/f" 0] in
  exists res w',
    ListAllReposByLanguage (fake (search_server 2 ds)) 20 (Some (opts_of "go" 3 0)) world0
    = (Done (Ok res), w') /\
    stars_of res = [5; 3; 3] /\
    Forall (fun r => 3 <= GetStargazersCount r) res.
Proof.
  intros ds. eexists _, _. split; [vm_compute; reflexivity|].
  split; [vm_compute; reflexivity|].
  eapply (ListAllReposByLanguage_respects_floor FakeWorld (fake (search_server 2 ds))
            20%nat (opts_of "go" 3 0) world0).
  vm_compute. reflexivity.
Defined.

(** ** Getters *)

Section Getters.

Context {W : Type} (P : Platform W).

Lemma retry_success_inv {S : Type} (task : S -> M W (option error * S)) :
  forall (n : nat) (wait : Z) (errs : list error) (s s' : S) (w w' : W),
    (0 < n)%nat ->
    RetryExponentialBackoff_from P n wait task errs s w = (Done ([], s'), w') ->
    exists s0 w0, task s0 w0 = (Done (None, s'), w').
Proof.
  induction n as [|n IH]; intros wait errs s s' w w' Hn Hrun; [lia|].
  cbn [RetryExponentialBackoff_from] in Hrun. unfold bind at 1 in Hrun.
  destruct (task s w) as [[[[e|] s1]|pv|] w1] eqn:Htask; try discriminate.
  - destruct n as [|n].
    + injection Hrun as Herrs _ _. destruct errs; discriminate.
    + unfold bind at 1 in Hrun. cbn [sleep] in Hrun.
      eapply IH; [lia|exact Hrun].
  - injection Hrun as <- <-. exists s, w. exact Htask.
Qed.

Lemma attempt_nil_inv {A : Type}
    (call : W -> (A * option Response * option error) * W)
    (captured : A * option Response) (w w' : W) (v : A) (resp : option Response) :
  attempt P call captured w = (Done (None, (v, resp)), w') ->
  exists r w1,
    call w = ((v, Some r, None), w1) /\
    resp = Some r /\ status_is_final (StatusCode r) = true.
Proof.
  unfold attempt, bind. destruct (call w) as [[[v0 resp0] [e|]] w1]; [discriminate|].
  destruct (onResponse P resp0 w1) as [[[]|pv|] w2]; try discriminate.
  cbn [handleRateLimitError isRateLimitError ret].
  destruct resp0 as [r|]; [|discriminate]. cbn [deref ret].
  destruct (status_is_final (StatusCode r)) eqn:Hs; cbn [negb]; [|discriminate].
  intros H. injection H as <- <- <-. exists r, w1. repeat split. exact Hs.
Qed.

End Getters.

(** X3: [GetPull] hands out a pull request only as a call returned it
    without an error and with status 200 or 204; a call that failed or
    any other status never yields a value. *)
Theorem GetPull_value_comes_from_a_good_response
    (W : Type) (P : Platform W) (owner repo : string) (number : Z)
    (w w' : W) (pull : option PullRequest) :
  GetPull P owner repo number w = (Done (Ok pull), w') ->
  exists w0 w1 resp,
    PullRequests_Get P owner repo number w0 = ((pull, Some resp, None), w1) /\
    (StatusCode resp = StatusOK \/ StatusCode resp = StatusNoContent).
Proof.
  unfold GetPull. unfold bind at 1.
  destruct (RetryExponentialBackoff P 5 time_Second _ _ w)
    as [[[errs [v resp]]|pv|] w1] eqn:Hretry; try discriminate.
  destruct errs as [|e errs]; cbn [length Nat.eqb negb].
  - unfold bind at 1. destruct resp as [r|]; [|discriminate]. cbn [deref ret].
    destruct (Z.eqb_spec (StatusCode r) StatusNotFound) as [H404|H404]; [discriminate|].
    intros H. injection H as <- <-.
    unfold RetryExponentialBackoff in Hretry.
    apply retry_success_inv in Hretry as (s0 & w0 & Htask); [|lia].
    apply attempt_nil_inv in Htask as (r' & w2 & Hcall & Hr & Hfinal).
    injection Hr as <-. exists w0, w2, r. split; [exact Hcall|].
    unfold status_is_final in Hfinal.
    apply orb_true_iff in Hfinal as [Hfinal|Hfinal];
      [apply orb_true_iff in Hfinal as [Hfinal|Hfinal]|].
    + left. apply Z.eqb_eq. exact Hfinal.
    + apply Z.eqb_eq in Hfinal. contradiction.
    + right. apply Z.eqb_eq. exact Hfinal.
  - unfold bind at 1. destruct resp as [r|]; [|discriminate]. cbn [deref ret].
    destruct (StatusCode r =? StatusNotFound); discriminate.
Qed.

Lemma GetPull_value_comes_from_a_good_response_witness :
  exists w0 w1 resp,
    PullRequests_Get (fake (constant_server (Some (response StatusNoContent 0)) None))
      "o" "r" 7 w0 = ((None, Some resp, None), w1) /\
    (StatusCode resp = StatusOK \/ StatusCode resp = StatusNoContent).
Proof.
  eapply (GetPull_value_comes_from_a_good_response FakeWorld
            (fake (constant_server (Some (response StatusNoContent 0)) None))
            "o" "r" 7 world0).
  vm_compute. reflexivity.
Defined.

Section GetterOutcomes.

Context {W : Type} (P : Platform W).

(** What a getter that retries [call] and then looks at the status can
    have seen when the retry came back without errors. *)
Lemma getter_retry_inv {A : Type}
    (call : W -> (A * option Response * option error) * W)
    (init : A * option Response) (w w' : W) (v : A) (resp : option Response) :
  RetryExponentialBackoff P 5 time_Second (attempt P call) init w
  = (Done ([], (v, resp)), w') ->
  exists r w0 w1,
    call w0 = ((v, Some r, None), w1) /\
    resp = Some r /\ status_is_final (StatusCode r) = true.
Proof.
  intros Hretry. unfold RetryExponentialBackoff in Hretry.
  apply retry_success_inv in Hretry as (s0 & w0 & Htask); [|lia].
  apply attempt_nil_inv in Htask as (r & w1 & Hcall & Hr & Hfinal).
  exists r, w0, w1. repeat split; assumption.
Qed.

Lemma status_final_cases (code : Z) :
  status_is_final code = true ->
  code = StatusOK \/ code = StatusNotFound \/ code = StatusNoContent.
Proof.
  unfold status_is_final. intros H.
  apply orb_true_iff in H as [H|H]; [apply orb_true_iff in H as [H|H]|];
    apply Z.eqb_eq in H; tauto.
Qed.

Lemma GetOrg_inv (E : Services W) (org : string) (w w' : W)
    (res : result (option Organization)) :
  GetOrg P E org w = (Done res, w') ->
  match res with
  | Ok organization =>
      exists r w0 w1,
        Organizations_Get E org w0 = ((organization, Some r, None), w1) /\
        (StatusCode r = StatusOK \/ StatusCode r = StatusNoContent)
  | Err ErrNotFound =>
      exists r w0 w1 organization,
        Organizations_Get E org w0 = ((organization, Some r, None), w1) /\
        StatusCode r = StatusNotFound
  | Err e => exists errs, e = ErrorArray errs /\ errs <> []
  end.
Proof.
  unfold GetOrg. unfold bind at 1.
  destruct (RetryExponentialBackoff P 5 time_Second _ _ w)
    as [[[errs [v resp]]|pv|] w1] eqn:Hretry; try discriminate.
  destruct errs as [|e errs]; cbn [length Nat.eqb negb].
  - apply getter_retry_inv in Hretry as (r & w0 & w2 & Hcall & -> & Hfinal).
    unfold bind at 1. cbn [deref ret].
    destruct (Z.eqb_spec (StatusCode r) StatusNotFound) as [H404|H404];
      intros H; injection H as <- <-.
    + exists r, w0, w2, v. split; assumption.
    + exists r, w0, w2. split; [exact Hcall|].
      apply status_final_cases in Hfinal. tauto.
  - intros H. injection H as <- <-. exists (e :: errs). split; [reflexivity|discriminate].
Qed.

Lemma GetUser_inv (E : Services W) (u : string) (w w' : W)
    (res : result (option UserInfo)) :
  GetUser P E u w = (Done res, w') ->
  match res with
  | Ok user =>
      exists r w0 w1,
        Users_Get E u w0 = ((user, Some r, None), w1) /\
        (StatusCode r = StatusOK \/ StatusCode r = StatusNoContent)
  | Err ErrNotFound =>
      exists r w0 w1 user,
        Users_Get E u w0 = ((user, Some r, None), w1) /\
        StatusCode r = StatusNotFound
  | Err e => exists errs, e = ErrorArray errs /\ errs <> []
  end.
Proof.
  unfold GetUser. unfold bind at 1.
  destruct (RetryExponentialBackoff P 5 time_Second _ _ w)
    as [[[errs [v resp]]|pv|] w1] eqn:Hretry; try discriminate.
  destruct errs as [|e errs]; cbn [length Nat.eqb negb].
  - apply getter_retry_inv in Hretry as (r & w0 & w2 & Hcall & -> & Hfinal).
    unfold bind at 1. cbn [deref ret].
    destruct (Z.eqb_spec (StatusCode r) StatusNotFound) as [H404|H404];
      intros H; injection H as <- <-.
    + exists r, w0, w2, v. split; assumption.
    + exists r, w0, w2. split; [exact Hcall|].
      apply status_final_cases in Hfinal. tauto.
  - intros H. injection H as <- <-. exists (e :: errs). split; [reflexivity|discriminate].
Qed.

End GetterOutcomes.

(** X4: [IsOwnerAnOrg] answers "yes" only with an organization that a call
    returned without an error and with status 200 or 204, and "no" only
    after a call that came back with status 404 and without an error; an
    error it returns is the aggregate of the failed attempts, never
    [ErrNotFound]. *)
Theorem IsOwnerAnOrg_answers
    (W : Type) (P : Platform W) (E : Services W) (owner : string) (w w' : W)
    (res : result (option Organization * bool)) :
  IsOwnerAnOrg P E owner w = (Done res, w') ->
  match res with
  | Ok (org, true) =>
      exists r w0 w1,
        Organizations_Get E owner w0 = ((org, Some r, None), w1) /\
        (StatusCode r = StatusOK \/ StatusCode r = StatusNoContent)
  | Ok (org, false) =>
      org = None /\
      exists r w0 w1 found,
        Organizations_Get E owner w0 = ((found, Some r, None), w1) /\
        StatusCode r = StatusNotFound
  | Err e => exists errs, e = ErrorArray errs /\ errs <> []
  end.
Proof.
  unfold IsOwnerAnOrg. unfold bind at 1.
  destruct (GetOrg P E owner w) as [[got|p|] w1] eqn:Hget; try discriminate.
  apply GetOrg_inv in Hget.
  destruct got as [org|e].
  - intros H. injection H as <- <-. exact Hget.
  - destruct e; cbn [is_ErrNotFound ret]; intros H; injection H as <- <-;
      try exact Hget.
    split; [reflexivity|exact Hget].
Qed.

Lemma IsOwnerAnOrg_answers_witness :
  let absent := account_backend (None, Some (response StatusNotFound 0), None)
                  (None, None, Some unserved) in
  exists r w0 w1 found,
    Organizations_Get (fake_services absent) "nobody" w0 = ((found, Some r, None), w1) /\
    StatusCode r = StatusNotFound.
Proof.
  intros absent.
  pose proof (IsOwnerAnOrg_answers FakeWorld (fake null_server) (fake_services absent)
                "nobody" world0 (snd (IsOwnerAnOrg (fake null_server)
                                        (fake_services absent) "nobody" world0))
                (Ok (None, false))) as H.
  cbv beta iota in H. apply H. vm_compute. reflexivity.
Defined.

(** X5: [IsOwnerAUser] answers "yes" only with an account that a call
    returned without an error and with status 200 or 204 and whose type is
    not "Organization"; for an account of type "Organization" it answers
    "no" and returns the account; it answers "no" without an account only
    after a 404 that came without an error, and never returns
    [ErrNotFound]. *)
Theorem IsOwnerAUser_answers
    (W : Type) (P : Platform W) (E : Services W) (owner : string) (w w' : W)
    (res : result (option UserInfo * bool)) :
  IsOwnerAUser P E owner w = (Done res, w') ->
  match res with
  | Ok (user, true) =>
      GetUserType user <> "Organization" /\
      exists r w0 w1,
        Users_Get E owner w0 = ((user, Some r, None), w1) /\
        (StatusCode r = StatusOK \/ StatusCode r = StatusNoContent)
  | Ok (user, false) =>
      (GetUserType user = "Organization" /\
       exists r w0 w1,
         Users_Get E owner w0 = ((user, Some r, None), w1) /\
         (StatusCode r = StatusOK \/ StatusCode r = StatusNoContent)) \/
      (user = None /\
       exists r w0 w1 found,
         Users_Get E owner w0 = ((found, Some r, None), w1) /\
         StatusCode r = StatusNotFound)
  | Err e => exists errs, e = ErrorArray errs /\ errs <> []
  end.
Proof.
  unfold IsOwnerAUser. unfold bind at 1.
  destruct (GetUser P E owner w) as [[got|p|] w1] eqn:Hget; try discriminate.
  apply GetUser_inv in Hget.
  destruct got as [user|e].
  - destruct (String.eqb_spec (GetUserType user) "Organization") as [Ht|Ht];
      intros H; injection H as <- <-.
    + left. split; [exact Ht|exact Hget].
    + split; [exact Ht|exact Hget].
  - destruct e; cbn [is_ErrNotFound ret]; intros H; injection H as <- <-;
      try exact Hget.
    right. split; [reflexivity|exact Hget].
Qed.

Lemma IsOwnerAUser_answers_witness :
  let org_account := Some {| UserLogin := Some "acme"; UserType := Some "Organization" |} in
  let b := account_backend (None, None, Some unserved)
             (org_account, Some (response StatusOK 0), None) in
  (GetUserType org_account = "Organization" /\
   exists r w0 w1,
     Users_Get (fake_services b) "acme" w0 = ((org_account, Some r, None), w1) /\
     (StatusCode r = StatusOK \/ StatusCode r = StatusNoContent)) \/
  (org_account = None /\
   exists r w0 w1 found,
     Users_Get (fake_services b) "acme" w0 = ((found, Some r, None), w1) /\
     StatusCode r = StatusNotFound).
Proof.
  intros org_account b.
  pose proof (IsOwnerAUser_answers FakeWorld (fake null_server) (fake_services b)
                "acme" world0 (snd (IsOwnerAUser (fake null_server)
                                      (fake_services b) "acme" world0))
                (Ok (org_account, false))) as H.
  cbv beta iota in H. apply H. vm_compute. reflexivity.
Defined.

(** X6: given a rate-limit error and the response that came with it,
    [handleRateLimitError] reads the clock once, sleeps for the time that is
    left until the reset of the response and answers true, so that the
    clock has reached the reset when it returns; given any other error or
    none it answers false and touches nothing; without a response it
    panics. *)
Theorem handleRateLimitError_sleeps_until_reset (s : Server) (w : FakeWorld) :
  (forall r : Response,
      let run := handleRateLimitError (fake s) (Some RateLimitError) (Some r) w in
      fst run = Done true /\
      fw_slept (snd run) = fw_slept w ++ [time_Sub (Reset (RateOf r)) (fw_now w)] /\
      (0 <= srv_tick s ->
       Reset (RateOf r) - fw_now w <= maxDuration ->
       Reset (RateOf r) <= fw_now (snd run))) /\
  fst (handleRateLimitError (fake s) (Some RateLimitError) None w)
  = Panicked NilDereference /\
  (forall (err : option error) (resp : option Response),
      err <> Some RateLimitError ->
      handleRateLimitError (fake s) err resp w = (Done false, w)).
Proof.
  split; [|split].
  - intros r run. subst run. unfold handleRateLimitError, bind, now, sleep.
    cbn [isRateLimitError deref ret time_Now time_Sleep fake fake_Now fake_Sleep
         fst snd fw_slept fw_now].
    split; [reflexivity|]. split; [reflexivity|].
    intros Htick Hrange. unfold time_Sub, minDuration, maxDuration in *. lia.
  - reflexivity.
  - intros err resp Hne. unfold handleRateLimitError.
    destruct err as [[]|]; cbn [isRateLimitError]; try reflexivity. congruence.
Qed.

(** ** The callback search *)

Section TextSearch.

Variables (srv : Server) (pages : list (list Repository)) (query : string).

Let P := fake srv.
Let E := fake_services (text_search_backend pages).

Lemma text_search_request (opt : ListOptions) (i : nat) (w : FakeWorld) :
  eff_page (Page opt) = Z.of_nat i + 1 ->
  let next := if (i + 1 <? length pages)%nat then Z.of_nat i + 2 else 0 in
  RetryExponentialBackoff P retries_9999 time_Second
    (attempt P (Search_Repositories_text E query {| Sort := ""; SO_ListOptions := opt |}))
    (None, None) w
  = (Done ([], (Some {| Repositories := nth i pages [] |},
                Some (response StatusOK next))),
     fake_observe (Some (response StatusOK next)) (log_request (ReqList opt) w)).
Proof.
  intros Hpage next. destruct retries_9999_positive as [k ->].
  apply retry_first_success. apply attempt_success; [|reflexivity].
  cbn [Search_Repositories_text E fake_services text_search_backend bk_SearchText].
  unfold serve_repo_pages. cbn [SO_ListOptions].
  rewrite (serve_page_at pages opt i Hpage). reflexivity.
Qed.

Lemma SearchReposWithCallback_loop_step {S : Type}
    (f : list Repository -> S -> bool * S)
    (n i : nat) (opt : ListOptions) (s : S) (w : FakeWorld) :
  eff_page (Page opt) = Z.of_nat i + 1 ->
  let next := if (i + 1 <? length pages)%nat then Z.of_nat i + 2 else 0 in
  let w1 := fake_observe (Some (response StatusOK next)) (log_request (ReqList opt) w) in
  SearchReposWithCallback_loop P E (Datatypes.S n) query
    (fun pg st => ret (f pg st)) opt s w =
  match f (nth i pages []) s with
  | (false, s') => (Done (None, s'), w1)
  | (true, s') =>
      if next =? 0 then (Done (None, s'), w1)
      else SearchReposWithCallback_loop P E n query (fun pg st => ret (f pg st))
             {| Page := next; PerPage := PerPage opt |} s' w1
  end.
Proof.
  intros Hpage next w1.
  cbn [SearchReposWithCallback_loop]. unfold bind at 1.
  rewrite (text_search_request opt i w Hpage).
  cbn [length Nat.eqb negb]. unfold bind at 1. cbn [deref ret].
  change (StatusCode (response StatusOK ?x) =? StatusNotFound) with false. cbv iota.
  unfold bind at 1. cbn [deref ret Repositories]. unfold bind at 1. cbn [ret].
  destruct (f (nth i pages []) s) as [[|] s']; cbn [negb]; [|reflexivity].
  change (NextPage (response StatusOK ?x)) with x. fold next.
  destruct (next =? 0); reflexivity.
Qed.

Lemma SearchReposWithCallback_loop_feeds {S : Type}
    (f : list Repository -> S -> bool * S) :
  forall (n i : nat) (opt : ListOptions) (s : S) (w : FakeWorld),
    (i + Datatypes.S n = length pages)%nat ->
    eff_page (Page opt) = Z.of_nat i + 1 ->
    exists w',
      SearchReposWithCallback_loop P E (Datatypes.S n) query
        (fun pg st => ret (f pg st)) opt s w
      = (Done (None, feed f (drop i pages) s), w') /\
      calls w' = (calls w + pages_fed f (drop i pages) s)%nat.
Proof.
  induction n as [|n IH]; intros i opt s w Hlen Hpage;
    rewrite (SearchReposWithCallback_loop_step f _ i opt s w Hpage);
    rewrite (drop_nth [] pages i) by lia; cbn [feed pages_fed];
    destruct (f (nth i pages []) s) as [[|] s'].
  - destruct (Nat.ltb_spec (i + 1) (length pages)); [lia|].
    rewrite drop_ge by lia. cbn [feed pages_fed Z.eqb].
    eexists. split; [reflexivity|]. rewrite calls_observe_log. lia.
  - eexists. split; [reflexivity|]. rewrite calls_observe_log. lia.
  - destruct (Nat.ltb_spec (i + 1) (length pages)); [|lia].
    destruct (Z.eqb_spec (Z.of_nat i + 2) 0); [lia|].
    match goal with |- context [SearchReposWithCallback_loop _ _ _ _ _ ?op _ ?w1] =>
      destruct (IH (Datatypes.S i) op s' w1) as (w' & Hrun & Hcalls) end; [lia| |].
    { cbn [Page]. unfold eff_page. destruct (Z.leb_spec (Z.of_nat i + 2) 0); lia. }
    exists w'. split; [exact Hrun|]. rewrite Hcalls, calls_observe_log. lia.
  - eexists. split; [reflexivity|]. rewrite calls_observe_log. lia.
Qed.

End TextSearch.

(** X7: against an endpoint that serves the results in pages,
    [SearchReposWithCallback] hands the callback the pages in order, one
    request per page, and stops after the first page at which the callback
    answers false, or after the last page; it returns no error and leaves
    the callback in the state [feed] describes. *)
Theorem SearchReposWithCallback_feeds_pages_in_order
    (S : Type) (srv : Server) (pages : list (list Repository)) (query : string)
    (f : list Repository -> S -> bool * S) (s : S) (w : FakeWorld) :
  pages <> [] ->
  query <> "" ->
  exists w',
    SearchReposWithCallback (fake srv) (fake_services (text_search_backend pages))
      (length pages) query (fun pg st => ret (f pg st)) s w
    = (Done (None, feed f pages s), w') /\
    calls w' = (calls w + pages_fed f pages s)%nat.
Proof.
  intros Hpages Hquery. unfold SearchReposWithCallback.
  destruct (String.eqb_spec query ""); [contradiction|].
  destruct pages as [|pg rest]; [congruence|].
  apply (SearchReposWithCallback_loop_feeds srv (pg :: rest) query f (length rest) 0);
    reflexivity.
Qed.

Lemma SearchReposWithCallback_feeds_pages_in_order_witness :
  let a := repo_of "o/a" 1 in
  let b := repo_of "o/b" 5 in
  let count := fun (pg : list Repository) (seen : nat) =>
                 ((seen + length pg <? 2)%nat, (seen + length pg)%nat) in
  exists w',
    SearchReposWithCallback (fake null_server)
      (fake_services (text_search_backend [[a]; [b]; [a; b]])) 3 "topic:x"
      (fun pg st => ret (count pg st)) 0%nat world0
    = (Done (None, 2%nat), w') /\
    calls w' = 2%nat.
Proof.
  intros a b count.
  destruct (SearchReposWithCallback_feeds_pages_in_order nat null_server
              [[a]; [b]; [a; b]] "topic:x" count 0%nat world0) as (w' & Hrun & Hcalls);
    [discriminate|discriminate|].
  exists w'. split; [exact Hrun|exact Hcalls].
Defined.

(** ** [SearchRepos] *)

Section Collect.

Variable opts : SearchReposOpts.

Let kept (l : list Repository) : list Repository :=
  List.filter (has_min_stars (SR_MinStars opts)) l.

Lemma limit_prefix_short {A : Type} (limit : Z) (l : list A) :
  (limit > 0 -> Z.of_nat (length l) <= limit) -> limit_prefix limit l = l.
Proof.
  intros H. unfold limit_prefix. destruct (Z.gtb_spec limit 0); [|reflexivity].
  apply take_ge. lia.
Qed.

Lemma collect_repos_spec :
  forall (pg acc : list Repository),
    (SR_Limit opts > 0 -> Z.of_nat (length acc) < SR_Limit opts) ->
    collect_repos opts pg acc =
    (negb ((SR_Limit opts >? 0) &&
           (Z.of_nat (length (acc ++ kept pg)) >=? SR_Limit opts)),
     limit_prefix (SR_Limit opts) (acc ++ kept pg)).
Proof.
  unfold kept.
  induction pg as [|r pg IH]; intros acc Hacc.
  - cbn [collect_repos List.filter]. rewrite app_nil_r.
    rewrite limit_prefix_short by (intros H; specialize (Hacc H); lia).
    destruct (Z.gtb_spec (SR_Limit opts) 0) as [Hpos|]; [|reflexivity].
    destruct (Z.geb_spec (Z.of_nat (length acc)) (SR_Limit opts)); [|reflexivity].
    specialize (Hacc ltac:(lia)). lia.
  - cbn [collect_repos List.filter].
    change (has_min_stars (SR_MinStars opts) r)
      with (negb (GetStargazersCount r <? SR_MinStars opts)).
    destruct (GetStargazersCount r <? SR_MinStars opts); cbn [negb];
      [apply IH; exact Hacc|].
    rewrite length_app. cbn [length].
    replace (acc ++ r :: List.filter (has_min_stars (SR_MinStars opts)) pg)
      with ((acc ++ [r]) ++ List.filter (has_min_stars (SR_MinStars opts)) pg)
      by (rewrite <- app_assoc; reflexivity).
    destruct (Z.gtb_spec (SR_Limit opts) 0) as [Hpos|Hnon]; cbn [andb].
    + destruct (Z.geb_spec (Z.of_nat (length acc + 1)) (SR_Limit opts)) as [Hge|Hlt].
      * specialize (Hacc ltac:(lia)).
        destruct (Z.geb_spec
                    (Z.of_nat (length ((acc ++ [r]) ++
                       List.filter (has_min_stars (SR_MinStars opts)) pg)))
                    (SR_Limit opts)) as [_|Hlt].
        -- cbn [negb]. f_equal. unfold limit_prefix.
           destruct (Z.gtb_spec (SR_Limit opts) 0); [|lia].
           rewrite take_app_le by (rewrite length_app; cbn [length]; lia).
           symmetry. apply take_ge. rewrite length_app. cbn [length]. lia.
        -- rewrite !length_app in Hlt. cbn [length] in Hlt. lia.
      * rewrite IH by (intros _; rewrite length_app; cbn [length]; lia).
        destruct (Z.gtb_spec (SR_Limit opts) 0); [|lia]. reflexivity.
    + rewrite IH by (intros H; lia).
      destruct (Z.gtb_spec (SR_Limit opts) 0); [lia|]. reflexivity.
Qed.

Lemma feed_collect_repos :
  forall (pages : list (list Repository)) (acc : list Repository),
    (SR_Limit opts > 0 -> Z.of_nat (length acc) < SR_Limit opts) ->
    feed (collect_repos opts) pages acc
    = limit_prefix (SR_Limit opts) (acc ++ kept (concat pages)).
Proof.
  unfold kept.
  induction pages as [|pg rest IH]; intros acc Hacc.
  - cbn [feed concat List.filter]. rewrite app_nil_r.
    symmetry. apply limit_prefix_short. intros H. specialize (Hacc H). lia.
  - cbn [feed concat]. rewrite (collect_repos_spec pg acc Hacc). unfold kept.
    rewrite List.filter_app, app_assoc.
    set (now := acc ++ List.filter (has_min_stars (SR_MinStars opts)) pg).
    destruct (Z.gtb_spec (SR_Limit opts) 0) as [Hpos|Hnon]; cbn [andb].
    + destruct (Z.geb_spec (Z.of_nat (length now)) (SR_Limit opts)) as [Hge|Hlt];
        cbn [negb].
      * unfold limit_prefix. destruct (Z.gtb_spec (SR_Limit opts) 0); [|lia].
        rewrite take_app_le by lia. reflexivity.
      * rewrite limit_prefix_short by lia. apply IH. intros _. exact Hlt.
    + cbn [negb]. rewrite limit_prefix_short by lia. apply IH. intros H. lia.
Qed.

End Collect.

(** X8: against an endpoint that serves the results in pages, [SearchRepos]
    returns the repositories with at least [MinStars] stars in the order
    of the pages, cut after the first [Limit] of them when the limit is
    positive; a repository below the floor is passed over and does not end
    the search. *)
Theorem SearchRepos_filters_and_limits
    (srv : Server) (pages : list (list Repository)) (opts : SearchReposOpts)
    (w : FakeWorld) :
  pages <> [] ->
  SR_Query opts <> "" ->
  fst (SearchRepos (fake srv) (fake_services (text_search_backend pages))
         (length pages) (Some opts) w)
  = Done (Ok (limit_prefix (SR_Limit opts)
                (List.filter (has_min_stars (SR_MinStars opts)) (concat pages)))).
Proof.
  intros Hpages Hquery. unfold SearchRepos, Validate_SearchReposOpts.
  destruct (String.eqb_spec (SR_Query opts) ""); [contradiction|].
  unfold bind at 1.
  destruct pages as [|pg rest]; [congruence|].
  unfold SearchReposWithCallback.
  destruct (String.eqb_spec (SR_Query opts) ""); [contradiction|].
  destruct (SearchReposWithCallback_loop_feeds srv (pg :: rest) (SR_Query opts)
              (collect_repos opts) (length rest) 0 {| Page := 0; PerPage := 100 |}
              [] w) as (w' & Hrun & _); [reflexivity|reflexivity|].
  cbn [length]. rewrite Hrun. cbn [ret fst drop].
  rewrite (feed_collect_repos opts (pg :: rest) []); [reflexivity|].
  intros H. cbn [length]. lia.
Qed.

Lemma SearchRepos_filters_and_limits_witness :
  let pages := [[repo_of "o/a" 1; repo_of "o/b" 5]; [repo_of "o/c" 7];
                [repo_of "o/d" 9; repo_of "o/e" 0]] in
  fst (SearchRepos (fake null_server) (fake_services (text_search_backend pages)) 3
         (Some {| SR_Query := "topic:x"; SR_MinStars := 2; SR_Limit := 2 |}) world0)
  = Done (Ok [repo_of "o/b" 5; repo_of "o/c" 7]).
Proof.
  intros pages.
  apply (SearchRepos_filters_and_limits null_server pages
           {| SR_Query := "topic:x"; SR_MinStars := 2; SR_Limit := 2 |} world0);
    discriminate.
Defined.

(** ** [SearchCode] *)

Lemma range_code_spec (limit : Z) :
  forall (pg acc : list CodeResult),
    (limit > 0 -> Z.of_nat (length acc) < limit) ->
    range_code limit pg acc =
    (limit_prefix limit (acc ++ pg),
     (limit >? 0) && (Z.of_nat (length (acc ++ pg)) >=? limit)).
Proof.
  induction pg as [|c pg IH]; intros acc Hacc.
  - cbn [range_code]. rewrite app_nil_r.
    rewrite limit_prefix_short by (intros H; specialize (Hacc H); lia).
    destruct (Z.gtb_spec limit 0) as [Hpos|]; [|reflexivity].
    destruct (Z.geb_spec (Z.of_nat (length acc)) limit); [|reflexivity].
    specialize (Hacc ltac:(lia)). lia.
  - cbn [range_code]. rewrite length_app. cbn [length].
    replace (acc ++ c :: pg) with ((acc ++ [c]) ++ pg)
      by (rewrite <- app_assoc; reflexivity).
    destruct (Z.gtb_spec limit 0) as [Hpos|Hnon]; cbn [andb].
    + destruct (Z.geb_spec (Z.of_nat (length acc + 1)) limit) as [Hge|Hlt].
      * specialize (Hacc ltac:(lia)).
        destruct (Z.geb_spec (Z.of_nat (length ((acc ++ [c]) ++ pg))) limit)
          as [_|Hlt].
        -- f_equal. unfold limit_prefix. destruct (Z.gtb_spec limit 0); [|lia].
           rewrite take_app_le by (rewrite length_app; cbn [length]; lia).
           symmetry. apply take_ge. rewrite length_app. cbn [length]. lia.
        -- rewrite !length_app in Hlt. cbn [length] in Hlt. lia.
      * rewrite IH by (intros _; rewrite length_app; cbn [length]; lia).
        destruct (Z.gtb_spec limit 0); [|lia]. reflexivity.
    + rewrite IH by (intros H; lia).
      destruct (Z.gtb_spec limit 0); [lia|]. reflexivity.
Qed.

Section CodeSearch.

Variables (srv : Server) (pages : list (list CodeResult)) (o : SearchCodeOpts).

Let P := fake srv.
Let E := fake_services (code_search_backend pages).

Lemma code_search_request (opt : ListOptions) (i : nat) (w : FakeWorld) :
  eff_page (Page opt) = Z.of_nat i + 1 ->
  let next := if (i + 1 <? length pages)%nat then Z.of_nat i + 2 else 0 in
  RetryExponentialBackoff P retries_9999 time_Second
    (attempt P (Search_Code E (SC_Query o) {| Sort := ""; SO_ListOptions := opt |}))
    (None, None) w
  = (Done ([], (Some {| CodeResults := nth i pages [] |},
                Some (response StatusOK next))),
     fake_observe (Some (response StatusOK next)) (log_request (ReqList opt) w)).
Proof.
  intros Hpage next. destruct retries_9999_positive as [k ->].
  apply retry_first_success. apply attempt_success; [|reflexivity].
  cbn [Search_Code E fake_services code_search_backend bk_SearchCode].
  unfold serve_code_pages. cbn [SO_ListOptions].
  rewrite (serve_page_at pages opt i Hpage). reflexivity.
Qed.

Lemma SearchCode_loop_prefix :
  forall (n i : nat) (opt : ListOptions) (acc : list CodeResult) (w : FakeWorld),
    (i + Datatypes.S n = length pages)%nat ->
    eff_page (Page opt) = Z.of_nat i + 1 ->
    (SC_Limit o > 0 -> Z.of_nat (length acc) < SC_Limit o) ->
    fst (SearchCode_loop P E (Datatypes.S n) o opt acc w)
    = Done (Ok (limit_prefix (SC_Limit o) (acc ++ concat (drop i pages)))).
Proof.
  induction n as [|n IH]; intros i opt acc w Hlen Hpage Hacc;
    cbn [SearchCode_loop]; unfold bind at 1;
    rewrite (code_search_request opt i w Hpage);
    cbn [length Nat.eqb negb]; unfold bind at 1; cbn [deref ret];
    change (StatusCode (response StatusOK ?x) =? StatusNotFound) with false; cbv iota;
    unfold bind at 1; cbn [deref ret CodeResults];
    rewrite (range_code_spec (SC_Limit o) (nth i pages []) acc Hacc);
    rewrite (drop_nth [] pages i) by lia; cbn [concat]; rewrite app_assoc;
    set (now := acc ++ nth i pages []);
    change (NextPage (response StatusOK ?x)) with x.
  - rewrite drop_ge by lia. cbn [concat]. rewrite app_nil_r.
    destruct ((SC_Limit o >? 0) && (Z.of_nat (length now) >=? SC_Limit o));
      [reflexivity|].
    destruct (Nat.ltb_spec (i + 1) (length pages)); [lia|]. reflexivity.
  - destruct (Z.gtb_spec (SC_Limit o) 0) as [Hpos|Hnon]; cbn [andb].
    + destruct (Z.geb_spec (Z.of_nat (length now)) (SC_Limit o)) as [Hge|Hlt].
      * cbn [fst]. do 2 f_equal. unfold limit_prefix.
        destruct (Z.gtb_spec (SC_Limit o) 0); [|lia].
        rewrite take_app_le by lia. reflexivity.
      * destruct (Nat.ltb_spec (i + 1) (length pages)); [|lia].
        destruct (Z.eqb_spec (Z.of_nat i + 2) 0); [lia|].
        rewrite limit_prefix_short by lia. apply IH; [lia| |intros _; exact Hlt].
        cbn [Page]. unfold eff_page. destruct (Z.leb_spec (Z.of_nat i + 2) 0); lia.
    + destruct (Nat.ltb_spec (i + 1) (length pages)); [|lia].
      destruct (Z.eqb_spec (Z.of_nat i + 2) 0); [lia|].
      rewrite limit_prefix_short by lia. apply IH; [lia| |intros Hl; lia].
      cbn [Page]. unfold eff_page. destruct (Z.leb_spec (Z.of_nat i + 2) 0); lia.
Qed.

End CodeSearch.

(** X9: against an endpoint that serves the results in pages, [SearchCode]
    returns the results of all pages in order, cut after the first [Limit]
    of them when the limit is positive. *)
Theorem SearchCode_returns_limited_prefix
    (srv : Server) (pages : list (list CodeResult)) (opts : SearchCodeOpts)
    (w : FakeWorld) :
  pages <> [] ->
  SC_Query opts <> "" ->
  fst (SearchCode (fake srv) (fake_services (code_search_backend pages))
         (length pages) (Some opts) w)
  = Done (Ok (limit_prefix (SC_Limit opts) (concat pages))).
Proof.
  intros Hpages Hquery. unfold SearchCode, Validate_SearchCodeOpts.
  destruct (String.eqb_spec (SC_Query opts) ""); [contradiction|].
  destruct pages as [|pg rest]; [congruence|].
  apply (SearchCode_loop_prefix srv (pg :: rest) opts (length rest) 0
           {| Page := 0; PerPage := 100 |} [] w); [reflexivity|reflexivity|].
  intros H. cbn [length]. lia.
Qed.

Lemma SearchCode_returns_limited_prefix_witness :
  let hit := fun n => {| CodeName := Some n; CodePath := None |} in
  fst (SearchCode (fake null_server)
         (fake_services (code_search_backend [[hit "a"; hit "b"]; [hit "c"]; [hit "d"]]))
         3 (Some {| SC_Query := "func main"; SC_Limit := 3 |}) world0)
  = Done (Ok [hit "a"; hit "b"; hit "c"]).
Proof.
  intros hit.
  apply (SearchCode_returns_limited_prefix null_server
           [[hit "a"; hit "b"]; [hit "c"]; [hit "d"]]
           {| SC_Query := "func main"; SC_Limit := 3 |} world0); discriminate.
Defined.

(** ** A visitor that halts the walk *)

Lemma through_first_app {A : Type} (stop : A -> bool) (a b : list A) :
  through_first stop (a ++ b) =
  if existsb stop a then through_first stop a else a ++ through_first stop b.
Proof.
  induction a as [|x a IH]; [reflexivity|].
  cbn [app through_first existsb]. destruct (stop x); [reflexivity|].
  cbn [orb]. rewrite IH. destruct (existsb stop a); reflexivity.
Qed.

Lemma through_first_none {A : Type} (stop : A -> bool) (l : list A) :
  existsb stop l = false -> through_first stop l = l.
Proof.
  induction l as [|x l IH]; [reflexivity|]. cbn [existsb through_first].
  destruct (stop x); [discriminate|]. cbn [orb]. intros H. rewrite IH by exact H.
  reflexivity.
Qed.

Section Halting.

Variables (root : Tree) (r : Params) (stop : RepositoryContent -> bool) (e : error).

Hypothesis root_paths : NoDup (dir_paths root).
Hypothesis r_valid : Validate r = None.

Let P := fake (tree_server root []).

Lemma walkFiles_halts :
  forall (fuel : nat) (l : list Tree) (w : FakeWorld),
    Forall (fun t => In t (subtrees root)) l ->
    (list_max (map depth l) <= fuel)%nat ->
    exists w',
      walkFiles P (Datatypes.S fuel) r (visit_until stop e) (map node_content l) w
      = (Done (if existsb stop (flat_map visit_order l) then Some e else None), w') /\
      fw_visited w' = fw_visited w ++ through_first stop (flat_map visit_order l).
Proof.
  unfold P. induction fuel as [fuel IHfuel] using lt_wf_ind.
  induction l as [|t l IHl]; intros w Hsub Hdepth.
  - exists w. split; [reflexivity|]. cbn. rewrite app_nil_r. reflexivity.
  - inversion Hsub as [|? ? Ht Hl]; subst.
    change (list_max (map depth (t :: l)))
      with (Nat.max (depth t) (list_max (map depth l))) in Hdepth.
    cbn [flat_map]. rewrite existsb_app, through_first_app.
    destruct t as [p|p cs].
    + cbn [map]. rewrite (walkFiles_file root r) by reflexivity.
      unfold bind at 1. cbn [visit_until visit_order existsb through_first orb].
      destruct (stop (node_content (File p))); cbn [orb].
      * eexists. split; [reflexivity|]. reflexivity.
      * match goal with |- context [walkFiles _ _ _ _ _ ?w1] =>
          destruct (IHl w1 Hl ltac:(lia)) as (w' & Hrun & Hvis) end.
        exists w'. split; [exact Hrun|]. rewrite Hvis. cbn [fw_visited].
        rewrite <- app_assoc. reflexivity.
    + cbn [depth] in Hdepth. destruct fuel as [|fuel']; [lia|].
      assert (Hcs : Forall (fun t => In t (subtrees root)) cs).
      { apply Forall_forall. intros c Hc. apply list_elem_of_In in Hc.
        exact (subtrees_trans root c p cs Ht Hc). }
      cbn [map]. rewrite (walkFiles_dir root r root_paths r_valid _ _ p cs _ w Ht).
      set (w1 := fake_observe (Some (response StatusOK 0))
                   (log_request (ReqContents p) w)).
      destruct (IHfuel fuel' ltac:(lia) cs w1 Hcs ltac:(lia)) as (w2 & Hrun2 & Hvis2).
      unfold bind at 1. rewrite Hrun2.
      cbn [visit_order]. rewrite existsb_app, through_first_app.
      destruct (existsb stop (flat_map visit_order cs)) eqn:Hin; cbn [orb];
        [|rewrite (through_first_none stop _ Hin) in Hvis2].
      * exists w2. split; [reflexivity|]. rewrite Hvis2. reflexivity.
      * unfold bind at 1. cbn [visit_until existsb through_first orb].
        destruct (stop (node_content (Dir p cs))); cbn [orb].
        -- eexists. split; [reflexivity|]. cbn [fw_visited]. rewrite Hvis2.
           subst w1. cbn [fw_visited fake_observe log_request].
           rewrite <- app_assoc. reflexivity.
        -- match goal with |- context [walkFiles _ _ _ _ _ ?w3] =>
             destruct (IHl w3 Hl ltac:(lia)) as (w' & Hrun & Hvis) end.
           exists w'. split; [exact Hrun|]. rewrite Hvis. cbn [fw_visited].
           rewrite Hvis2. subst w1. cbn [fw_visited fake_observe log_request].
           rewrite <- !app_assoc. reflexivity.
Qed.

End Halting.

(** X10: when the visitor reports a failure at a node, the walk of a
    well-formed tree returns that failure, and the visitor has seen the
    nodes of the walk up to and with that node and no node after it:
    neither the remaining siblings nor the directories above, whose visit
    would have come later. *)
Theorem WalkFiles_halts_at_visitor_failure
    (path : string) (children : list Tree) (r : Params)
    (stop : RepositoryContent -> bool) (e : error) (w : FakeWorld) :
  let root := Dir path children in
  let order := flat_map visit_order children in
  NoDup (dir_paths root) ->
  Validate r = None ->
  params_path r = path ->
  exists w',
    WalkFiles (fake (tree_server root [])) (depth root) r (visit_until stop e) w
    = (Done (if existsb stop order then Some e else None), w') /\
    fw_visited w' = fw_visited w ++ through_first stop order.
Proof.
  intros root order Hnd Hvalid Hpath.
  assert (Hroot : In (Dir path children) (subtrees root)) by (left; reflexivity).
  assert (Hsub : Forall (fun t => In t (subtrees root)) children).
  { apply Forall_forall. intros c Hc. apply list_elem_of_In in Hc.
    exact (subtrees_trans root c path children Hroot Hc). }
  set (w1 := fake_observe (Some (response StatusOK 0))
               (log_request (ReqContents path) w)).
  destruct (walkFiles_halts root r stop e Hnd Hvalid
              (list_max (map depth children)) children w1 Hsub (le_n _))
    as (w' & Hrun & Hvis).
  exists w'. split; [|exact Hvis].
  unfold WalkFiles. rewrite Hvalid. unfold bind at 1.
  rewrite Hpath, (ListContents_subtree root r Hnd Hvalid path children w Hroot).
  unfold bind at 1. rewrite onResponse_run.
  unfold bind at 1. rewrite handleRateLimitError_nil.
  exact Hrun.
Qed.

Lemma WalkFiles_halts_at_visitor_failure_witness :
  let at_sub := fun v : RepositoryContent => String.eqb (GetPath v) "root/sub" in
  let tree :=
    [Dir "root/sub" [File "root/sub/b.txt"]; File "root/a.txt"; Dir "root/z" []] in
  exists w',
    WalkFiles (fake (tree_server (Dir "root" tree) [])) 3 (walk_of "o" "r" "root")
      (visit_until at_sub (ErrorString "enough")) world0
    = (Done (Some (ErrorString "enough")), w') /\
    fw_visited w' = [b_txt; sub].
Proof.
  intros at_sub tree.
  apply (WalkFiles_halts_at_visitor_failure "root" tree (walk_of "o" "r" "root")
           at_sub (ErrorString "enough") world0).
  - apply (bool_decide_unpack _). vm_compute. exact I.
  - reflexivity.
  - reflexivity.
Defined.

(** ** The shadow-member scan *)

Lemma range_commits_same_clock (s1 s2 : Server) (maxAge : Z) :
  srv_tick s1 = srv_tick s2 ->
  forall (commits acc : list RepositoryCommit) (w : FakeWorld),
    range_commits (fake s1) maxAge commits acc w
    = range_commits (fake s2) maxAge commits acc w.
Proof.
  intros Htick. induction commits as [|c commits IH]; intros acc w; [reflexivity|].
  cbn [range_commits]. unfold bind at 1 3. unfold now.
  cbn [time_Now fake]. rewrite Htick.
  destruct (fake_Now (srv_tick s2) w) as [t w1].
  unfold bind. destruct (RCommit c) as [cm|]; cbn [deref ret panic]; [|reflexivity].
  destruct (negb (time_Sub t (GetDate (CAuthor cm)) >? maxAge)); [apply IH|reflexivity].
Qed.

Lemma fresh_prefix_frozen_app (t maxAge : Z) (l rest : list RepositoryCommit) :
  fresh_prefix t 0 maxAge (l ++ rest) =
  if (length (fresh_prefix t 0 maxAge l) <? length l)%nat
  then fresh_prefix t 0 maxAge l
  else l ++ fresh_prefix t 0 maxAge rest.
Proof.
  rewrite (fresh_prefix_app 0 maxAge l rest t).
  replace (t + 0 * Z.of_nat (length l)) with t by lia. reflexivity.
Qed.

Section ByAuthor.

Variables (commits_of : string -> list (list RepositoryCommit)).
Variables (owner repo : string) (maxAge : Z).

Let P := fake (commits_by_author_server 0 commits_of).

Lemma ListCommits_loop_by_author (path author : string) :
  forallb has_commit (concat (commits_of author)) = true ->
  forall (fuel i : nat) (opt lo : ListOptions) (acc : list RepositoryCommit)
         (w : FakeWorld),
    (1 <= fuel)%nat ->
    (length (commits_of author) - i <= fuel)%nat ->
    eff_page (Page opt) = Z.of_nat i + 1 ->
    exists w',
      ListCommits_loop P fuel owner repo
        {| CLO_Path := path; CLO_Author := author; CLO_ListOptions := lo |}
        maxAge opt acc w
      = (Done (Ok (acc ++
                   if maxAge >? 0
                   then fresh_prefix (fw_now w) 0 maxAge
                          (concat (drop i (commits_of author)))
                   else concat (drop i (commits_of author)))), w') /\
      fw_now w' = fw_now w.
Proof.
  intros Hc. set (pages := commits_of author) in *.
  induction fuel as [|fuel IH]; intros i opt lo acc w Hpos Hfuel Hpage; [lia|].
  cbn [ListCommits_loop]. unfold bind at 1.
  erewrite retry_first_success; cycle 1.
  { apply attempt_success.
    - cbn [Repositories_ListCommits P fake commits_by_author_server srv_ListCommits
           CLO_ListOptions CLO_Author]. fold pages.
      rewrite (serve_page_at pages opt i Hpage). reflexivity.
    - reflexivity. }
  cbn [length Nat.eqb negb]. unfold bind at 1. cbn [deref ret].
  change (StatusCode (response StatusOK ?x) =? StatusNotFound) with false. cbv iota.
  change (observed P ?x ?y) with (fake_observe x y).
  change (NextPage (response StatusOK ?x)) with x.
  cbn [CLO_Path CLO_Author].
  set (w1 := fake_observe _ _).
  assert (Hnow1 : fw_now w1 = fw_now w) by reflexivity.
  assert (Hsplit : concat (drop i pages) = nth i pages [] ++ concat (drop (Datatypes.S i) pages)).
  { destruct (Nat.lt_ge_cases i (length pages)) as [Hlt|Hge].
    - rewrite (drop_nth [] pages i Hlt). reflexivity.
    - rewrite !drop_ge by lia. rewrite nth_overflow by lia. reflexivity. }
  assert (Hc1 : forallb has_commit (nth i pages []) = true).
  { destruct (Nat.lt_ge_cases i (length pages)) as [Hlt|Hge].
    - rewrite <- (take_drop i pages), concat_app, forallb_app in Hc.
      apply andb_true_iff in Hc as [_ Hc]. rewrite Hsplit, forallb_app in Hc.
      apply andb_true_iff in Hc as [Hc _]. exact Hc.
    - rewrite nth_overflow by lia. reflexivity. }
  rewrite Hsplit.
  destruct (Z.gtb_spec maxAge 0) as [Hage|Hage].
  - unfold bind at 1.
    unfold P.
    rewrite (range_commits_same_clock (commits_by_author_server 0 commits_of)
               (commits_server 0 []) maxAge eq_refl).
    destruct (range_commits_fresh_prefix 0 maxAge [] (nth i pages []) acc w1 Hc1)
      as (w2 & Hrun & Hnow2 & Hreq2).
    rewrite Hrun, Hnow1. rewrite fresh_prefix_frozen_app.
    replace (fw_now w + 0 * _) with (fw_now w) in Hnow2 by lia.
    destruct (Nat.ltb_spec (length (fresh_prefix (fw_now w) 0 maxAge (nth i pages [])))
                (length (nth i pages []))) as [Hlt|Hge].
    + exists w2. split; [reflexivity|exact Hnow2].
    + pose proof (fresh_prefix_length 0 maxAge (fw_now w) (nth i pages [])) as Hle.
      rewrite (fresh_prefix_full 0 maxAge (nth i pages []) (fw_now w)) by lia.
      destruct (Nat.ltb_spec (i + 1) (length pages)) as [Hmore|Hlast].
      * destruct (Z.eqb_spec (Z.of_nat i + 2) 0); [lia|].
        destruct fuel as [|fuel]; [lia|].
        destruct (IH (Datatypes.S i) {| Page := Z.of_nat i + 2; PerPage := PerPage opt |}
                    opt (acc ++ nth i pages []) w2) as (w' & Hrun' & Hnow'); [lia|lia| |].
        { cbn [Page]. unfold eff_page. destruct (Z.leb_spec (Z.of_nat i + 2) 0); lia. }
        exists w'. fold P. rewrite Hrun'. destruct (Z.gtb_spec maxAge 0); [|lia].
        rewrite Hnow2, <- app_assoc. split; [reflexivity|lia].
      * cbn [Z.eqb]. rewrite (drop_ge pages (Datatypes.S i)) by lia. cbn [concat fresh_prefix].
        rewrite app_nil_r. exists w2. split; [reflexivity|exact Hnow2].
  - unfold bind at 1. cbn [ret].
    destruct (Nat.ltb_spec (i + 1) (length pages)) as [Hmore|Hlast].
    + destruct (Z.eqb_spec (Z.of_nat i + 2) 0); [lia|].
      destruct fuel as [|fuel]; [lia|].
      destruct (IH (Datatypes.S i) {| Page := Z.of_nat i + 2; PerPage := PerPage opt |}
                  opt (acc ++ nth i pages []) w1) as (w' & Hrun' & Hnow'); [lia|lia| |].
      { cbn [Page]. unfold eff_page. destruct (Z.leb_spec (Z.of_nat i + 2) 0); lia. }
      exists w'. rewrite Hrun'. destruct (Z.gtb_spec maxAge 0); [lia|].
      rewrite <- app_assoc. split; [reflexivity|lia].
    + cbn [Z.eqb]. rewrite (drop_ge pages (Datatypes.S i)) by lia. cbn [concat].
      rewrite app_nil_r. exists w1. split; [reflexivity|exact Hnow1].
Qed.


Lemma ListCommitsByAuthor_listed (fuel : nat) (author : string) (w : FakeWorld) :
  (1 <= fuel)%nat ->
  (length (commits_of author) <= fuel)%nat ->
  forallb has_commit (concat (commits_of author)) = true ->
  exists w',
    ListCommitsByAuthor P fuel owner repo author maxAge w
    = (Done (Ok (listed commits_of maxAge (fw_now w) author)), w') /\
    fw_now w' = fw_now w.
Proof.
  intros Hpos Hfuel Hc. unfold ListCommitsByAuthor, ListCommits.
  destruct (ListCommits_loop_by_author "" author Hc fuel 0
              {| Page := 0; PerPage := 100 |} {| Page := 0; PerPage := 0 |} [] w)
    as (w' & Hrun & Hnow); [exact Hpos|lia|reflexivity|].
  exists w'. split; [|exact Hnow]. exact Hrun.
Qed.

Variables (cpages : list (list Contributor)).

Let E := fake_services (contributors_backend cpages never_exiting).

Lemma ListContributors_loop_pages :
  forall (fuel i : nat) (opt : ListOptions) (acc : list Contributor) (w : FakeWorld),
    (1 <= fuel)%nat ->
    (length cpages - i <= fuel)%nat ->
    eff_page (Page opt) = Z.of_nat i + 1 ->
    exists w',
      ListContributors_loop P E fuel owner repo opt acc w
      = (Done (Ok (acc ++ concat (drop i cpages))), w') /\
      fw_now w' = fw_now w.
Proof.
  induction fuel as [|fuel IH]; intros i opt acc w Hpos Hfuel Hpage; [lia|].
  cbn [ListContributors_loop]. unfold bind at 1.
  erewrite retry_first_success; cycle 1.
  { apply attempt_success.
    - cbn [Repositories_ListContributors E fake_services contributors_backend
           bk_Contributors].
      rewrite (serve_page_at cpages opt i Hpage). reflexivity.
    - reflexivity. }
  cbn [length Nat.eqb negb]. unfold bind at 1. cbn [deref ret].
  change (StatusCode (response StatusOK ?x) =? StatusNotFound) with false. cbv iota.
  change (observed P ?x ?y) with (fake_observe x y).
  change (NextPage (response StatusOK ?x)) with x.
  set (w1 := fake_observe _ _).
  assert (Hsplit : concat (drop i cpages)
                   = nth i cpages [] ++ concat (drop (Datatypes.S i) cpages)).
  { destruct (Nat.lt_ge_cases i (length cpages)) as [Hlt|Hge].
    - rewrite (drop_nth [] cpages i Hlt). reflexivity.
    - rewrite !drop_ge by lia. rewrite nth_overflow by lia. reflexivity. }
  rewrite Hsplit.
  destruct (Nat.ltb_spec (i + 1) (length cpages)) as [Hmore|Hlast].
  - destruct (Z.eqb_spec (Z.of_nat i + 2) 0); [lia|].
    destruct fuel as [|fuel]; [lia|].
    destruct (IH (Datatypes.S i) {| Page := Z.of_nat i + 2; PerPage := PerPage opt |}
                (acc ++ nth i cpages []) w1) as (w' & Hrun' & Hnow'); [lia|lia| |].
    { cbn [Page]. unfold eff_page. destruct (Z.leb_spec (Z.of_nat i + 2) 0); lia. }
    exists w'. rewrite Hrun', <- app_assoc. split; [reflexivity|exact Hnow'].
  - cbn [Z.eqb]. rewrite (drop_ge cpages (Datatypes.S i)) by lia. cbn [concat].
    rewrite app_nil_r. exists w1. split; reflexivity.
Qed.

Lemma range_contributors_filters (fuel : nat) :
  (1 <= fuel)%nat ->
  forall (cs acc : list Contributor) (w : FakeWorld),
    Forall (fun c =>
              (length (commits_of (GetContributorLogin c)) <= fuel)%nat /\
              forallb has_commit (concat (commits_of (GetContributorLogin c))) = true)
           cs ->
    exists w',
      range_contributors P E fuel owner repo maxAge cs acc w
      = (Done (Ok (acc ++
                   List.filter
                     (fun c => isShadowMember
                                 (listed commits_of maxAge (fw_now w)
                                    (GetContributorLogin c))) cs)), w') /\
      fw_now w' = fw_now w.
Proof.
  intros Hpos. induction cs as [|c cs IH]; intros acc w Hcs.
  - exists w. cbn [range_contributors List.filter]. rewrite app_nil_r.
    split; reflexivity.
  - inversion Hcs as [|? ? [Hlen Hc] Hrest]; subst.
    cbn [range_contributors List.filter]. unfold bind at 1.
    cbn [call_IsExitingFunc IsExitingFunc E fake_services contributors_backend
         bk_exiting never_exiting].
    unfold bind at 1.
    destruct (ListCommitsByAuthor_listed fuel (GetContributorLogin c) w Hpos Hlen Hc)
      as (w1 & Hrun & Hnow).
    rewrite Hrun.
    destruct (isShadowMember (listed commits_of maxAge (fw_now w) (GetContributorLogin c))).
    + destruct (IH (acc ++ [c]) w1 Hrest) as (w' & Hrun' & Hnow').
      exists w'. rewrite Hrun', Hnow, <- app_assoc. split; [reflexivity|lia].
    + destruct (IH acc w1 Hrest) as (w' & Hrun' & Hnow').
      exists w'. rewrite Hrun', Hnow. split; [reflexivity|lia].
Qed.

End ByAuthor.

(** X11: with [IsExitingFunc] never asking to stop and a clock that stands
    still, the scan over an endpoint that serves the contributors and, for
    every author, the commits in pages returns exactly the contributors
    among whose listed commits one is direct, in the order of the
    contributor listing; the commits listed for an author are those in
    front of the first one older than a positive [maxAge], all of them
    otherwise. *)
Theorem FindShadowMembersByContributions_filters
    (commits_of : string -> list (list RepositoryCommit))
    (cpages : list (list Contributor)) (owner repo : string) (maxAge : Z)
    (fuel : nat) (w : FakeWorld) :
  (1 <= fuel)%nat ->
  (length cpages <= fuel)%nat ->
  Forall (fun c =>
            (length (commits_of (GetContributorLogin c)) <= fuel)%nat /\
            forallb has_commit (concat (commits_of (GetContributorLogin c))) = true)
         (concat cpages) ->
  fst (FindShadowMembersByContributions
         (fake (commits_by_author_server 0 commits_of))
         (fake_services (contributors_backend cpages never_exiting))
         fuel owner repo maxAge w)
  = Done (Ok (List.filter
                (fun c => isShadowMember
                            (listed commits_of maxAge (fw_now w)
                               (GetContributorLogin c)))
                (concat cpages))).
Proof.
  intros Hpos Hfuel Hcs. unfold FindShadowMembersByContributions, ListContributors.
  unfold bind at 1.
  destruct (ListContributors_loop_pages commits_of owner repo cpages fuel 0
              {| Page := 0; PerPage := 100 |} [] w)
    as (w1 & Hrun & Hnow); [exact Hpos|lia|reflexivity|].
  rewrite drop_0 in Hrun. cbn [app] in Hrun. rewrite Hrun.
  destruct (range_contributors_filters commits_of owner repo maxAge cpages fuel Hpos
              (concat cpages) [] w1 Hcs) as (w' & Hrun' & _).
  rewrite Hrun', Hnow. reflexivity.
Qed.

Lemma FindShadowMembersByContributions_filters_witness :
  let cpages := [[contributor_of "alice"]; [contributor_of "bob"; contributor_of "carol"]] in
  fst (FindShadowMembersByContributions
         (fake (commits_by_author_server 0 example_commits_of))
         (fake_services (contributors_backend cpages never_exiting))
         2 "o" "r" 0 world0)
  = Done (Ok [contributor_of "alice"]).
Proof.
  intros cpages.
  rewrite (FindShadowMembersByContributions_filters example_commits_of cpages
             "o" "r" 0 2 world0).
  - vm_compute. reflexivity.
  - lia.
  - cbn. lia.
  - repeat constructor.
Defined.

Section AnyScan.

Context {W : Type} (P : Platform W) (E : Services W).

Lemma range_contributors_sublist (fuel : nat) (owner repo : string) (maxAge : Z) :
  forall (cs acc : list Contributor) (w w' : W) (res : list Contributor),
    range_contributors P E fuel owner repo maxAge cs acc w = (Done (Ok res), w') ->
    exists picked, res = acc ++ picked /\ sublist picked cs.
Proof.
  induction cs as [|c cs IH]; intros acc w w' res Hrun.
  - cbn [range_contributors ret] in Hrun. injection Hrun as <- <-.
    exists []. rewrite app_nil_r. split; [reflexivity|constructor].
  - cbn [range_contributors] in Hrun. unfold bind at 1 in Hrun.
    destruct (call_IsExitingFunc E w) as [[[|]|pv|] w1]; try discriminate.
    + cbn [ret] in Hrun. injection Hrun as <- <-.
      exists []. rewrite app_nil_r. split; [reflexivity|apply sublist_nil_l].
    + unfold bind at 1 in Hrun.
      destruct (ListCommitsByAuthor P fuel owner repo (GetContributorLogin c) maxAge w1)
        as [[[commits|e]|pv|] w2]; try discriminate.
      destruct (isShadowMember commits).
      * apply IH in Hrun as (picked & -> & Hsub).
        exists (c :: picked). rewrite <- app_assoc. split; [reflexivity|].
        constructor. exact Hsub.
      * apply IH in Hrun as (picked & -> & Hsub).
        exists picked. split; [reflexivity|]. constructor. exact Hsub.
Qed.

End AnyScan.

(** X12: whatever the platform answers and whenever [IsExitingFunc] asks to
    stop, a list that the scan returns holds only contributors that
    [ListContributors] returned, each at most as often and in the same
    order. *)
Theorem FindShadowMembersByContributions_returns_contributors
    (W : Type) (P : Platform W) (E : Services W) (fuel : nat) (owner repo : string)
    (maxAge : Z) (w w' : W) (res : list Contributor) :
  FindShadowMembersByContributions P E fuel owner repo maxAge w = (Done (Ok res), w') ->
  exists cs w1,
    ListContributors P E fuel owner repo w = (Done (Ok cs), w1) /\
    sublist res cs.
Proof.
  unfold FindShadowMembersByContributions. unfold bind at 1.
  destruct (ListContributors P E fuel owner repo w) as [[[cs|e]|pv|] w1];
    try discriminate.
  intros Hrun. apply range_contributors_sublist in Hrun as (picked & -> & Hsub).
  exists cs, w1. split; [reflexivity|exact Hsub].
Qed.

Lemma FindShadowMembersByContributions_returns_contributors_witness :
  let cpages := [[contributor_of "alice"]; [contributor_of "bob"; contributor_of "carol"]] in
  let P := fake (commits_by_author_server 0 example_commits_of) in
  let E := fake_services
             (contributors_backend cpages (Some (fun k : nat => (4 <=? k)%nat))) in
  exists cs w1,
    ListContributors P E 2 "o" "r" world0 = (Done (Ok cs), w1) /\
    sublist [contributor_of "alice"] cs.
Proof.
  intros cpages P E.
  eapply (FindShadowMembersByContributions_returns_contributors FakeWorld P E 2
            "o" "r" 0 world0).
  vm_compute. reflexivity.
Defined.

(** X13: the scan calls [IsExitingFunc] before it looks at a contributor:
    while the hook was never set, a scan that finds a contributor panics,
    and a scan of a repository without contributors returns the empty list
    without calling it. *)
Theorem FindShadowMembersByContributions_needs_the_exit_hook
    (W : Type) (P : Platform W) (E : Services W) (fuel : nat) (owner repo : string)
    (maxAge : Z) (w w1 : W) (cs : list Contributor) :
  IsExitingFunc E = None ->
  ListContributors P E fuel owner repo w = (Done (Ok cs), w1) ->
  FindShadowMembersByContributions P E fuel owner repo maxAge w
  = match cs with
    | [] => (Done (Ok []), w1)
    | _ :: _ => (Panicked NilDereference, w1)
    end.
Proof.
  intros Hnil Hlist. unfold FindShadowMembersByContributions. unfold bind at 1.
  rewrite Hlist. destruct cs as [|c cs]; [reflexivity|].
  cbn [range_contributors]. unfold bind at 1, call_IsExitingFunc.
  rewrite Hnil. reflexivity.
Qed.

Lemma FindShadowMembersByContributions_needs_the_exit_hook_witness :
  let P := fake (commits_by_author_server 0 example_commits_of) in
  let E := fake_services (contributors_backend [[contributor_of "alice"]] None) in
  fst (FindShadowMembersByContributions P E 2 "o" "r" 0 world0)
  = Panicked NilDereference.
Proof.
  intros P E.
  rewrite (FindShadowMembersByContributions_needs_the_exit_hook FakeWorld P E 2
             "o" "r" 0 world0
             (snd (ListContributors P E 2 "o" "r" world0))
             [contributor_of "alice"]).
  - reflexivity.
  - reflexivity.
  - vm_compute. reflexivity.
Defined.

(** ** The address of a content *)

Lemma Split_slash_length (s : string) :
  length (Split_slash s) = Datatypes.S (slashes s).
Proof.
  induction s as [|c s IH]; [reflexivity|].
  cbn [Split_slash slashes].
  destruct (String.eqb (String c EmptyString) "/"); cbn [length]; [lia|].
  destruct (Split_slash s) as [|piece pieces]; cbn [length] in *; lia.
Qed.

Lemma Split_slash_piece (a rest : string) :
  no_slash a = true ->
  Split_slash (String.append a (String.append "/" rest)) = a :: Split_slash rest.
Proof.
  induction a as [|c a IH]; intros Ha.
  - reflexivity.
  - cbn [no_slash] in Ha. apply andb_true_iff in Ha as [Hc Ha].
    change (String.append (String c a) ?x) with (String c (String.append a x)).
    cbn [Split_slash].
    destruct (String.eqb (String c EmptyString) "/"); [discriminate|].
    rewrite (IH Ha). reflexivity.
Qed.

Lemma Split_slash_last (a : string) :
  no_slash a = true -> Split_slash a = [a].
Proof.
  induction a as [|c a IH]; intros Ha; [reflexivity|].
  cbn [no_slash] in Ha. apply andb_true_iff in Ha as [Hc Ha].
  cbn [Split_slash].
  destruct (String.eqb (String c EmptyString) "/"); [discriminate|].
  rewrite (IH Ha). reflexivity.
Qed.

Lemma append_empty (s : string) : String.append s "" = s.
Proof.
  induction s as [|c s IH]; [reflexivity|].
  change (String.append (String c s) "") with (String c (String.append s "")).
  f_equal. exact IH.
Qed.

Lemma Split_slash_html_path (owner repo tail : string) :
  no_slash owner = true -> no_slash repo = true -> is_tail tail = true ->
  exists more, Split_slash (html_path owner repo tail) = "" :: owner :: repo :: more.
Proof.
  intros Ho Hr Ht. unfold html_path.
  change (Split_slash (String.append "/" ?x)) with ("" :: Split_slash x).
  rewrite (Split_slash_piece owner _ Ho).
  destruct tail as [|c tail].
  - rewrite append_empty, (Split_slash_last repo Hr). exists []. reflexivity.
  - cbn [is_tail] in Ht. apply String.eqb_eq in Ht. injection Ht as ->.
    match goal with |- context [String ?c tail] =>
      change (String c tail) with (String.append "/" tail) end.
    rewrite (Split_slash_piece repo tail Hr). eexists. reflexivity.
Qed.

Lemma extractOwnerRepoPath_html_path
    (W : Type) (url_Parse_Path : string -> result string) (v : ContentRef) (w : W)
    (owner repo tail : string) :
  url_Parse_Path (GetHTMLURL v) = Ok (html_path owner repo tail) ->
  no_slash owner = true -> no_slash repo = true -> is_tail tail = true ->
  extractOwnerRepoPath url_Parse_Path v w
  = (Done (owner, repo, GetPath (Content v)), w).
Proof.
  intros Hparse Ho Hr Ht. unfold extractOwnerRepoPath. rewrite Hparse.
  destruct (Split_slash_html_path owner repo tail Ho Hr Ht) as [more ->].
  reflexivity.
Qed.

(** X14: for a content whose HTML URL has the path [/owner/repo] or
    [/owner/repo/...], [extractOwnerRepoPath] returns that owner and that
    repository together with the path of the content; it panics with an
    index out of range when the path of the URL has fewer than two slashes,
    and with the error of the parse when the URL does not parse. *)
Theorem extractOwnerRepoPath_reads_the_url
    (W : Type) (url_Parse_Path : string -> result string) (v : ContentRef) (w : W) :
  (forall owner repo tail : string,
      url_Parse_Path (GetHTMLURL v) = Ok (html_path owner repo tail) ->
      no_slash owner = true -> no_slash repo = true -> is_tail tail = true ->
      extractOwnerRepoPath url_Parse_Path v w
      = (Done (owner, repo, GetPath (Content v)), w)) /\
  (forall urlPath : string,
      url_Parse_Path (GetHTMLURL v) = Ok urlPath ->
      (slashes urlPath < 2)%nat ->
      extractOwnerRepoPath url_Parse_Path v w = (Panicked index_out_of_range, w)) /\
  (forall err : error,
      url_Parse_Path (GetHTMLURL v) = Err err ->
      extractOwnerRepoPath url_Parse_Path v w = (Panicked (PanicError err), w)).
Proof.
  split; [|split].
  - intros owner repo tail. apply extractOwnerRepoPath_html_path.
  - intros urlPath Hparse Hfew. unfold extractOwnerRepoPath. rewrite Hparse.
    pose proof (Split_slash_length urlPath) as Hlen.
    destruct (Split_slash urlPath) as [|p0 [|p1 [|p2 more]]]; cbn [length] in Hlen;
      try lia; reflexivity.
  - intros err Hparse. unfold extractOwnerRepoPath. rewrite Hparse. reflexivity.
Qed.

Lemma extractOwnerRepoPath_reads_the_url_witness :
  let v := {| Content := {| Type_ := Some "file"; Path := Some "cmd/main.go" |};
              HTMLURL := Some "/acme/tool/blob/main/cmd/main.go" |} in
  extractOwnerRepoPath (fun rawurl => Ok rawurl) v world0
  = (Done ("acme", "tool", "cmd/main.go"), world0) /\
  extractOwnerRepoPath (fun rawurl => Ok "/acme")  v world0
  = (Panicked index_out_of_range, world0).
Proof.
  intros v.
  destruct (extractOwnerRepoPath_reads_the_url FakeWorld (fun rawurl => Ok rawurl)
              v world0) as (Hgood & _ & _).
  destruct (extractOwnerRepoPath_reads_the_url FakeWorld (fun rawurl => Ok "/acme")
              v world0) as (_ & Hfew & _).
  split.
  - apply (Hgood "acme" "tool" "/blob/main/cmd/main.go"); reflexivity.
  - apply (Hfew "/acme"); [reflexivity|cbn; lia].
Defined.

(** X15: [DownloadContent] addresses the download by the content, not by
    the request it is called on: for a content whose HTML URL names a
    non-empty owner and repository it downloads the path of the content
    from that repository whatever the request held before, and it leaves the
    request holding that owner, repository and path; when the URL names an
    empty owner or repository nothing is downloaded and the validation
    error is returned. *)
Theorem DownloadContent_follows_the_content
    (W : Type) (E : Services W) (url_Parse_Path : string -> result string)
    (r : Params) (v : ContentRef) (owner repo tail : string) (w : W) :
  url_Parse_Path (GetHTMLURL v) = Ok (html_path owner repo tail) ->
  no_slash owner = true -> no_slash repo = true -> is_tail tail = true ->
  let target := {| params_owner := owner; params_repo := repo;
                   params_path := GetPath (Content v) |} in
  (owner <> "" -> repo <> "" ->
   DownloadContent E url_Parse_Path r v w
   = (Done (fst (Repositories_DownloadContents E owner repo (GetPath (Content v)) w),
            target),
      snd (Repositories_DownloadContents E owner repo (GetPath (Content v)) w))) /\
  (owner = "" \/ repo = "" ->
   exists msg,
     DownloadContent E url_Parse_Path r v w
     = (Done (Err (ValidationError msg),
              {| params_owner := owner; params_repo := repo;
                 params_path := params_path r |}), w)).
Proof.
  intros Hparse Ho Hr Ht target.
  unfold DownloadContent. split.
  - intros Hno Hnr. unfold bind at 1.
    rewrite (extractOwnerRepoPath_html_path W url_Parse_Path v w owner repo tail
               Hparse Ho Hr Ht).
    unfold DownloadFile, Validate, Params_Validate.
    cbn [WithRepo WithOwner params_owner params_repo params_path].
    destruct (String.eqb_spec owner ""); [contradiction|].
    destruct (String.eqb_spec repo ""); [contradiction|].
    destruct (Repositories_DownloadContents E owner repo (GetPath (Content v)) w).
    reflexivity.
  - intros Hempty. unfold bind at 1.
    rewrite (extractOwnerRepoPath_html_path W url_Parse_Path v w owner repo tail
               Hparse Ho Hr Ht).
    unfold DownloadFile, Validate, Params_Validate.
    cbn [WithRepo WithOwner params_owner params_repo params_path].
    destruct (String.eqb_spec owner "") as [->|Hno];
      destruct (String.eqb_spec repo "") as [->|Hnr];
      try (eexists; reflexivity).
    destruct Hempty; contradiction.
Qed.

Lemma DownloadContent_follows_the_content_witness :
  let v := {| Content := {| Type_ := Some "file"; Path := Some "cmd/main.go" |};
              HTMLURL := Some "/acme/tool/blob/main/cmd/main.go" |} in
  let b :=
    {| bk_Org := bk_Org null_backend; bk_User := bk_User null_backend;
       bk_Contributors := bk_Contributors null_backend;
       bk_SearchText := bk_SearchText null_backend;
       bk_SearchCode := bk_SearchCode null_backend;
       bk_Download := fun owner repo path =>
         Ok (String.append owner (String.append ":" (String.append repo
              (String.append ":" path))));
       bk_exiting := None |} in
  fst (DownloadContent (fake_services b) (fun rawurl => Ok rawurl)
         (walk_of "other" "place" "docs") v world0)
  = Done (Ok "acme:tool:cmd/main.go", walk_of "acme" "tool" "cmd/main.go").
Proof.
  intros v b.
  destruct (DownloadContent_follows_the_content FakeWorld (fake_services b)
              (fun rawurl => Ok rawurl) (walk_of "other" "place" "docs") v
              "acme" "tool" "/blob/main/cmd/main.go" world0
              eq_refl eq_refl eq_refl eq_refl) as [H _].
  rewrite H by discriminate. reflexivity.
Defined.
